(** * Task Manager API: validation middleware and error normalisation

    A shallow embedding of [middleware/validation.js], [middleware/errorHandler.js],
    [middleware/asyncHandler.js] and [routes/tasks.js].

    JavaScript strings are sequences of UTF-16 code units; the regular
    expressions of [sanitizeString] carry no [u] flag and therefore work on
    code units.  A code unit is a number of type [N]. *)

From Stdlib Require Import List Bool Arith NArith Lia String Ascii DecimalString.
From Stdlib Require Import Floats.
From Stdlib Require DecimalNat DecimalFacts.
Import ListNotations.

Set Implicit Arguments.
Open Scope string_scope.
Open Scope list_scope.
Open Scope nat_scope.

(* ================================================================== *)
(** * JavaScript strings *)

Module JsString.

Definition jsstring := list N.

(** The code units of an ASCII literal of the source. *)
Definition lit (s : string) : jsstring :=
  map N_of_ascii (list_ascii_of_string s).

Fixpoint eqb (a b : jsstring) : bool :=
  match a, b with
  | [], [] => true
  | x :: a', y :: b' => N.eqb x y && eqb a' b'
  | _, _ => false
  end.

(** [String.prototype.startsWith]. *)
Fixpoint startsWith (s pre : jsstring) : bool :=
  match pre, s with
  | [], _ => true
  | p :: pre', x :: s' => N.eqb p x && startsWith s' pre'
  | _ :: _, [] => false
  end.

(** [String.prototype.includes]: [sub] occurs in [s] as a substring. *)
Fixpoint includes (s sub : jsstring) : bool :=
  startsWith s sub ||
  match s with
  | [] => false
  | _ :: s' => includes s' sub
  end.

(** WhiteSpace and LineTerminator code units of ECMAScript, the ones
    [String.prototype.trim] strips. *)
Definition is_space (c : N) : bool :=
  existsb (N.eqb c)
    [9; 10; 11; 12; 13; 32; 160; 5760; 8192; 8193; 8194; 8195; 8196; 8197;
     8198; 8199; 8200; 8201; 8202; 8232; 8233; 8239; 8287; 12288; 65279]%N.

Fixpoint trimStart (s : jsstring) : jsstring :=
  match s with
  | [] => []
  | c :: s' => if is_space c then trimStart s' else s
  end.

(** [String.prototype.trim]. *)
Definition trim (s : jsstring) : jsstring :=
  rev (trimStart (rev (trimStart s))).

(** [[A-Za-z0-9_]], the class [\w] and the test behind [\b]. *)
Definition is_word_char (c : N) : bool :=
  ((65 <=? c) && (c <=? 90) || (97 <=? c) && (c <=? 122) ||
   (48 <=? c) && (c <=? 57) || (c =? 95))%N.

End JsString.

Import JsString.

(* ================================================================== *)
(** * Regular expressions: the backtracking matcher of ECMAScript

    Only the constructs that occur in [validation.js] are present.  The
    matcher is written in continuation-passing style like the matcher of
    the language definition: a continuation receives the position reached
    and decides whether the rest of the pattern matches there; [None] makes
    the caller backtrack.  A position is the code unit just before it (for
    [\b]) and the input that remains. *)

Module Regex.

Inductive regex : Type :=
| REmpty
| RChar (c : N)                       (* a pattern character *)
| RClass (neg : bool) (cs : list N)   (* [[...]] and [[^...]] *)
| RWord                               (* [\w] *)
| RSeq (r1 r2 : regex)
| RStar (r : regex)                   (* greedy [*] *)
| RNotAhead (r : regex)               (* [(?!r)] *)
| RWordB.                             (* [\b] *)

(** Greedy [+]: one iteration, then [*]. *)
Definition RPlus (r : regex) : regex := RSeq r (RStar r).

Definition rseq (rs : list regex) : regex := fold_right RSeq REmpty rs.

(** The pattern characters of an ASCII literal. *)
Definition rlit (s : string) : regex := rseq (map RChar (lit s)).

(** Canonicalize of the [i] flag without [u]: upper-casing, in which a code
    unit outside ASCII never becomes an ASCII one.  Every pattern character
    and class member of this file is ASCII, so only the ASCII part of the
    case mapping can decide a comparison. *)
Definition canonicalize (c : N) : N :=
  if ((97 <=? c) && (c <=? 122))%N then (c - 32)%N else c.

Definition char_match (ic : bool) (a x : N) : bool :=
  if ic then N.eqb (canonicalize a) (canonicalize x) else N.eqb a x.

Definition class_match (ic neg : bool) (cs : list N) (x : N) : bool :=
  xorb neg (existsb (fun a => char_match ic a x) cs).

Definition word_at (c : option N) : bool :=
  match c with
  | Some x => is_word_char x
  | None => false
  end.

Definition cont := option N -> jsstring -> option jsstring.

(** A single code unit accepted by [ok]. *)
Definition one (ok : N -> bool) (k : cont) (s : jsstring) : option jsstring :=
  match s with
  | x :: s' => if ok x then k (Some x) s' else None
  | [] => None
  end.

(** RepeatMatcher with min 0 and no upper bound, greedy: try one more
    iteration of [body] first, and refuse an iteration that consumed
    nothing; fall back to the continuation.  [n] bounds the number of
    iterations by the length of the input that remains. *)
Fixpoint star_loop (body : cont -> cont) (k : cont) (n : nat)
    (prev : option N) (s : jsstring) {struct n} : option jsstring :=
  match n with
  | O => k prev s
  | S n' =>
      match body (fun p' s' =>
                    if List.length s' <? List.length s then star_loop body k n' p' s'
                    else None) prev s with
      | Some e => Some e
      | None => k prev s
      end
  end.

Fixpoint rmatch (ic : bool) (r : regex) (k : cont) (prev : option N)
    (s : jsstring) {struct r} : option jsstring :=
  match r with
  | REmpty => k prev s
  | RChar c => one (char_match ic c) k s
  | RClass neg cs => one (class_match ic neg cs) k s
  | RWord => one is_word_char k s
  | RSeq r1 r2 => rmatch ic r1 (rmatch ic r2 k) prev s
  | RStar r1 => star_loop (rmatch ic r1) k (List.length s) prev s
  | RNotAhead r1 =>
      match rmatch ic r1 (fun _ s' => Some s') prev s with
      | Some _ => None
      | None => k prev s
      end
  | RWordB =>
      if xorb (word_at prev) (word_at (hd_error s)) then k prev s else None
  end.

(** One attempt at the current position: the input left after the match. *)
Definition exec (ic : bool) (r : regex) (prev : option N) (s : jsstring)
  : option jsstring :=
  rmatch ic r (fun _ rest => Some rest) prev s.

(** [s.replace(/r/g, '')], where [attempt prev s] is one attempt of the
    pattern at the current position.  The search restarts at the end of
    each match (or one code unit further after an empty match); [skip]
    counts the code units of the current match that are still to be
    dropped. *)
Fixpoint replace_go (attempt : option N -> jsstring -> option jsstring)
    (skip : nat) (prev : option N) (s : jsstring) {struct s} : jsstring :=
  match s with
  | [] => []
  | c :: s' =>
      match skip with
      | S n => replace_go attempt n (Some c) s'
      | O =>
          match attempt prev s with
          | Some rest =>
              match List.length s - List.length rest with
              | S n => replace_go attempt n (Some c) s'
              | O => c :: replace_go attempt 0 (Some c) s'
              end
          | None => c :: replace_go attempt 0 (Some c) s'
          end
      end
  end.

Definition replace_all (ic : bool) (r : regex) (s : jsstring) : jsstring :=
  replace_go (exec ic r) 0 None s.

End Regex.

Import Regex.

(* ================================================================== *)
(** * JavaScript values

    Request bodies come from [JSON.parse]; error objects are ordinary
    objects.  An object is its prototype and the list of its own enumerable
    properties in enumeration order (keys are unique).  The prototype [None]
    is the default [Object.prototype]; [Some JNull] is the null prototype.
    [JSON.parse] gives every object the default prototype, and makes a
    member named [__proto__] an own property like any other. *)

Module JsValue.

#[warnings="-register-all"]
Inductive JsValue : Type :=
| JUndefined
| JNull
| JBool (b : bool)
| JNum (x : float)
| JStr (s : jsstring)
| JArr (elems : list JsValue)
| JObj (proto : option JsValue) (props : list (jsstring * JsValue)).

Inductive jstype : Type := TUndefined | TObject | TBoolean | TNumber | TString.

(** The [typeof] operator. *)
Definition typeof (v : JsValue) : jstype :=
  match v with
  | JUndefined => TUndefined
  | JNull | JArr _ | JObj _ _ => TObject
  | JBool _ => TBoolean
  | JNum _ => TNumber
  | JStr _ => TString
  end.

Definition is_object_type (v : JsValue) : bool :=
  match typeof v with TObject => true | _ => false end.

(** The shape of a value: its [typeof], with [null] and arrays
    ([Array.isArray]) told apart from other objects. *)
Inductive shape : Type :=
  SUndefined | SNull | SBoolean | SNumber | SString | SArray | SObject.

Definition shape_of (v : JsValue) : shape :=
  match v with
  | JUndefined => SUndefined
  | JNull => SNull
  | JBool _ => SBoolean
  | JNum _ => SNumber
  | JStr _ => SString
  | JArr _ => SArray
  | JObj _ _ => SObject
  end.

Definition isArray (v : JsValue) : bool :=
  match v with JArr _ => true | _ => false end.

Definition is_nullish (v : JsValue) : bool :=
  match v with JUndefined | JNull => true | _ => false end.

(** ToBoolean. *)
Definition truthy (v : JsValue) : bool :=
  match v with
  | JUndefined | JNull => false
  | JBool b => b
  | JNum x => negb (PrimFloat.eqb x 0 || negb (PrimFloat.eqb x x))
  | JStr s => negb (eqb s [])
  | JArr _ | JObj _ _ => true
  end.

(** [a === b] where [b] is a string or a number. *)
Definition strict_eq_str (v : JsValue) (s : jsstring) : bool :=
  match v with JStr t => eqb t s | _ => false end.

Definition strict_eq_num (v : JsValue) (x : float) : bool :=
  match v with JNum y => PrimFloat.eqb y x | _ => false end.

Fixpoint find_prop (props : list (jsstring * JsValue)) (key : jsstring)
  : option JsValue :=
  match props with
  | [] => None
  | (k, v) :: props' => if eqb k key then Some v else find_prop props' key
  end.

(** Define or overwrite an own property; a new key goes last. *)
Fixpoint set_prop (props : list (jsstring * JsValue)) (key : jsstring)
    (v : JsValue) : list (jsstring * JsValue) :=
  match props with
  | [] => [(key, v)]
  | (k, w) :: props' =>
      if eqb k key then (k, v) :: props' else (k, w) :: set_prop props' key v
  end.

(** [o[key]] for the keys this program reads ([title], [status],
    [description], [name], [message], [code], ...), none of which
    [Object.prototype], [Array.prototype] or a primitive's wrapper defines:
    the own property, else the one inherited along the prototype chain,
    else [undefined].  The caller deals with [undefined] and [null]. *)
Fixpoint js_get (o : JsValue) (key : jsstring) {struct o} : JsValue :=
  match o with
  | JObj proto props =>
      match find_prop props key with
      | Some v => v
      | None =>
          match proto with
          | Some p => js_get p key
          | None => JUndefined
          end
      end
  | _ => JUndefined
  end.

(** [o[key] = v] on an object that was created as [{}] and has since been
    assigned each key at most once, as [sanitizeObject] and [errorHandler]
    do.  For the key [__proto__] the assignment reaches the accessor of
    [Object.prototype]: it replaces the prototype of [o] when [v] is an
    object or [null] and does nothing otherwise, and no property is
    created.  Any other key becomes an own property. *)
Definition js_set (o : JsValue) (key : jsstring) (v : JsValue) : JsValue :=
  match o with
  | JObj proto props =>
      if eqb key (lit "__proto__") then
        if is_object_type v then JObj (Some v) props else o
      else JObj proto (set_prop props key v)
  | _ => o
  end.

(** The decimal key of an array index. *)
Definition index_key (i : nat) : jsstring :=
  lit (NilEmpty.string_of_uint (Nat.to_uint i)).

Fixpoint indexed (i : nat) (vs : list JsValue) : list (jsstring * JsValue) :=
  match vs with
  | [] => []
  | v :: vs' => (index_key i, v) :: indexed (S i) vs'
  end.

(** The own enumerable string-keyed properties, as [for ... in] with an
    own-property test, [Object.keys] and [Object.values] see them. *)
Definition own_props (v : JsValue) : list (jsstring * JsValue) :=
  match v with
  | JObj _ props => props
  | JArr elems => indexed 0 elems
  | JStr s => indexed 0 (map (fun c => JStr [c]) s)
  | _ => []
  end.

(** [Object.keys] and [Object.values]; both throw on [undefined] and [null]. *)
Definition Object_keys (v : JsValue) : option (list jsstring) :=
  if is_nullish v then None else Some (map fst (own_props v)).

Definition Object_values (v : JsValue) : option (list JsValue) :=
  if is_nullish v then None else Some (map snd (own_props v)).

(** An object literal. *)
Definition obj (props : list (string * JsValue)) : JsValue :=
  JObj None (map (fun kv => (lit (fst kv), snd kv)) props).

Definition str (s : string) : JsValue := JStr (lit s).

End JsValue.

Import JsValue.

(* ================================================================== *)
(** * Express: requests, responses, middleware *)

Record Request : Type := mkRequest {
  params_id : jsstring;      (* req.params.id *)
  body : JsValue             (* req.body *)
}.

Record Response : Type := mkResponse {
  statusCode : JsValue;      (* res.status(...) *)
  json : JsValue             (* res.json(...) *)
}.

(** What a middleware or a handler does with a request: it answers (and
    [next] is not called), it calls [next()] on the request as it left it,
    it throws (an [async] function: its promise rejects), or it calls
    [next(err)]. *)
Inductive Outcome : Type :=
| Responded (res : Response)
| Next (req : Request)
| Threw (err : JsValue)
| NextErr (err : JsValue).

(** The [TypeError] of destructuring or of [Object.keys] on [undefined] or
    [null]; the text of its message is the engine's. *)
Definition TypeError : JsValue :=
  obj [("name", str "TypeError");
       ("message", str "Cannot convert undefined or null to object")].

(* ================================================================== *)
(** * validation.js *)

(** The first pattern of [sanitizeString], flags [gi]: the characters
    [<script], a word boundary, [[^<]] any number of times, then any number
    of times the group (not followed by [</script>]: a [<] and [[^<]] any
    number of times), then the characters [</script>]. *)
Definition script_re : regex :=
  rseq [ rlit "<script"; RWordB; RStar (RClass true (lit "<"));
         RStar (rseq [ RNotAhead (rlit "</script>"); RChar 60;
                       RStar (RClass true (lit "<")) ]);
         rlit "</script>" ].

(** The second pattern, flag [g]: [<], one or more [[^>]], [>]. *)
Definition tag_re : regex :=
  rseq [ RChar 60; RPlus (RClass true (lit ">")); RChar 62 ].

(** The third pattern, flag [g]: a dollar sign and one or more [\w]. *)
Definition operator_re : regex :=
  rseq [ RChar 36; RPlus RWord ].

(** The three [replace] calls of [sanitizeString]. *)
Definition sanitized_text (str : jsstring) : jsstring :=
  let sanitized := replace_all true script_re str in
  let sanitized := replace_all false tag_re sanitized in
  let sanitized := replace_all false operator_re sanitized in
  sanitized.

Definition sanitizeString (str : JsValue) : JsValue :=
  match str with
  | JStr s => JStr (sanitized_text s)
  | _ => str                         (* typeof str !== 'string' *)
  end.

Section ValidateObjectId.

(** [mongoose.Types.ObjectId.isValid], the identifier format of the store. *)
Variable ObjectId_isValid : jsstring -> bool.

Definition validateObjectId (req : Request) : Outcome :=
  let id := params_id req in
  if negb (ObjectId_isValid id) then
    Responded (mkResponse (JNum 400)
                 (obj [("error", str "Invalid task ID format")]))
  else Next req.

End ValidateObjectId.

Fixpoint sanitizeObject (o : JsValue) {struct o} : JsValue :=
  match o with
  | JObj _ props =>
      (fix loop (ps : list (jsstring * JsValue)) (sanitized : JsValue)
         {struct ps} : JsValue :=
         match ps with
         | [] => sanitized
         | (key, v) :: ps' =>
             if startsWith key (lit "$") then loop ps' sanitized
             else
               loop ps'
                 (js_set sanitized key
                    match v with
                    | JStr _ => sanitizeString v
                    | JNull | JArr _ | JObj _ _ => sanitizeObject v
                    | _ => v
                    end)
         end) props (JObj None [])
  | JArr elems =>
      (fix loop (i : nat) (vs : list JsValue) (sanitized : JsValue)
         {struct vs} : JsValue :=
         match vs with
         | [] => sanitized
         | v :: vs' =>
             loop (S i) vs'
               (js_set sanitized (index_key i)
                  match v with
                  | JStr _ => sanitizeString v
                  | JNull | JArr _ | JObj _ _ => sanitizeObject v
                  | _ => v
                  end)
         end) 0 elems (JObj None [])
  | _ => o
  end.

(** [errors.push(message)] *)
Definition push (errors : list jsstring) (message : string) : list jsstring :=
  errors ++ [lit message].

(** [res.status(400).json({ error: 'Validation failed', details: errors })] *)
Definition validation_failed (errors : list jsstring) : Response :=
  mkResponse (JNum 400)
    (obj [("error", str "Validation failed");
          ("details", JArr (map JStr errors))]).

(** [!title || typeof title !== 'string' || title.trim() === ''] *)
Definition title_required_fails (title : JsValue) : bool :=
  negb (truthy title) ||
  match title with
  | JStr s => eqb (trim s) (lit "")
  | _ => true
  end.

(** [typeof title !== 'string' || title.trim() === ''] *)
Definition title_nonempty_fails (title : JsValue) : bool :=
  match title with
  | JStr s => eqb (trim s) (lit "")
  | _ => true
  end.

(** [typeof status !== 'string' || !['pending', 'completed'].includes(status)] *)
Definition status_enum_fails (status : JsValue) : bool :=
  match status with
  | JStr s => negb (existsb (eqb s) [lit "pending"; lit "completed"])
  | _ => true
  end.

Definition is_undefined (v : JsValue) : bool :=
  match v with JUndefined => true | _ => false end.

Definition is_string (v : JsValue) : bool :=
  match v with JStr _ => true | _ => false end.

Definition validateTaskInput (req : Request) : Outcome :=
  let errors := [] in
  let req := mkRequest (params_id req) (sanitizeObject (body req)) in
  if is_nullish (body req) then Threw TypeError else
  let title := js_get (body req) (lit "title") in
  let status := js_get (body req) (lit "status") in
  let description := js_get (body req) (lit "description") in
  let errors :=
    if title_required_fails title
    then push errors "Title is required and must be a non-empty string"
    else errors in
  let errors :=
    if negb (is_undefined status) && status_enum_fails status
    then push errors "Status must be either 'pending' or 'completed'"
    else errors in
  let errors :=
    if negb (is_undefined description) && negb (is_string description)
    then push errors "Description must be a string"
    else errors in
  if 0 <? List.length errors then Responded (validation_failed errors)
  else Next req.

Definition validFields : list jsstring :=
  [lit "title"; lit "status"; lit "description"].

Definition validateTaskUpdate (req : Request) : Outcome :=
  let errors := [] in
  let req := mkRequest (params_id req) (sanitizeObject (body req)) in
  if is_nullish (body req) then Threw TypeError else
  let title := js_get (body req) (lit "title") in
  let status := js_get (body req) (lit "status") in
  let description := js_get (body req) (lit "description") in
  let providedFields := map fst (own_props (body req)) in
  let hasValidField :=
    existsb (fun field => existsb (eqb field) validFields) providedFields in
  let errors :=
    if negb hasValidField || (List.length providedFields =? 0)
    then push errors
           "At least one valid field (title, status, or description) must be provided"
    else errors in
  let errors :=
    if negb (is_undefined title) && title_nonempty_fails title
    then push errors "Title must be a non-empty string"
    else errors in
  let errors :=
    if negb (is_undefined status) && status_enum_fails status
    then push errors "Status must be either 'pending' or 'completed'"
    else errors in
  let errors :=
    if negb (is_undefined description) && negb (is_string description)
    then push errors "Description must be a string"
    else errors in
  if 0 <? List.length errors then Responded (validation_failed errors)
  else Next req.

(* ================================================================== *)
(** * errorHandler.js *)

(** ToString of a key or of [undefined], as a template literal applies it. *)
Definition key_to_string (k : option jsstring) : jsstring :=
  match k with
  | Some s => s
  | None => lit "undefined"
  end.

(** [NODE_ENV] is [process.env.NODE_ENV].  The handler first logs
    [err.message], which already throws when [err] is [undefined] or
    [null]; [Object.values] and [Object.keys] throw on [undefined] and
    [null], and so does reading [e.message] of such an [e].  The outcome
    [Responded] holds the status and the body that the handler hands to
    [res.status] and [res.json] in its last line; what Express does with
    that status is [res_status] below. *)
Definition errorHandler (NODE_ENV : JsValue) (err : JsValue) : Outcome :=
  if is_nullish err then Threw TypeError else
  let development := strict_eq_str NODE_ENV (lit "development") in
  let finish (statusCode errorResponse : JsValue) : Outcome :=
    let errorResponse :=
      if development
      then js_set errorResponse (lit "stack") (js_get err (lit "stack"))
      else errorResponse in
    Responded (mkResponse statusCode errorResponse) in
  if strict_eq_str (js_get err (lit "name")) (lit "ValidationError") then
    match Object_values (js_get err (lit "errors")) with
    | None => Threw TypeError
    | Some es =>
        if existsb is_nullish es then Threw TypeError
        else
          let messages := map (fun e => js_get e (lit "message")) es in
          finish (JNum 400)
            (obj [("error", str "Validation failed");
                  ("details", JArr messages)])
    end
  else if strict_eq_str (js_get err (lit "name")) (lit "CastError") then
    finish (JNum 400) (obj [("error", str "Invalid ID format")])
  else if strict_eq_num (js_get err (lit "code")) 11000 then
    match Object_keys (js_get err (lit "keyPattern")) with
    | None => Threw TypeError
    | Some keys =>
        let field := hd_error keys in
        finish (JNum 400)
          (obj [("error",
                 JStr (lit "Duplicate value for field: " ++ key_to_string field))])
    end
  else if strict_eq_str (js_get err (lit "name")) (lit "MongoNetworkError")
       || strict_eq_str (js_get err (lit "name")) (lit "MongoTimeoutError") then
    finish (JNum 503) (obj [("error", str "Service temporarily unavailable")])
  else if truthy (js_get err (lit "statusCode")) then
    finish (js_get err (lit "statusCode"))
      (obj [("error", js_get err (lit "message"))])
  else if truthy (js_get err (lit "message")) then
    finish (JNum 500) (obj [("error", js_get err (lit "message"))])
  else
    finish (JNum 500) (obj [("error", str "Internal server error")]).

(** The error of [res.status] for a status code that it does not accept;
    its kind and the text of its message are those of Express. *)
Definition InvalidStatusCode : JsValue :=
  obj [("name", str "RangeError"); ("message", str "Invalid status code")].

Section Send.

(** The check of [res.status(code)], which belongs to Express and not to
    this program: Express 5 accepts an integer from 100 to 999 and throws
    for every other value, so that nothing is sent. *)
Variable status_accepted : JsValue -> bool.

(** [res.status(statusCode).json(errorResponse)] *)
Definition res_status (res : Response) : Outcome :=
  if status_accepted (statusCode res) then Responded res
  else Threw InvalidStatusCode.

(** [errorHandler] up to and including its last line: what is sent. *)
Definition errorHandler_sends (NODE_ENV err : JsValue) : Outcome :=
  match errorHandler NODE_ENV err with
  | Responded res => res_status res
  | o => o
  end.

End Send.

(* ================================================================== *)
(** * routes/tasks.js, asyncHandler.js and the wiring of server.js

    A route handler is an [async] function: it awaits calls of the Task
    model and ends by answering, or its promise rejects ([Threw]). *)

Inductive StoreCall : Type :=
| Task_create (fields : JsValue)
| Task_find
| Task_findById (id : jsstring)
| Task_findByIdAndUpdate (id : jsstring) (update : JsValue)
| Task_findByIdAndDelete (id : jsstring).

Inductive Settled : Type :=
| Fulfilled (value : JsValue)
| Rejected (reason : JsValue).

Inductive Handler : Type :=
| Done (o : Outcome)
| Await (call : StoreCall) (k : Settled -> Handler).

(** [catch (err) { res.status(400).json({ error: err.message }); }] *)
Definition catch_400 (err : JsValue) : Handler :=
  if is_nullish err then Done (Threw TypeError)
  else Done (Responded (mkResponse (JNum 400)
                          (obj [("error", js_get err (lit "message"))]))).

Definition not_found : Handler :=
  Done (Responded (mkResponse (JNum 404) (obj [("error", str "Task not found")]))).

Definition create_task (req : Request) : Handler :=
  Await (Task_create (body req)) (fun r =>
    match r with
    | Fulfilled task => Done (Responded (mkResponse (JNum 201) task))
    | Rejected err => catch_400 err
    end).

(** The function given to [asyncHandler] for [GET /]: no [try]. *)
Definition get_all_tasks (req : Request) : Handler :=
  Await Task_find (fun r =>
    match r with
    | Fulfilled tasks => Done (Responded (mkResponse (JNum 200) tasks))
    | Rejected err => Done (Threw err)
    end).

Definition get_one_task (req : Request) : Handler :=
  Await (Task_findById (params_id req)) (fun r =>
    match r with
    | Fulfilled task =>
        if negb (truthy task) then not_found
        else Done (Responded (mkResponse (JNum 200) task))
    | Rejected err => catch_400 err
    end).

Definition update_task (req : Request) : Handler :=
  Await (Task_findByIdAndUpdate (params_id req) (body req)) (fun r =>
    match r with
    | Fulfilled task =>
        if negb (truthy task) then not_found
        else Done (Responded (mkResponse (JNum 200) task))
    | Rejected err => catch_400 err
    end).

Definition delete_task (req : Request) : Handler :=
  Await (Task_findByIdAndDelete (params_id req)) (fun r =>
    match r with
    | Fulfilled task =>
        if negb (truthy task) then not_found
        else Done (Responded (mkResponse (JNum 200)
                                (obj [("message", str "Task deleted")])))
    | Rejected err => catch_400 err
    end).

Fixpoint on_outcome (f : Outcome -> Outcome) (h : Handler) : Handler :=
  match h with
  | Done o => Done (f o)
  | Await call k => Await call (fun r => on_outcome f (k r))
  end.

(** [Promise.resolve(fn(req, res, next)).catch(next)] for an [async]
    function [fn], as the one the routes wrap: a [Handler] is the run of
    an [async] function, which never throws to its caller, so that [Threw]
    in it is a rejection of its promise.  The rejection goes to [next],
    that is to the error-handling middleware (the reason of a rejection is
    an error object, never a falsy value or the word [route], which [next]
    would read otherwise).  A function that is not [async] and throws
    before it returns a promise is outside this definition: its exception
    would leave [asyncHandler] without reaching [next]. *)
Definition asyncHandler (fn : Request -> Handler) (req : Request) : Handler :=
  on_outcome
    (fun o => match o with
              | Threw err => NextErr err
              | _ => o
              end)
    (fn req).

(** The middleware of a route, in order, then its handler. *)
Fixpoint route (mws : list (Request -> Outcome)) (h : Request -> Handler)
    (req : Request) : Handler :=
  match mws with
  | [] => h req
  | mw :: mws' =>
      match mw req with
      | Next req' => route mws' h req'
      | o => Done o
      end
  end.

Inductive Method : Type := POST | GET | GET_id | PUT_id | DELETE_id.

Section App.

Variable ObjectId_isValid : jsstring -> bool.
Variable NODE_ENV : JsValue.

(** [router.post("/", validateTaskInput, ...)] and the other four routes. *)
Definition router (m : Method) : Request -> Handler :=
  match m with
  | POST => route [validateTaskInput] create_task
  | GET => route [] (asyncHandler get_all_tasks)
  | GET_id => route [validateObjectId ObjectId_isValid] get_one_task
  | PUT_id =>
      route [validateObjectId ObjectId_isValid; validateTaskUpdate] update_task
  | DELETE_id => route [validateObjectId ObjectId_isValid] delete_task
  end.

(** [app.use('/tasks', taskRoutes); app.use(errorHandler)]: an error given
    to [next], and what a route throws or rejects with (Express 5 hands
    both to [next]), reaches [errorHandler]. *)
Definition app (m : Method) (req : Request) : Handler :=
  on_outcome
    (fun o => match o with
              | Threw err | NextErr err => errorHandler NODE_ENV err
              | _ => o
              end)
    (router m req).

End App.

(** Running a handler against the persistence layer: [step] answers each
    call from the state of the store and gives the next state; the result
    is the outcome, the final state and the calls made, in order. *)
Fixpoint run (S : Type) (step : StoreCall -> S -> Settled * S) (st : S)
    (h : Handler) : Outcome * S * list StoreCall :=
  match h with
  | Done o => (o, st, [])
  | Await call k =>
      let (r, st') := step call st in
      let '(o, st'', calls) := run step st' (k r) in
      (o, st'', call :: calls)
  end.

(** A persistence layer whose every call fails with [err]. *)
Definition failing_store (err : JsValue) (call : StoreCall) (st : unit)
  : Settled * unit :=
  (Rejected err, st).

(* ================================================================== *)
(** * The Task store *)

Module Store.

(** Modelled from the spec: [models/task.js] is missing; the status of a
    Task is one of the two enumerated values. *)
Inductive Status : Type := pending | completed.

(** Modelled from the spec: [models/task.js] (the Task schema and the
    model behind [Task.create], [Task.find], [Task.findById],
    [Task.findByIdAndUpdate] and [Task.findByIdAndDelete]) is missing.  A
    Task has an [id] generated by the store, a non-empty [title], an
    optional [description], a [status] that defaults to pending, and a
    [createdAt] set once at creation. *)
Record Task : Type := mkTask {
  id : jsstring;
  title : jsstring;
  description : option jsstring;
  status : Status;
  createdAt : float
}.

(** Modelled from the spec: [models/task.js] is missing; a Task as the
    JSON document the store hands to a route. *)
Definition status_json (s : Status) : JsValue :=
  match s with
  | pending => str "pending"
  | completed => str "completed"
  end.

(** Modelled from the spec: [models/task.js] is missing; see [status_json]. *)
Definition task_json (t : Task) : JsValue :=
  JObj None
    ([(lit "id", JStr (id t)); (lit "title", JStr (title t))] ++
     match description t with
     | Some d => [(lit "description", JStr d)]
     | None => []
     end ++
     [(lit "status", status_json (status t));
      (lit "createdAt", JNum (createdAt t))]).

(** Modelled from the spec: [models/task.js] is missing; the schema
    failure of the store, which the Error Normalizer knows by the name
    [ValidationError]. *)
Definition schema_failure (field message : string) : JsValue :=
  obj [("name", str "ValidationError");
       ("message", str message);
       ("errors", obj [(field, obj [("message", str message)])])].

(** Modelled from the spec: [models/task.js] is missing; the fields of a
    payload as the schema reads them.  [title] must be a string that is not empty after trimming,
    [status] one of the two enumerated values, [description] a string; a
    field that is absent is left as it is. *)
Definition read_title (fields : JsValue) (old : jsstring)
  : option jsstring :=
  match js_get fields (lit "title") with
  | JUndefined => Some old
  | JStr s => if eqb (trim s) (lit "") then None else Some s
  | _ => None
  end.

(** Modelled from the spec: [models/task.js] is missing; see [read_title]. *)
Definition read_status (fields : JsValue) (old : Status) : option Status :=
  match js_get fields (lit "status") with
  | JUndefined => Some old
  | JStr s =>
      if eqb s (lit "pending") then Some pending
      else if eqb s (lit "completed") then Some completed
      else None
  | _ => None
  end.

(** Modelled from the spec: [models/task.js] is missing; see [read_title]. *)
Definition read_description (fields : JsValue) (old : option jsstring)
  : option (option jsstring) :=
  match js_get fields (lit "description") with
  | JUndefined => Some old
  | JStr s => Some (Some s)
  | _ => None
  end.

(** Modelled from the spec: [Task.findByIdAndUpdate] of the missing
    [models/task.js]; an update may change [title], [description] and
    [status]; [createdAt] and [id] are immutable, whatever other keys
    the payload carries. *)
Definition apply_update (t : Task) (fields : JsValue) : JsValue + Task :=
  match read_title fields (title t) with
  | None => inl (schema_failure "title" "Path `title` is required.")
  | Some new_title =>
      match read_status fields (status t) with
      | None => inl (schema_failure "status" "`status` is not a valid enum value.")
      | Some new_status =>
          match read_description fields (description t) with
          | None => inl (schema_failure "description" "Cast to string failed.")
          | Some new_description =>
              inr (mkTask (id t) new_title new_description new_status
                     (createdAt t))
          end
      end
  end.

(** Modelled from the spec: the store is missing; it is a sequence of
    Tasks, each found, replaced and removed by its identifier. *)
Fixpoint lookup (ts : list Task) (i : jsstring) : option Task :=
  match ts with
  | [] => None
  | t :: ts' => if eqb (id t) i then Some t else lookup ts' i
  end.

(** Modelled from the spec: the store is missing; see [lookup]. *)
Fixpoint replace (ts : list Task) (t' : Task) : list Task :=
  match ts with
  | [] => []
  | t :: ts' => if eqb (id t) (id t') then t' :: ts' else t :: replace ts' t'
  end.

(** Modelled from the spec: the store is missing; see [lookup]. *)
Fixpoint remove (ts : list Task) (i : jsstring) : list Task :=
  match ts with
  | [] => []
  | t :: ts' => if eqb (id t) i then ts' else t :: remove ts' i
  end.

Section Step.

(** The identifier and the time the store gives to the next Task. *)
Variable generate_id : list Task -> jsstring.
Variable now : list Task -> float.

(** Modelled from the spec: the five calls of the missing
    [models/task.js]; create(fields) gives a Task or a schema failure; find() the sequence of Tasks; findById, findByIdAndUpdate and
    findByIdAndDelete a Task or null. *)
Definition step (call : StoreCall) (ts : list Task) : Settled * list Task :=
  match call with
  | Task_create fields =>
      match apply_update
              (mkTask (generate_id ts) (lit "") None pending (now ts))
              fields with
      | inl failure => (Rejected failure, ts)
      | inr t =>
          if eqb (trim (title t)) (lit "")
          then (Rejected (schema_failure "title" "Path `title` is required."), ts)
          else (Fulfilled (task_json t), ts ++ [t])
      end
  | Task_find => (Fulfilled (JArr (map task_json ts)), ts)
  | Task_findById i =>
      match lookup ts i with
      | Some t => (Fulfilled (task_json t), ts)
      | None => (Fulfilled JNull, ts)
      end
  | Task_findByIdAndUpdate i fields =>
      match lookup ts i with
      | Some t =>
          match apply_update t fields with
          | inl failure => (Rejected failure, ts)
          | inr t' => (Fulfilled (task_json t'), replace ts t')
          end
      | None => (Fulfilled JNull, ts)
      end
  | Task_findByIdAndDelete i =>
      match lookup ts i with
      | Some t => (Fulfilled (task_json t), remove ts i)
      | None => (Fulfilled JNull, ts)
      end
  end.

End Step.

End Store.

(* ================================================================== *)
(** * Notions used in the statements and proofs *)

(** [at_head] holds of some suffix of [s]. *)
Fixpoint anywhere (at_head : jsstring -> bool) (s : jsstring) : bool :=
  at_head s ||
  match s with
  | [] => false
  | _ :: s' => anywhere at_head s'
  end.

(** The input after the first occurrence of [c]. *)
Fixpoint after (c : N) (s : jsstring) : option jsstring :=
  match s with
  | [] => None
  | x :: s' => if N.eqb x c then Some s' else after c s'
  end.

Fixpoint drop_word (s : jsstring) : jsstring :=
  match s with
  | [] => []
  | x :: s' => if is_word_char x then drop_word s' else s
  end.

(** What the second pattern matches at the head of [s], written directly:
    a [<], a code unit other than [>], and everything up to the next [>]. *)
Definition tag_end (s : jsstring) : option jsstring :=
  match s with
  | c :: x :: s' => if N.eqb c 60 && negb (N.eqb x 62) then after 62 s' else None
  | _ => None
  end.

(** What the third pattern matches at the head of [s]: a dollar sign and
    the longest run of word characters, at least one. *)
Definition operator_end (s : jsstring) : option jsstring :=
  match s with
  | c :: x :: s' =>
      if N.eqb c 36 && is_word_char x then Some (drop_word s') else None
  | _ => None
  end.

(** The input after [pre] when [s] begins with [pre], in any ASCII case
    when [ic] is set. *)
Fixpoint after_prefix (ic : bool) (pre s : jsstring) : option jsstring :=
  match pre with
  | [] => Some s
  | a :: pre' =>
      match s with
      | x :: s' => if char_match ic a x then after_prefix ic pre' s' else None
      | [] => None
      end
  end.

(** The input after the first closing tag, in any case. *)
Fixpoint find_close (s : jsstring) : option jsstring :=
  match after_prefix true (lit "</script>") s with
  | Some rest => Some rest
  | None =>
      match s with
      | [] => None
      | _ :: s' => find_close s'
      end
  end.

(** What the first pattern matches at the head of [s], written directly:
    [<script] in any case, not followed by a word character, and
    everything up to and including the first closing tag. *)
Definition script_end (s : jsstring) : option jsstring :=
  match after_prefix true (lit "<script") s with
  | Some r => if word_at (hd_error r) then None else find_close r
  | None => None
  end.

(** The longest run of code units accepted by [ok]: what follows it, and
    the code unit before what follows. *)
Fixpoint drop_run (ok : N -> bool) (s : jsstring) : jsstring :=
  match s with
  | x :: s' => if ok x then drop_run ok s' else s
  | [] => []
  end.

Fixpoint prev_run (ok : N -> bool) (prev : option N) (s : jsstring)
  : option N :=
  match s with
  | x :: s' => if ok x then prev_run ok (Some x) s' else prev
  | [] => prev
  end.

(** The parts of the first pattern: the class [[^<]], the group that is
    repeated, and the continuation that ends a match. *)
Definition not_lt (x : N) : bool := class_match true true (lit "<") x.

Definition group_re : regex :=
  rseq [ RNotAhead (rlit "</script>"); RChar 60;
         RStar (RClass true (lit "<")) ].

Definition k_end : cont := fun _ rest => Some rest.

Definition k_close : cont := rmatch true (RSeq (rlit "</script>") REmpty) k_end.

Definition is_some (A : Type) (o : option A) : bool :=
  match o with Some _ => true | None => false end.

(** A markup-tag-like substring, a dollar-prefixed token somewhere in [s]. *)
Definition has_tag (s : jsstring) : bool :=
  anywhere (fun t => is_some (tag_end t)) s.

Definition has_operator (s : jsstring) : bool :=
  anywhere (fun t => is_some (operator_end t)) s.

(** A greedy run of code units accepted by [ok], giving back one unit at a
    time while the continuation refuses. *)
Fixpoint greedy (ok : N -> bool) (k : cont) (prev : option N) (s : jsstring)
  : option jsstring :=
  match s with
  | x :: s' =>
      if ok x then
        match greedy ok k (Some x) s' with
        | Some e => Some e
        | None => k prev s
        end
      else k prev s
  | [] => k prev s
  end.

(** The loops of [sanitizeObject], named: its branch on one property value,
    its loop over the properties of an object and over the elements of an
    array. *)
Definition sanitize_value (v : JsValue) : JsValue :=
  match v with
  | JStr _ => sanitizeString v
  | JNull | JArr _ | JObj _ _ => sanitizeObject v
  | _ => v
  end.

Fixpoint sanitize_props (ps : list (jsstring * JsValue)) (sanitized : JsValue)
  : JsValue :=
  match ps with
  | [] => sanitized
  | (key, v) :: ps' =>
      if startsWith key (lit "$") then sanitize_props ps' sanitized
      else sanitize_props ps' (js_set sanitized key (sanitize_value v))
  end.

Fixpoint sanitize_elems (i : nat) (vs : list JsValue) (sanitized : JsValue)
  : JsValue :=
  match vs with
  | [] => sanitized
  | v :: vs' =>
      sanitize_elems (S i) vs' (js_set sanitized (index_key i) (sanitize_value v))
  end.

(** The field rules of a creation payload, and the message of each. *)
Inductive Rule : Type := TitleRule | StatusRule | DescriptionRule.

Definition rules : list Rule := [TitleRule; StatusRule; DescriptionRule].

(** The rules as the validator reads the fields, with [payload.title] and
    the like, which follow the prototype chain: [title] is a string and
    not empty after trimming; [status], when not [undefined], is a string
    among the two enumerated values; [description], when not [undefined],
    is a string.  [own_violated] below judges the rules on the own fields
    of the payload. *)
Definition violated (payload : JsValue) (r : Rule) : bool :=
  match r with
  | TitleRule =>
      match js_get payload (lit "title") with
      | JStr s => eqb (trim s) (lit "")
      | _ => true
      end
  | StatusRule =>
      match js_get payload (lit "status") with
      | JUndefined => false
      | JStr s => negb (eqb s (lit "pending") || eqb s (lit "completed"))
      | _ => true
      end
  | DescriptionRule =>
      match js_get payload (lit "description") with
      | JUndefined | JStr _ => false
      | _ => true
      end
  end.

Definition message (r : Rule) : jsstring :=
  match r with
  | TitleRule => lit "Title is required and must be a non-empty string"
  | StatusRule => lit "Status must be either 'pending' or 'completed'"
  | DescriptionRule => lit "Description must be a string"
  end.





Definition has_key (o : JsValue) (key : string) : bool :=
  existsb (eqb (lit key)) (map fst (own_props o)).

(** The reference format of an identifier: 24 hexadecimal digits. *)
Definition is_hex_digit (c : N) : bool :=
  ((48 <=? c) && (c <=? 57) || (65 <=? c) && (c <=? 70) ||
   (97 <=? c) && (c <=? 102))%N.

Definition is_hex24 (id : jsstring) : bool :=
  (List.length id =? 24) && forallb is_hex_digit id.

(** What an update may not touch, and the frame of an update of the Task
    with the identifier [i]: the same identifier and creation time, and
    every other Task as it was. *)
Definition created (t : Store.Task) : jsstring * float :=
  (Store.id t, Store.createdAt t).

Definition update_frame (i : jsstring) (t t' : Store.Task) : Prop :=
  Store.id t' = Store.id t /\
  Store.createdAt t' = Store.createdAt t /\
  (JsString.eqb (Store.id t) i = false -> t' = t).

Definition is_plain_object (v : JsValue) : Prop :=
  exists pr ps, v = JObj pr ps.

Definition is_suffix (t s : jsstring) : Prop := exists pre, s = pre ++ t.

(** Every match of [r] consumes a code unit that the pattern character [c]
    accepts: [c] stands in [r] outside any repetition or lookahead. *)
Fixpoint needs (c : N) (r : regex) : bool :=
  match r with
  | RChar a => N.eqb a c
  | RSeq r1 r2 => needs c r1 || needs c r2
  | _ => false
  end.

Definition starts_word (s : jsstring) : bool :=
  match s with
  | x :: _ => is_word_char x
  | [] => false
  end.

(** ** Notions of the properties of the sanitizer as a whole *)

(** [t] is [s] with some of its code units deleted. *)
Inductive Subsequence : jsstring -> jsstring -> Prop :=
| sub_nil : Subsequence [] []
| sub_keep (x : N) (t s : jsstring) :
    Subsequence t s -> Subsequence (x :: t) (x :: s)
| sub_drop (x : N) (t s : jsstring) :
    Subsequence t s -> Subsequence t (x :: s).

(** A string that holds no markup-tag-like substring and no
    dollar-prefixed token. *)
Definition clean_string (s : jsstring) : bool :=
  negb (has_tag s) && negb (has_operator s).

Definition operator_key (key : jsstring) : bool := startsWith key (lit "$").

(** Every string anywhere in [v] is clean and no key anywhere in [v]
    begins with [$]: in the own properties, in the elements, and in the
    prototype an assignment to [__proto__] has set. *)
Fixpoint deep_clean (v : JsValue) : bool :=
  match v with
  | JStr s => clean_string s
  | JArr elems => forallb deep_clean elems
  | JObj proto props =>
      match proto with
      | Some p => deep_clean p
      | None => true
      end &&
      forallb (fun kv => negb (operator_key (fst kv)) && deep_clean (snd kv))
        props
  | _ => true
  end.

Fixpoint distinct (keys : list jsstring) : bool :=
  match keys with
  | [] => true
  | k :: keys' => negb (existsb (JsString.eqb k) keys') && distinct keys'
  end.

Definition proto_key (key : jsstring) : bool :=
  JsString.eqb key (lit "__proto__").

(** No object anywhere in the own properties and elements of [v] has an own
    key [__proto__]. *)
Fixpoint no_proto_key (v : JsValue) : bool :=
  match v with
  | JArr elems => forallb no_proto_key elems
  | JObj _ props =>
      forallb (fun kv => negb (proto_key (fst kv)) && no_proto_key (snd kv))
        props
  | _ => true
  end.

(** The values the sanitizer has nothing to do on: clean strings, and
    objects with the default prototype whose keys are distinct, none
    beginning with [$], none [__proto__], and whose values are such values
    again; no array. *)
Fixpoint sanitized_form (v : JsValue) : bool :=
  match v with
  | JStr s => clean_string s
  | JArr _ => false
  | JObj proto props =>
      match proto with
      | Some _ => false
      | None => true
      end &&
      distinct (map fst props) &&
      forallb (fun kv => negb (operator_key (fst kv)) &&
                         negb (proto_key (fst kv)) &&
                         sanitized_form (snd kv))
        props
  | _ => true
  end.

(** The properties [sanitizeObject] copies, each with its sanitized value:
    those whose key does not begin with [$], in their order. *)
Definition kept_props (ps : list (jsstring * JsValue))
  : list (jsstring * JsValue) :=
  map (fun kv => (fst kv, sanitize_value (snd kv)))
    (filter (fun kv => negb (operator_key (fst kv))) ps).

(** The own property [key] of [o], and [undefined] when [o] has none:
    nothing is inherited.  No array and no string has an own property
    named like a field of a payload. *)
Definition own_field (o : JsValue) (key : jsstring) : JsValue :=
  match o with
  | JObj _ props =>
      match find_prop props key with
      | Some v => v
      | None => JUndefined
      end
  | _ => JUndefined
  end.

(** The field rules of a creation payload, judged on its own fields: a
    field that the payload does not have itself is absent. *)
Definition own_violated (payload : JsValue) (r : Rule) : bool :=
  match r with
  | TitleRule =>
      match own_field payload (lit "title") with
      | JStr s => JsString.eqb (trim s) (lit "")
      | _ => true
      end
  | StatusRule =>
      match own_field payload (lit "status") with
      | JUndefined => false
      | JStr s =>
          negb (JsString.eqb s (lit "pending")
                || JsString.eqb s (lit "completed"))
      | _ => true
      end
  | DescriptionRule =>
      match own_field payload (lit "description") with
      | JUndefined | JStr _ => false
      | _ => true
      end
  end.

Definition has_proto_key (v : JsValue) : bool :=
  existsb proto_key (map fst (own_props v)).

(** No array anywhere in the own properties of [v], nor [v] itself. *)
Fixpoint no_array (v : JsValue) : bool :=
  match v with
  | JArr _ => false
  | JObj _ props => forallb (fun kv => no_array (snd kv)) props
  | _ => true
  end.

(** Some property of [props] has the key [key] and a value with [P]. *)
Fixpoint some_prop (P : JsValue -> Prop) (key : jsstring)
    (props : list (jsstring * JsValue)) : Prop :=
  match props with
  | [] => False
  | (k, v) :: props' => (k = key /\ P v) \/ some_prop P key props'
  end.

(** [w] has the shape of [v], at every depth: a string for a string; for
    an object a plain object (default prototype) each of whose properties
    has the key of a property of [v] and, as value, a value of the shape of
    that property's value, and which has every key of [v] that does not
    begin with [$]; for an array an array of the same length, element by
    element; any other value is [v] itself. *)
Fixpoint same_shape (v w : JsValue) {struct v} : Prop :=
  match v with
  | JStr _ => is_string w = true
  | JArr elems =>
      match w with
      | JArr ws =>
          (fix all (vs ws : list JsValue) {struct vs} : Prop :=
             match vs, ws with
             | [], [] => True
             | v' :: vs', w' :: ws' => same_shape v' w' /\ all vs' ws'
             | _, _ => False
             end) elems ws
      | _ => False
      end
  | JObj _ props =>
      match w with
      | JObj None qs =>
          (forall key w', In (key, w') qs ->
                          some_prop (fun v' => same_shape v' w') key props) /\
          (forall key, In key (map fst props) -> operator_key key = false ->
                       In key (map fst qs))
      | _ => False
      end
  | _ => w = v
  end.

(** ** Notions of the properties of the routes *)

Definition accepted (mw : Request -> Outcome) (req : Request) : bool :=
  match mw req with
  | Next _ => true
  | _ => false
  end.

(** The calls of the Task model a request leads to: the one call of its
    route when the middleware of the route lets the request through, on
    the sanitized payload where the route has a payload. *)
Definition store_calls (ObjectId_isValid : jsstring -> bool) (m : Method)
    (req : Request) : list StoreCall :=
  match m with
  | POST =>
      if accepted validateTaskInput req
      then [Task_create (sanitizeObject (body req))]
      else []
  | GET => [Task_find]
  | GET_id =>
      if ObjectId_isValid (params_id req)
      then [Task_findById (params_id req)]
      else []
  | PUT_id =>
      if ObjectId_isValid (params_id req) && accepted validateTaskUpdate req
      then [Task_findByIdAndUpdate (params_id req) (sanitizeObject (body req))]
      else []
  | DELETE_id =>
      if ObjectId_isValid (params_id req)
      then [Task_findByIdAndDelete (params_id req)]
      else []
  end.

(** What a route answers when its call of the Task model is fulfilled
    with a task that is not falsy. *)
Definition success (m : Method) (task : JsValue) : Response :=
  match m with
  | POST => mkResponse (JNum 201) task
  | DELETE_id => mkResponse (JNum 200) (obj [("message", str "Task deleted")])
  | _ => mkResponse (JNum 200) task
  end.

(** The names by which [errorHandler] knows a failure. *)
Definition named (err : JsValue) (name : string) : bool :=
  strict_eq_str (js_get err (lit "name")) (lit name).

(** No name and no code by which [errorHandler] knows a failure. *)
Definition unclassified (err : JsValue) : bool :=
  negb (named err "ValidationError") && negb (named err "CastError") &&
  negb (strict_eq_num (js_get err (lit "code")) 11000) &&
  negb (named err "MongoNetworkError" || named err "MongoTimeoutError").

(** The check of [res.status] in Express 5: a number that is an integer
    from 100 to 999.  For a number in that range, adding and subtracting
    2^52 gives the number back exactly when it is an integer. *)
Definition status_code_ok (code : JsValue) : bool :=
  match code with
  | JNum x =>
      (PrimFloat.leb 100 x && PrimFloat.leb x 999 &&
       PrimFloat.eqb (x + 4503599627370496 - 4503599627370496) x)%float
  | _ => false
  end.


(* ================================================================== *)
(** * Strings and the matcher *)

#[local] Arguments N.eqb : simpl never.
#[local] Arguments N.leb : simpl never.

Lemma eqb_eq (a b : jsstring) : JsString.eqb a b = true <-> a = b.
Proof.
  revert b; induction a as [|x a IH]; intros [|y b]; simpl; split;
    try congruence; try reflexivity.
  - intros H. apply andb_prop in H as [Hx Hab].
    apply N.eqb_eq in Hx. apply IH in Hab. congruence.
  - intros H. injection H as -> ->. rewrite N.eqb_refl. simpl. now apply IH.
Qed.

Lemma eqb_refl (a : jsstring) : JsString.eqb a a = true.
Proof. now apply eqb_eq. Qed.

Lemma eqb_neq (a b : jsstring) : JsString.eqb a b = false <-> a <> b.
Proof.
  split.
  - intros H E. apply eqb_eq in E. congruence.
  - intros H. destruct (JsString.eqb a b) eqn:E; [|reflexivity].
    apply eqb_eq in E. contradiction.
Qed.

Lemma is_suffix_refl (s : jsstring) : is_suffix s s.
Proof. now exists []. Qed.

Lemma is_suffix_cons (x : N) (t s : jsstring) :
  is_suffix t s -> is_suffix t (x :: s).
Proof. intros [pre ->]. now exists (x :: pre). Qed.

Lemma is_suffix_trans (u t s : jsstring) :
  is_suffix u t -> is_suffix t s -> is_suffix u s.
Proof.
  intros [p1 ->] [p2 ->]. exists (p2 ++ p1). now rewrite app_assoc.
Qed.

Lemma is_suffix_In (x : N) (t s : jsstring) :
  is_suffix t s -> In x t -> In x s.
Proof. intros [pre ->] H. apply in_or_app. now right. Qed.

(** The matcher hands to its continuation a suffix of its input. *)
Lemma star_loop_suffix (body : cont -> cont) :
  (forall k p s e, body k p s = Some e ->
     exists p' s', is_suffix s' s /\ k p' s' = Some e) ->
  forall k n p s e, star_loop body k n p s = Some e ->
    exists p' s', is_suffix s' s /\ k p' s' = Some e.
Proof.
  intros Hbody k n. induction n as [|n IH]; intros p s e H; simpl in H.
  - exists p, s. split; [apply is_suffix_refl | exact H].
  - destruct (body _ p s) as [e'|] eqn:Hb.
    + injection H as ->.
      apply Hbody in Hb as (p' & s' & Hsuf & Hk).
      destruct (List.length s' <? List.length s); [|discriminate].
      apply IH in Hk as (p'' & s'' & Hsuf' & Hk).
      exists p'', s''. split; [eapply is_suffix_trans; eassumption | exact Hk].
    + exists p, s. split; [apply is_suffix_refl | exact H].
Qed.

Lemma one_suffix (ok : N -> bool) (k : cont) (s e : jsstring) :
  one ok k s = Some e ->
  exists x s', s = x :: s' /\ ok x = true /\ k (Some x) s' = Some e.
Proof.
  destruct s as [|x s']; simpl; [discriminate|].
  destruct (ok x) eqn:E; [|discriminate]. intros H. now exists x, s'.
Qed.

Lemma rmatch_suffix (ic : bool) (r : regex) :
  forall k p s e, rmatch ic r k p s = Some e ->
    exists p' s', is_suffix s' s /\ k p' s' = Some e.
Proof.
  induction r as [|c|neg cs| |r1 IH1 r2 IH2|r1 IH1|r1 IH1|];
    intros k p s e H; simpl in H.
  - exists p, s. split; [apply is_suffix_refl | exact H].
  - apply one_suffix in H as (x & s' & -> & _ & H).
    exists (Some x), s'. split; [apply is_suffix_cons, is_suffix_refl | exact H].
  - apply one_suffix in H as (x & s' & -> & _ & H).
    exists (Some x), s'. split; [apply is_suffix_cons, is_suffix_refl | exact H].
  - apply one_suffix in H as (x & s' & -> & _ & H).
    exists (Some x), s'. split; [apply is_suffix_cons, is_suffix_refl | exact H].
  - apply IH1 in H as (p1 & s1 & Hs1 & H).
    apply IH2 in H as (p2 & s2 & Hs2 & H).
    exists p2, s2. split; [eapply is_suffix_trans; eassumption | exact H].
  - eapply star_loop_suffix; [exact IH1 | exact H].
  - destruct (rmatch ic r1 _ p s); [discriminate|].
    exists p, s. split; [apply is_suffix_refl | exact H].
  - destruct (xorb _ _); [|discriminate].
    exists p, s. split; [apply is_suffix_refl | exact H].
Qed.

(** A starred single code unit is a greedy run: the bound on the number
    of iterations is never reached before the input ends. *)
Lemma star_loop_one (body : cont -> cont) (ok : N -> bool) :
  (forall k p s, body k p s = one ok k s) ->
  forall k n p s, List.length s <= n ->
    star_loop body k n p s = greedy ok k p s.
Proof.
  intros Hbody k n. induction n as [|n IH]; intros p s Hn.
  - destruct s; [reflexivity | simpl in Hn; lia].
  - simpl. rewrite Hbody. destruct s as [|x s']; [reflexivity|].
    simpl one. simpl greedy. destruct (ok x); [|reflexivity].
    assert (Hlt : (List.length s' <? S (List.length s')) = true)
      by (apply Nat.ltb_lt; lia).
    rewrite IH by (simpl in Hn; lia). rewrite Hlt. reflexivity.
Qed.

Lemma rmatch_needs (ic : bool) (c : N) (r : regex) :
  needs c r = true ->
  forall k p s e, rmatch ic r k p s = Some e ->
    exists x, In x s /\ char_match ic c x = true.
Proof.
  induction r as [|a|neg cs| |r1 IH1 r2 IH2|r1 IH1|r1 IH1|];
    simpl; try discriminate; intros Hn k p s e H.
  - apply N.eqb_eq in Hn as ->.
    apply one_suffix in H as (x & s' & -> & Hx & _).
    exists x. split; [now left | exact Hx].
  - apply orb_prop in Hn as [Hn|Hn].
    + eapply IH1; eassumption.
    + apply rmatch_suffix in H as (p1 & s1 & Hs1 & H).
      destruct (IH2 Hn _ _ _ _ H) as (x & Hx & Hc).
      exists x. split; [eapply is_suffix_In; eassumption | exact Hc].
Qed.

Lemma after_None (c : N) (s : jsstring) : after c s = None <-> ~ In c s.
Proof.
  induction s as [|x s IH]; simpl.
  - split; [intros _ [] | reflexivity].
  - destruct (N.eqb x c) eqn:E.
    + apply N.eqb_eq in E. split; [discriminate | intros H; exfalso; auto].
    + apply N.eqb_neq in E. rewrite IH. tauto.
Qed.

Lemma after_length (c : N) (s rest : jsstring) :
  after c s = Some rest -> List.length rest < List.length s.
Proof.
  revert rest; induction s as [|x s IH]; simpl; intros rest H; [discriminate|].
  destruct (N.eqb x c).
  - injection H as ->. lia.
  - apply IH in H. lia.
Qed.

Lemma after_suffix (c : N) (s rest : jsstring) :
  after c s = Some rest -> is_suffix rest s.
Proof.
  revert rest; induction s as [|x s IH]; simpl; intros rest H; [discriminate|].
  destruct (N.eqb x c).
  - injection H as ->. apply is_suffix_cons, is_suffix_refl.
  - apply is_suffix_cons. now apply IH.
Qed.

Lemma drop_word_suffix (s : jsstring) : is_suffix (drop_word s) s.
Proof.
  induction s as [|x s IH]; simpl; [apply is_suffix_refl|].
  destruct (is_word_char x); [apply is_suffix_cons, IH | apply is_suffix_refl].
Qed.

Lemma drop_word_starts (s : jsstring) : starts_word (drop_word s) = false.
Proof.
  induction s as [|x s IH]; simpl; [reflexivity|].
  destruct (is_word_char x) eqn:E; [exact IH | simpl; exact E].
Qed.

Lemma is_suffix_length (t s : jsstring) :
  is_suffix t s -> List.length t <= List.length s.
Proof. intros [pre ->]. rewrite length_app. lia. Qed.

(** ** The second and third pattern, run by the matcher, are [tag_end] and
    [operator_end] *)

Lemma greedy_not_gt (p : option N) (s : jsstring) :
  greedy (class_match false true (lit ">"))
    (rmatch false (RSeq (RChar 62) REmpty) (fun _ rest => Some rest)) p s
  = after 62 s.
Proof.
  revert p; induction s as [|x s IH]; intros p; [reflexivity|].
  simpl greedy. rewrite IH. simpl after.
  unfold class_match, char_match. simpl.
  rewrite (N.eqb_sym 62 x). rewrite orb_false_r.
  destruct (N.eqb x 62) eqn:E; simpl; [reflexivity|].
  destruct (after 62 s); reflexivity.
Qed.

Lemma exec_tag_re (p : option N) (s : jsstring) :
  exec false tag_re p s = tag_end s.
Proof.
  unfold exec, tag_re, RPlus, rseq. simpl fold_right.
  destruct s as [|c [|x s]]; simpl.
  - reflexivity.
  - unfold char_match. destruct (N.eqb 60 c); reflexivity.
  - rewrite (N.eqb_sym 60 c).
    destruct (N.eqb c 60); [|reflexivity]. simpl.
    rewrite (N.eqb_sym 62 x), orb_false_r.
    destruct (N.eqb x 62); simpl; [reflexivity|].
    rewrite (@star_loop_one _ (class_match false true (lit ">")))
      by (reflexivity || lia).
    apply greedy_not_gt.
Qed.

Lemma greedy_word (p : option N) (s : jsstring) :
  greedy is_word_char (rmatch false REmpty (fun _ rest => Some rest)) p s
  = Some (drop_word s).
Proof.
  revert p; induction s as [|x s IH]; intros p; [reflexivity|].
  simpl. rewrite IH. destruct (is_word_char x); reflexivity.
Qed.

Lemma exec_operator_re (p : option N) (s : jsstring) :
  exec false operator_re p s = operator_end s.
Proof.
  unfold exec, operator_re, RPlus, rseq. simpl fold_right.
  destruct s as [|c [|x s]]; simpl.
  - reflexivity.
  - unfold char_match. destruct (N.eqb 36 c); reflexivity.
  - rewrite (N.eqb_sym 36 c).
    destruct (N.eqb c 36); [|reflexivity]. simpl.
    destruct (is_word_char x); [|reflexivity].
    rewrite (@star_loop_one _ is_word_char) by (reflexivity || lia).
    apply greedy_word.
Qed.

(** ** The first pattern matches only where a tag starts *)

Lemma canonicalize_60 (x : N) : char_match true 60 x = true -> x = 60%N.
Proof.
  unfold char_match, canonicalize. simpl.
  destruct (N.leb_spec 97 x), (N.leb_spec x 122); simpl;
    intros Heq; apply N.eqb_eq in Heq; lia.
Qed.

Lemma canonicalize_62 (x : N) : char_match true 62 x = true -> x = 62%N.
Proof.
  unfold char_match, canonicalize. simpl.
  destruct (N.leb_spec 97 x), (N.leb_spec x 122); simpl;
    intros Heq; apply N.eqb_eq in Heq; lia.
Qed.

Lemma canonicalize_115 (x : N) : char_match true 115 x = true -> x <> 62%N.
Proof.
  unfold char_match, canonicalize. simpl.
  destruct (N.leb_spec 97 x), (N.leb_spec x 122); simpl;
    intros Heq; apply N.eqb_eq in Heq; lia.
Qed.

Lemma script_re_shape :
  exists r1 r2,
    script_re = RSeq (RSeq (RChar 60) (RSeq (RChar 115) r1)) r2 /\
    needs 62 r2 = true.
Proof. unfold script_re. do 2 eexists. split; reflexivity. Qed.

Lemma exec_script_re (p : option N) (s e : jsstring) :
  exec true script_re p s = Some e -> is_some (tag_end s) = true.
Proof.
  destruct script_re_shape as (r1 & r2 & -> & Hneeds).
  unfold exec. simpl. intros H.
  apply one_suffix in H as (x & s1 & -> & Hx & H).
  apply one_suffix in H as (y & s2 & -> & Hy & H).
  apply canonicalize_60 in Hx as ->. apply canonicalize_115 in Hy.
  apply rmatch_suffix in H as (p1 & s3 & Hs3 & H).
  destruct (@rmatch_needs true 62 r2 Hneeds _ _ _ _ H) as (z & Hz & Hc).
  apply canonicalize_62 in Hc as ->.
  unfold tag_end. apply N.eqb_neq in Hy. rewrite N.eqb_refl, Hy. simpl.
  destruct (after 62 s2) eqn:E; [reflexivity|].
  apply after_None in E. exfalso. apply E.
  eapply is_suffix_In; eassumption.
Qed.

(** ** Global replacement *)

Section Replace.

Variable f : option N -> jsstring -> option jsstring.

Lemma replace_go_In (x : N) (s : jsstring) :
  forall k p, In x (replace_go f k p s) -> In x s.
Proof.
  induction s as [|c s IH]; intros k p H; cbn [replace_go] in H.
  - exact H.
  - destruct k as [|k].
    + destruct (f p (c :: s)) as [rest|].
      * destruct (List.length (c :: s) - List.length rest).
        -- destruct H as [<-|H]; [now left | right; eapply IH; exact H].
        -- right; eapply IH; exact H.
      * destruct H as [<-|H]; [now left | right; eapply IH; exact H].
    + right; eapply IH; exact H.
Qed.

(** Where the pattern matches nowhere, nothing is replaced. *)
Lemma replace_go_id (at_head : jsstring -> bool) :
  (forall p t, at_head t = false -> f p t = None) ->
  forall s p, anywhere at_head s = false -> replace_go f 0 p s = s.
Proof.
  intros Hf. induction s as [|c s IH]; intros p H; [reflexivity|].
  simpl in H. apply orb_false_elim in H as [Hh Ht].
  cbn [replace_go]. rewrite (Hf _ _ Hh). now rewrite IH.
Qed.

Variable g : jsstring -> option jsstring.
Hypothesis f_is_g : forall p s, f p s = g s.

Lemma replace_go_prev (k : nat) (p p' : option N) (s : jsstring) :
  replace_go f k p s = replace_go f k p' s.
Proof. destruct s; cbn [replace_go]; rewrite ?f_is_g; reflexivity. Qed.

Lemma replace_go_skip (n : nat) :
  forall s p, replace_go f n p s = replace_go f 0 None (skipn n s).
Proof.
  induction n as [|n IH]; intros s p.
  - simpl skipn. apply replace_go_prev.
  - destruct s as [|c s]; [reflexivity|]. cbn [replace_go skipn]. apply IH.
Qed.

(** After a match the search goes on in what the match left. *)
Lemma replace_go_match (p : option N) (s rest : jsstring) :
  g s = Some rest -> is_suffix rest s -> List.length rest < List.length s ->
  replace_go f 0 p s = replace_go f 0 None rest.
Proof.
  intros Hg [pre Hs] Hlen. destruct s as [|c s]; [simpl in Hlen; lia|].
  cbn [replace_go]. rewrite f_is_g, Hg.
  destruct pre as [|c' pre].
  - simpl in Hs. subst rest. lia.
  - injection Hs as <- ->.
    assert (E : List.length (c :: pre ++ rest) - List.length rest
                = S (List.length pre))
      by (cbn [List.length]; rewrite length_app; lia).
    rewrite E. rewrite replace_go_skip. rewrite skipn_app, skipn_all, Nat.sub_diag.
    reflexivity.
Qed.

(** A code unit that starts no match stays at the head. *)
Lemma replace_go_head (p : option N) (c : N) (s : jsstring) :
  g (c :: s) = None ->
  replace_go f 0 p (c :: s) = c :: replace_go f 0 (Some c) s.
Proof. intros Hg. cbn [replace_go]. now rewrite f_is_g, Hg. Qed.

End Replace.

(** ** What the three replacements leave *)

Lemma has_tag_cons (c : N) (s : jsstring) :
  has_tag (c :: s) = is_some (tag_end (c :: s)) || has_tag s.
Proof. reflexivity. Qed.

Lemma has_operator_cons (c : N) (s : jsstring) :
  has_operator (c :: s) = is_some (operator_end (c :: s)) || has_operator s.
Proof. reflexivity. Qed.

Lemma tag_end_Some (s rest : jsstring) :
  tag_end s = Some rest ->
  is_suffix rest s /\ List.length rest < List.length s.
Proof.
  destruct s as [|c [|x s]]; simpl; try discriminate.
  destruct (_ && _); [|discriminate]. intros H. split.
  - apply is_suffix_cons, is_suffix_cons. eapply after_suffix; eassumption.
  - apply after_length in H. simpl. lia.
Qed.

Lemma operator_end_Some (s rest : jsstring) :
  operator_end s = Some rest ->
  is_suffix rest s /\ List.length rest < List.length s /\
  starts_word rest = false.
Proof.
  destruct s as [|c [|x s]]; simpl; try discriminate.
  destruct (_ && _); [|discriminate]. intros H. injection H as <-.
  split; [|split].
  - apply is_suffix_cons, is_suffix_cons, drop_word_suffix.
  - pose proof (is_suffix_length (drop_word_suffix s)). simpl. lia.
  - apply drop_word_starts.
Qed.

Lemma operator_end_None (c : N) (s : jsstring) :
  operator_end (c :: s) = None <-> N.eqb c 36 && starts_word s = false.
Proof.
  destruct s as [|x s]; simpl.
  - rewrite andb_false_r. tauto.
  - destruct (N.eqb c 36 && is_word_char x); split; congruence.
Qed.

(** A [<] that starts no tag still starts none after a replacement whose
    matches never start with [>]. *)
Lemma tag_end_kept (f : option N -> jsstring -> option jsstring)
    (c : N) (s : jsstring) (p : option N) :
  (forall q t, f q (62%N :: t) = None) ->
  tag_end (c :: s) = None -> tag_end (c :: replace_go f 0 p s) = None.
Proof.
  intros Hf H. destruct s as [|x s]; [reflexivity|].
  remember (replace_go f 0 p (x :: s)) as out eqn:Eo.
  assert (Hin : In 62%N out -> In 62%N (x :: s)).
  { subst out. apply replace_go_In. }
  assert (Hhead : N.eqb x 62 = true -> exists o, out = 62%N :: o).
  { intros E. apply N.eqb_eq in E. subst x out. cbn [replace_go].
    rewrite Hf. eauto. }
  clear Eo. revert H. unfold tag_end.
  destruct out as [|y o]; [reflexivity|].
  destruct (N.eqb c 60); [|reflexivity]. cbn [andb].
  destruct (N.eqb x 62) eqn:Ex; cbn [negb].
  - intros _. destruct (Hhead eq_refl) as [o' E]. injection E as -> _.
    rewrite N.eqb_refl. reflexivity.
  - intros H. apply after_None in H.
    destruct (negb (N.eqb y 62)); [|reflexivity].
    apply after_None. intros Hi.
    destruct (Hin (or_intror Hi)) as [Hx|Hi'].
    + subst x. rewrite N.eqb_refl in Ex. discriminate.
    + now apply H.
Qed.

Lemma exec_tag_re_gt (q : option N) (t : jsstring) :
  exec false tag_re q (62%N :: t) = None.
Proof. rewrite exec_tag_re. destruct t; reflexivity. Qed.

Lemma exec_operator_re_gt (q : option N) (t : jsstring) :
  exec false operator_re q (62%N :: t) = None.
Proof. rewrite exec_operator_re. destruct t; reflexivity. Qed.

Lemma replace_tag_no_tag (s : jsstring) :
  forall k p, has_tag (replace_go (exec false tag_re) k p s) = false.
Proof.
  induction s as [|c s IH]; intros k p; [reflexivity|].
  cbn [replace_go]. destruct k as [|k]; [|apply IH].
  rewrite exec_tag_re. destruct (tag_end (c :: s)) as [rest|] eqn:Ht.
  - apply tag_end_Some in Ht as [_ Hlen].
    destruct (List.length (c :: s) - List.length rest) eqn:El; [lia|].
    apply IH.
  - rewrite has_tag_cons, IH.
    rewrite tag_end_kept; [reflexivity | apply exec_tag_re_gt | exact Ht].
Qed.

Lemma replace_operator_keeps_no_tag (s : jsstring) :
  has_tag s = false ->
  forall k p, has_tag (replace_go (exec false operator_re) k p s) = false.
Proof.
  induction s as [|c s IH]; intros H k p; [reflexivity|].
  rewrite has_tag_cons in H. apply orb_false_elim in H as [Hh Ht].
  assert (Hkept : has_tag (c :: replace_go (exec false operator_re) 0 (Some c) s)
                  = false).
  { rewrite has_tag_cons, (IH Ht). destruct (tag_end (c :: s)) eqn:E;
      [discriminate|].
    rewrite tag_end_kept;
      [reflexivity | apply exec_operator_re_gt | exact E]. }
  cbn [replace_go]. destruct k as [|k]; [|now apply IH].
  destruct (exec false operator_re p (c :: s)); [|exact Hkept].
  destruct (List.length (c :: s) - List.length j); [exact Hkept | now apply IH].
Qed.

Lemma replace_operator_starts (n : nat) :
  forall s p, List.length s <= n -> starts_word s = false ->
    starts_word (replace_go (exec false operator_re) 0 p s) = false.
Proof.
  induction n as [|n IH]; intros s p Hn Hs.
  - destruct s; [reflexivity | simpl in Hn; lia].
  - destruct s as [|x s]; [reflexivity|].
    destruct (operator_end (x :: s)) as [rest|] eqn:E.
    + pose proof (operator_end_Some _ E) as (Hsuf & Hlen & Hw).
      rewrite (@replace_go_match _ _ exec_operator_re p _ _ E Hsuf Hlen).
      apply IH; [simpl in *; lia | exact Hw].
    + rewrite (@replace_go_head _ _ exec_operator_re p _ _ E). exact Hs.
Qed.

Lemma replace_operator_no_operator (s : jsstring) :
  forall k p,
    has_operator (replace_go (exec false operator_re) k p s) = false.
Proof.
  induction s as [|c s IH]; intros k p; [reflexivity|].
  cbn [replace_go]. destruct k as [|k]; [|apply IH].
  rewrite exec_operator_re.
  destruct (operator_end (c :: s)) as [rest|] eqn:E.
  - apply operator_end_Some in E as (_ & Hlen & _).
    destruct (List.length (c :: s) - List.length rest) eqn:El; [lia|].
    apply IH.
  - rewrite has_operator_cons, IH, orb_false_r.
    apply operator_end_None in E.
    destruct (operator_end (c :: _)) eqn:E'; [|reflexivity].
    assert (Hn : operator_end
                   (c :: replace_go (exec false operator_re) 0 (Some c) s)
                 = None).
    { apply operator_end_None. apply andb_false_iff in E as [E|E].
      - now rewrite E.
      - rewrite (@replace_operator_starts (List.length s)) by (auto; lia).
        apply andb_false_r. }
    congruence.
Qed.

(** ** The sanitizer on strings *)

Lemma sanitized_no_tag (s : jsstring) : has_tag (sanitized_text s) = false.
Proof.
  unfold sanitized_text, replace_all.
  apply replace_operator_keeps_no_tag, replace_tag_no_tag.
Qed.

Lemma sanitized_no_operator (s : jsstring) :
  has_operator (sanitized_text s) = false.
Proof. unfold sanitized_text, replace_all. apply replace_operator_no_operator. Qed.

(** A string without tag and without operator token is left as it is. *)
Lemma sanitized_text_fixed (s : jsstring) :
  has_tag s = false -> has_operator s = false -> sanitized_text s = s.
Proof.
  intros Ht Ho. unfold sanitized_text, replace_all.
  rewrite (@replace_go_id (exec true script_re)
             (fun t => is_some (tag_end t))); [| |exact Ht].
  - rewrite (@replace_go_id (exec false tag_re)
               (fun t => is_some (tag_end t))); [| |exact Ht].
    + apply (@replace_go_id (exec false operator_re)
               (fun t => is_some (operator_end t))); [|exact Ho].
      intros p t H. rewrite exec_operator_re.
      destruct (operator_end t); [discriminate | reflexivity].
    + intros p t H. rewrite exec_tag_re.
      destruct (tag_end t); [discriminate | reflexivity].
  - intros p t H. destruct (exec true script_re p t) eqn:E; [|reflexivity].
    apply exec_script_re in E. congruence.
Qed.

Lemma startsWith_In (x : N) (pre : jsstring) :
  forall s, startsWith s pre = true -> In x pre -> In x s.
Proof.
  induction pre as [|a pre IH]; intros s H Hin; [destruct Hin|].
  destruct s as [|b s]; simpl in H; [discriminate|].
  apply andb_prop in H as [Hab H]. apply N.eqb_eq in Hab as <-.
  destruct Hin as [->|Hin]; [now left | right; now apply IH].
Qed.

(** A substring that has the form of a tag is a tag. *)
Lemma includes_has_tag (y : N) (tok s : jsstring) :
  y <> 62%N -> In 62%N tok ->
  includes s (60%N :: y :: tok) = true -> has_tag s = true.
Proof.
  intros Hy Hin. induction s as [|c s IH]; [discriminate|].
  intros H. rewrite has_tag_cons. apply orb_true_iff.
  change (includes (c :: s) (60%N :: y :: tok))
    with (startsWith (c :: s) (60%N :: y :: tok)
          || includes s (60%N :: y :: tok)) in H.
  apply orb_prop in H as [H|H]; [left | right; now apply IH].
  simpl in H. destruct s as [|d s]; [now rewrite andb_false_r in H|].
  apply andb_prop in H as [Hc H]. apply andb_prop in H as [Hd H].
  apply N.eqb_eq in Hc as <-. apply N.eqb_eq in Hd as <-.
  unfold tag_end. rewrite N.eqb_refl. apply N.eqb_neq in Hy. rewrite Hy.
  simpl. destruct (after 62 s) eqn:E; [reflexivity|].
  apply after_None in E. exfalso. apply E. eapply startsWith_In; eassumption.
Qed.

(** C4. Whatever the string (and so for every string that contains a
    script block), the string that [sanitizeString] returns contains
    neither the opening tag token [<script>] nor the closing tag token
    [</script>] as a substring. *)
Theorem sanitizeString_removes_script_tokens :
  forall s : jsstring,
    exists out,
      sanitizeString (JStr s) = JStr out /\
      includes out (lit "<script>") = false /\
      includes out (lit "</script>") = false.
Proof.
  intros s. exists (sanitized_text s). split; [reflexivity|].
  pose proof (sanitized_no_tag s) as Ht.
  split.
  - destruct (includes _ _) eqn:E; [|reflexivity].
    apply (@includes_has_tag 115%N (lit "cript>")) in E;
      [congruence | lia | simpl; tauto].
  - destruct (includes _ _) eqn:E; [|reflexivity].
    apply (@includes_has_tag 47%N (lit "script>")) in E;
      [congruence | lia | simpl; tauto].
Qed.

(** C9. [sanitizeString] is idempotent: sanitizing what it returned changes
    nothing, for a string and for any other value. *)
Theorem sanitizeString_idempotent :
  forall v : JsValue, sanitizeString (sanitizeString v) = sanitizeString v.
Proof.
  intros [| | | |s| |]; try reflexivity.
  simpl. f_equal.
  apply sanitized_text_fixed;
    [apply sanitized_no_tag | apply sanitized_no_operator].
Qed.

(** The bound on the iterations of a star never cuts a match short: any
    bound from the length of the input on gives the same result. *)
Lemma rmatch_fails (ic : bool) (r : regex) (k : cont) (p : option N)
    (s : jsstring) :
  (forall p' s', k p' s' = None) -> rmatch ic r k p s = None.
Proof.
  intros Hk. destruct (rmatch ic r k p s) eqn:E; [|reflexivity].
  apply rmatch_suffix in E as (p' & s' & _ & E). now rewrite Hk in E.
Qed.

Lemma star_loop_ext (body : cont -> cont) :
  (forall k1 k2 p s,
     (forall p' s', is_suffix s' s -> k1 p' s' = k2 p' s') ->
     body k1 p s = body k2 p s) ->
  forall n k1 k2 p s,
    (forall p' s', is_suffix s' s -> k1 p' s' = k2 p' s') ->
    star_loop body k1 n p s = star_loop body k2 n p s.
Proof.
  intros Hbody n. induction n as [|n IH]; intros k1 k2 p s Hk; simpl.
  - apply Hk, is_suffix_refl.
  - rewrite (Hk p s (is_suffix_refl s)).
    rewrite (Hbody _
               (fun p' s' =>
                  if List.length s' <? List.length s
                  then star_loop body k2 n p' s' else None)); [reflexivity|].
    intros p' s' Hs. destruct (List.length s' <? List.length s); [|reflexivity].
    apply IH. intros p'' s'' Hs'. apply Hk. eapply is_suffix_trans; eassumption.
Qed.

Lemma rmatch_ext (ic : bool) (r : regex) :
  forall k1 k2 p s,
    (forall p' s', is_suffix s' s -> k1 p' s' = k2 p' s') ->
    rmatch ic r k1 p s = rmatch ic r k2 p s.
Proof.
  induction r as [|c|neg cs| |r1 IH1 r2 IH2|r1 IH1|r1 IH1|];
    intros k1 k2 p s Hk; simpl.
  - apply Hk, is_suffix_refl.
  - destruct s as [|x s]; simpl; [reflexivity|].
    destruct (char_match ic c x); [|reflexivity].
    apply Hk, is_suffix_cons, is_suffix_refl.
  - destruct s as [|x s]; simpl; [reflexivity|].
    destruct (class_match ic neg cs x); [|reflexivity].
    apply Hk, is_suffix_cons, is_suffix_refl.
  - destruct s as [|x s]; simpl; [reflexivity|].
    destruct (is_word_char x); [|reflexivity].
    apply Hk, is_suffix_cons, is_suffix_refl.
  - apply IH1. intros p' s' Hs. apply IH2. intros p'' s'' Hs'.
    apply Hk. eapply is_suffix_trans; eassumption.
  - apply star_loop_ext; [exact IH1 | exact Hk].
  - rewrite (Hk p s (is_suffix_refl s)). reflexivity.
  - rewrite (Hk p s (is_suffix_refl s)). reflexivity.
Qed.

Lemma star_loop_fuel (ic : bool) (r : regex) (k : cont) :
  forall n m p s, List.length s <= n -> List.length s <= m ->
    star_loop (rmatch ic r) k n p s = star_loop (rmatch ic r) k m p s.
Proof.
  assert (Hnil : forall m p,
            star_loop (rmatch ic r) k m p [] = k p []).
  { intros [|m] p; simpl; [reflexivity|].
    rewrite rmatch_fails; [reflexivity|]. intros p' s'.
    now replace (List.length s' <? 0) with false by (symmetry; apply Nat.ltb_ge; lia). }
  induction n as [|n IH]; intros m p s Hn Hm.
  - destruct s; [|simpl in Hn; lia]. now rewrite Hnil.
  - destruct m as [|m].
    + destruct s; [|simpl in Hm; lia]. now rewrite !Hnil.
    + simpl.
      rewrite (@rmatch_ext ic r _
                 (fun p' s' =>
                    if List.length s' <? List.length s
                    then star_loop (rmatch ic r) k m p' s' else None));
        [reflexivity|].
      intros p' s' Hs. destruct (List.length s' <? List.length s) eqn:E;
        [|reflexivity].
      apply Nat.ltb_lt in E. apply IH; lia.
Qed.

(** The strings of the unit tests. *)
Example sanitize_script_block :
  sanitized_text (lit "<script>alert('xss')</script>Test Task")
  = lit "Test Task".
Proof. vm_compute. reflexivity. Qed.

Example sanitize_markup :
  sanitized_text (lit "<b>Bold</b> Task") = lit "Bold Task".
Proof. vm_compute. reflexivity. Qed.

Example sanitize_operator :
  sanitized_text (lit "Test $where Task") = lit "Test  Task".
Proof. vm_compute. reflexivity. Qed.

(** The script pattern is case-insensitive, asks for a word boundary
    after [<script] and stops at the first closing tag. *)
Example sanitize_script_case :
  replace_all true script_re (lit "a<SCRIPT src=x>b<i>c</Script>d</script>e")
  = lit "ad</script>e".
Proof. vm_compute. reflexivity. Qed.

Example sanitize_script_boundary :
  replace_all true script_re (lit "<scripts>x</script>") = lit "<scripts>x</script>".
Proof. vm_compute. reflexivity. Qed.

(* ================================================================== *)
(** * The sanitizer on objects *)

Lemma sanitizeObject_obj (pr : option JsValue)
    (ps : list (jsstring * JsValue)) :
  sanitizeObject (JObj pr ps) = sanitize_props ps (JObj None []).
Proof.
  cbn [sanitizeObject]. generalize (JObj None []).
  induction ps as [|[key v] ps IH]; intros acc; [reflexivity|].
  cbn [sanitize_props]. destruct (startsWith key (lit "$")); apply IH.
Qed.

Lemma sanitizeObject_arr (elems : list JsValue) :
  sanitizeObject (JArr elems) = sanitize_elems 0 elems (JObj None []).
Proof.
  cbn [sanitizeObject]. generalize (JObj None []). generalize 0.
  induction elems as [|v vs IH]; intros i acc; [reflexivity|].
  cbn [sanitize_elems]. apply IH.
Qed.

Lemma js_set_plain (o : JsValue) (key : jsstring) (v : JsValue) :
  is_plain_object o -> is_plain_object (js_set o key v).
Proof.
  intros (pr & ps & ->). unfold js_set.
  destruct (JsString.eqb key _); [destruct (is_object_type v)|];
    do 2 eexists; reflexivity.
Qed.

Lemma sanitize_props_plain (ps : list (jsstring * JsValue)) :
  forall acc, is_plain_object acc -> is_plain_object (sanitize_props ps acc).
Proof.
  induction ps as [|[key v] ps IH]; intros acc H; [exact H|].
  cbn [sanitize_props]. destruct (startsWith key _); apply IH;
    [exact H | now apply js_set_plain].
Qed.

Lemma sanitize_elems_plain (vs : list JsValue) :
  forall i acc, is_plain_object acc ->
    is_plain_object (sanitize_elems i vs acc).
Proof.
  induction vs as [|v vs IH]; intros i acc H; [exact H|].
  cbn [sanitize_elems]. apply IH. now apply js_set_plain.
Qed.

Lemma sanitizeObject_nullish (v : JsValue) :
  is_nullish (sanitizeObject v) = is_nullish v.
Proof.
  destruct v as [| | | | |elems|pr ps]; try reflexivity.
  - rewrite sanitizeObject_arr.
    destruct (@sanitize_elems_plain elems 0 (JObj None []))
      as (pr' & ps' & ->); [do 2 eexists|]; reflexivity.
  - rewrite sanitizeObject_obj.
    destruct (@sanitize_props_plain ps (JObj None []))
      as (pr' & ps' & ->); [do 2 eexists|]; reflexivity.
Qed.

(** The sanitizer adds no key: an own key of the result is an own key of
    the input. *)
Lemma set_prop_keys (ps : list (jsstring * JsValue)) (key k : jsstring)
    (v : JsValue) :
  In k (map fst (set_prop ps key v)) -> k = key \/ In k (map fst ps).
Proof.
  induction ps as [|[k' w] ps IH]; simpl.
  - intros [<-|[]]. now left.
  - destruct (JsString.eqb k' key) eqn:E; simpl.
    + tauto.
    + intros [<-|H]; [tauto|]. destruct (IH H); tauto.
Qed.

Lemma js_set_keys (o : JsValue) (key k : jsstring) (v : JsValue) :
  is_plain_object o ->
  In k (map fst (own_props (js_set o key v))) ->
  k = key \/ In k (map fst (own_props o)).
Proof.
  intros (pr & ps & ->). unfold js_set.
  destruct (JsString.eqb key _); [destruct (is_object_type v)|]; simpl;
    try tauto.
  apply set_prop_keys.
Qed.

Lemma sanitize_props_keys (k : jsstring) (ps : list (jsstring * JsValue)) :
  forall acc, is_plain_object acc ->
    In k (map fst (own_props (sanitize_props ps acc))) ->
    In k (map fst ps) \/ In k (map fst (own_props acc)).
Proof.
  induction ps as [|[key v] ps IH]; intros acc Hacc H; [now right|].
  cbn [sanitize_props] in H. simpl map. destruct (startsWith key _).
  - destruct (IH _ Hacc H); [left; now right | now right].
  - destruct (IH _ (js_set_plain key (sanitize_value v) Hacc) H) as [H'|H'];
      [left; now right|].
    apply js_set_keys in H' as [->|H']; [left; now left | now right | exact Hacc].
Qed.

Lemma sanitize_elems_keys (k : jsstring) (vs : list JsValue) :
  forall i acc, is_plain_object acc ->
    In k (map fst (own_props (sanitize_elems i vs acc))) ->
    In k (map fst (indexed i vs)) \/ In k (map fst (own_props acc)).
Proof.
  induction vs as [|v vs IH]; intros i acc Hacc H; [now right|].
  cbn [sanitize_elems] in H. simpl.
  destruct (IH _ _ (js_set_plain (index_key i) (sanitize_value v) Hacc) H)
    as [H'|H']; [left; now right|].
  apply js_set_keys in H' as [->|H']; [left; now left | now right | exact Hacc].
Qed.

Lemma sanitizeObject_keys (k : jsstring) (v : JsValue) :
  In k (map fst (own_props (sanitizeObject v))) ->
  In k (map fst (own_props v)).
Proof.
  destruct v as [| | | | |elems|pr ps]; try (intros H; exact H).
  - rewrite sanitizeObject_arr. intros H.
    apply sanitize_elems_keys in H as [H|[]]; [exact H | do 2 eexists; reflexivity].
  - rewrite sanitizeObject_obj. intros H.
    apply sanitize_props_keys in H as [H|[]]; [exact H | do 2 eexists; reflexivity].
Qed.

(** The sanitizer gives a plain object for an object and for an array. *)
Lemma sanitizeObject_shape (v : JsValue) :
  shape_of (sanitizeObject v) = if isArray v then SObject else shape_of v.
Proof.
  destruct v as [| | | | |elems|pr ps]; try reflexivity.
  - rewrite sanitizeObject_arr.
    destruct (@sanitize_elems_plain elems 0 (JObj None []))
      as (pr' & ps' & ->); [do 2 eexists|]; reflexivity.
  - rewrite sanitizeObject_obj.
    destruct (@sanitize_props_plain ps (JObj None []))
      as (pr' & ps' & ->); [do 2 eexists|]; reflexivity.
Qed.

(** C3, as the spec states it, fails on an array: [sanitizeObject] gives
    back a plain object keyed by the indices, not an array. *)
Lemma sanitizeObject_array_not_array :
  isArray (JArr [str "<b>a"; JNum 1]) = true /\
  sanitizeObject (JArr [str "<b>a"; JNum 1])
    = JObj None [(lit "0", str "a"); (lit "1", JNum 1)] /\
  isArray (sanitizeObject (JArr [str "<b>a"; JNum 1])) = false.
Proof. repeat split; vm_compute; reflexivity. Qed.


(* ================================================================== *)
(** * The validators *)

Lemma title_required_fails_spec (payload : JsValue) :
  title_required_fails (js_get payload (lit "title"))
  = violated payload TitleRule.
Proof.
  unfold title_required_fails, violated.
  destruct (js_get payload (lit "title")) as [| | | |s| |]; simpl;
    try reflexivity; try apply orb_true_r.
  destruct s; reflexivity.
Qed.

Lemma status_enum_fails_spec (payload : JsValue) :
  negb (is_undefined (js_get payload (lit "status")))
  && status_enum_fails (js_get payload (lit "status"))
  = violated payload StatusRule.
Proof.
  unfold status_enum_fails, violated.
  destruct (js_get payload (lit "status")); try reflexivity.
  simpl. now rewrite orb_false_r.
Qed.

Lemma description_fails_spec (payload : JsValue) :
  negb (is_undefined (js_get payload (lit "description")))
  && negb (is_string (js_get payload (lit "description")))
  = violated payload DescriptionRule.
Proof.
  unfold violated. destruct (js_get payload (lit "description")); reflexivity.
Qed.

(** The outcome of [validateTaskInput] in terms of the rules. *)
Lemma validateTaskInput_outcome (req : Request) :
  is_nullish (body req) = false ->
  validateTaskInput req
  = (if 0 <? List.length
              (filter (violated (sanitizeObject (body req))) rules)
     then Responded
            (validation_failed
               (map message
                  (filter (violated (sanitizeObject (body req))) rules)))
     else Next (mkRequest (params_id req) (sanitizeObject (body req)))).
Proof.
  intros Hbody. unfold validateTaskInput. cbn [body params_id].
  rewrite sanitizeObject_nullish, Hbody. cbv zeta.
  rewrite title_required_fails_spec, status_enum_fails_spec,
    description_fails_spec.
  unfold rules. cbn [filter].
  destruct (violated _ TitleRule), (violated _ StatusRule),
    (violated _ DescriptionRule); reflexivity.
Qed.


(** The requests of the unit tests of the validators. *)
Example validateTaskInput_valid :
  validateTaskInput
    (mkRequest (lit "")
       (obj [("title", str "Test Task"); ("description", str "Test Description");
             ("status", str "pending")]))
  = Next (mkRequest (lit "")
            (obj [("title", str "Test Task");
                  ("description", str "Test Description");
                  ("status", str "pending")])).
Proof. vm_compute. reflexivity. Qed.

Example validateTaskUpdate_sanitizes :
  validateTaskUpdate
    (mkRequest (lit "507f1f77bcf86cd799439011")
       (obj [("title", str "<b>Bold</b> Task");
             ("description", str "$ne malicious")]))
  = Next (mkRequest (lit "507f1f77bcf86cd799439011")
            (obj [("title", str "Bold Task");
                  ("description", str " malicious")])).
Proof. vm_compute. reflexivity. Qed.

Example validateTaskUpdate_empty_title :
  validateTaskUpdate (mkRequest (lit "") (obj [("title", str "")]))
  = Responded (validation_failed [lit "Title must be a non-empty string"]).
Proof. vm_compute. reflexivity. Qed.

Example validateObjectId_valid :
  validateObjectId is_hex24 (mkRequest (lit "507f1f77bcf86cd799439011") JUndefined)
  = Next (mkRequest (lit "507f1f77bcf86cd799439011") JUndefined).
Proof. vm_compute. reflexivity. Qed.

(** C7. An update payload none of whose keys is [title], [status] or
    [description] (the payload without keys included) is answered with 400
    and a report whose first entry is the message that at least one valid
    field is needed; [next] is not called. *)
Theorem validateTaskUpdate_requires_valid_field :
  forall req : Request,
    is_nullish (body req) = false ->
    (forall key, In key (map fst (own_props (body req))) ->
                 existsb (JsString.eqb key) validFields = false) ->
    exists rest,
      validateTaskUpdate req
      = Responded
          (mkResponse (JNum 400)
             (obj [("error", str "Validation failed");
                   ("details",
                    JArr (str "At least one valid field (title, status, or description) must be provided"
                          :: rest))])).
Proof.
  intros req Hbody Hkeys. unfold validateTaskUpdate. cbn [body params_id].
  rewrite sanitizeObject_nullish, Hbody. cbv zeta.
  set (payload := sanitizeObject (body req)).
  assert (Hnone : existsb
                    (fun field => existsb (JsString.eqb field) validFields)
                    (map fst (own_props payload)) = false).
  { destruct (existsb _ (map fst (own_props payload))) eqn:E; [|reflexivity].
    apply existsb_exists in E as (k & Hin & Hk).
    apply sanitizeObject_keys in Hin. now rewrite (Hkeys _ Hin) in Hk. }
  rewrite Hnone. cbn [negb orb].
  destruct (negb (is_undefined (js_get payload (lit "title"))) && _),
    (negb (is_undefined (js_get payload (lit "status"))) && _),
    (negb (is_undefined (js_get payload (lit "description"))) && _);
    eexists; reflexivity.
Qed.

Lemma validateTaskUpdate_requires_valid_field_witness :
  exists rest,
    validateTaskUpdate
      (mkRequest (lit "507f1f77bcf86cd799439011")
         (obj [("invalidField", str "value"); ("anotherInvalid", JNum 7)]))
    = Responded
        (mkResponse (JNum 400)
           (obj [("error", str "Validation failed");
                 ("details",
                  JArr (str "At least one valid field (title, status, or description) must be provided"
                        :: rest))])).
Proof.
  apply (validateTaskUpdate_requires_valid_field
           (mkRequest (lit "507f1f77bcf86cd799439011")
              (obj [("invalidField", str "value"); ("anotherInvalid", JNum 7)]))).
  - reflexivity.
  - simpl. intros key [<-|[<-|[]]]; reflexivity.
Defined.

(** C5 on the code: a payload without a [title] of its own whose key
    [__proto__] holds an object with a title.  [sanitizeObject] assigns
    that object to [sanitized['__proto__']], which makes it the prototype
    of the sanitized payload; the validator then reads the inherited title,
    reports nothing and calls [next]. *)
Theorem validateTaskInput_accepts_inherited_title :
  Object_keys (obj [("__proto__", obj [("title", str "Buy milk")])])
    = Some [lit "__proto__"] /\
  find_prop [(lit "__proto__", obj [("title", str "Buy milk")])] (lit "title")
    = None /\
  validateTaskInput
    (mkRequest (lit "") (obj [("__proto__", obj [("title", str "Buy milk")])]))
  = Next (mkRequest (lit "")
            (JObj (Some (obj [("title", str "Buy milk")])) [])).
Proof. repeat split; vm_compute; reflexivity. Qed.

(* ================================================================== *)
(** * The error handler *)

(** A failure with the code 11000 and no [keyPattern] makes the handler
    itself throw, and no response is sent. *)
Example errorHandler_throws_without_keyPattern :
  errorHandler (str "production")
    (obj [("name", str "MongoServerError");
          ("message", str "E11000 duplicate key error");
          ("code", JNum 11000)])
  = Threw TypeError.
Proof. vm_compute. reflexivity. Qed.

Lemma finish_error (development : bool) (e : JsValue)
    (rest : list (string * JsValue)) (stack : JsValue) :
  js_get
    (if development
     then js_set (obj (("error", e) :: rest)) (lit "stack") stack
     else obj (("error", e) :: rest))
    (lit "error") = e.
Proof. destruct development; reflexivity. Qed.

(** The branch at hand sends a response with a string [error] field. *)
Ltac sends_error :=
  eexists; split; [reflexivity|]; cbn [json]; rewrite finish_error;
  eexists; reflexivity.


(* ================================================================== *)
(** * The routes *)

(** C2. An identifier that the store's format refuses is answered with
    400 and [Invalid task ID format]; [next] is not called, so that on
    each of the three routes with an identifier the request ends there
    and no call reaches the store, whatever the store is. *)
Theorem validateObjectId_rejects_invalid_id :
  forall (ObjectId_isValid : jsstring -> bool) (NODE_ENV : JsValue)
         (req : Request),
    ObjectId_isValid (params_id req) = false ->
    let rejected :=
      Responded (mkResponse (JNum 400)
                   (obj [("error", str "Invalid task ID format")])) in
    validateObjectId ObjectId_isValid req = rejected /\
    forall m, In m [GET_id; PUT_id; DELETE_id] ->
      app ObjectId_isValid NODE_ENV m req = Done rejected /\
      forall (S : Type) (step : StoreCall -> S -> Settled * S) (st : S),
        run step st (app ObjectId_isValid NODE_ENV m req) = (rejected, st, []).
Proof.
  intros isValid env req Hid rejected.
  assert (Hv : validateObjectId isValid req = rejected).
  { unfold validateObjectId. now rewrite Hid. }
  split; [exact Hv|].
  intros m Hm.
  assert (Happ : app isValid env m req = Done rejected).
  { unfold app, router.
    destruct Hm as [<-|[<-|[<-|[]]]]; cbn [route]; rewrite Hv; reflexivity. }
  split; [exact Happ|]. intros S step st. now rewrite Happ.
Qed.

Lemma validateObjectId_rejects_invalid_id_witness :
  run (failing_store JNull) tt
    (app is_hex24 (str "production") GET_id
       (mkRequest (lit "invalid-id") JUndefined))
  = (Responded (mkResponse (JNum 400)
                  (obj [("error", str "Invalid task ID format")])),
     tt, []).
Proof.
  exact (proj2
           (proj2 (validateObjectId_rejects_invalid_id is_hex24
                     (str "production")
                     (mkRequest (lit "invalid-id") JUndefined) eq_refl)
              GET_id (or_introl eq_refl))
           unit (failing_store JNull) tt).
Defined.

(** C1 on the code: while the store fails with a [MongoNetworkError], in
    production mode, only [GET /] (wrapped in [asyncHandler]) is answered
    by the error handler with 503; the [catch] of the four other routes
    answers 400 with the message of the failure. *)
Theorem connectivity_failure_per_route :
  let err := obj [("name", str "MongoNetworkError");
                  ("message", str "connect ECONNREFUSED 127.0.0.1:27017");
                  ("stack", str "MongoNetworkError: connect ECONNREFUSED")] in
  let id := lit "507f1f77bcf86cd799439011" in
  let payload := obj [("title", str "Buy milk")] in
  let answer m :=
    fst (fst (run (failing_store err) tt
                (app is_hex24 (str "production") m (mkRequest id payload)))) in
  let caught :=
    Responded (mkResponse (JNum 400)
                 (obj [("error", str "connect ECONNREFUSED 127.0.0.1:27017")])) in
  answer GET
  = Responded (mkResponse (JNum 503)
                 (obj [("error", str "Service temporarily unavailable")])) /\
  answer POST = caught /\
  answer GET_id = caught /\
  answer PUT_id = caught /\
  answer DELETE_id = caught.
Proof. repeat split; vm_compute; reflexivity. Qed.

(* ================================================================== *)
(** * Updates and the store *)

Lemma update_frame_refl (i : jsstring) (ts : list Store.Task) :
  Forall2 (update_frame i) ts ts.
Proof.
  induction ts; constructor; [|assumption]. unfold update_frame. auto.
Qed.

Lemma apply_update_frame (t t' : Store.Task) (fields : JsValue) :
  Store.apply_update t fields = inr t' ->
  Store.id t' = Store.id t /\ Store.createdAt t' = Store.createdAt t.
Proof.
  unfold Store.apply_update.
  destruct (Store.read_title fields _); [|discriminate].
  destruct (Store.read_status fields _); [|discriminate].
  destruct (Store.read_description fields _); [|discriminate].
  intros H. injection H as <-. split; reflexivity.
Qed.

Lemma replace_frame (i : jsstring) (t t' : Store.Task) :
  Store.id t' = Store.id t -> Store.createdAt t' = Store.createdAt t ->
  forall ts, Store.lookup ts i = Some t ->
    Forall2 (update_frame i) ts (Store.replace ts t').
Proof.
  intros Hid Hat. induction ts as [|t0 ts IH]; simpl; [discriminate|].
  destruct (JsString.eqb (Store.id t0) i) eqn:E.
  - intros H. injection H as ->. rewrite Hid, eqb_refl.
    constructor; [|apply update_frame_refl].
    unfold update_frame. rewrite E. repeat split; auto; discriminate.
  - intros H. specialize (IH H).
    assert (Ht : JsString.eqb (Store.id t) i = true).
    { clear IH. induction ts as [|t1 ts IH1]; simpl in H; [discriminate|].
      destruct (JsString.eqb (Store.id t1) i) eqn:E1; [|now apply IH1].
      now injection H as <-. }
    apply eqb_eq in Ht. rewrite Hid, Ht, E.
    constructor; [|exact IH]. unfold update_frame. auto.
Qed.

(** The store after one call of the handler of [PUT /:id]. *)
Lemma update_task_frame (generate_id : list Store.Task -> jsstring)
    (now : list Store.Task -> float) (req : Request) (ts : list Store.Task) :
  forall f,
    Forall2 (update_frame (params_id req)) ts
      (snd (fst (run (Store.step generate_id now) ts
                   (on_outcome f (update_task req))))).
Proof.
  intros f. unfold update_task. cbn [on_outcome run Store.step].
  destruct (Store.lookup ts (params_id req)) as [t|] eqn:El.
  - destruct (Store.apply_update t (body req)) as [failure|t'] eqn:Eu.
    + destruct (on_outcome f (catch_400 failure)) eqn:Eo;
        unfold catch_400 in Eo; destruct (is_nullish failure);
        try discriminate; cbn [run fst snd]; apply update_frame_refl.
    + apply apply_update_frame in Eu as [Hid Hat].
      destruct (negb (truthy (Store.task_json t'))); cbn [on_outcome run fst snd];
        now apply replace_frame with (t := t).
  - cbn [truthy negb not_found on_outcome run fst snd]. apply update_frame_refl.
Qed.

(** C8 (the store is modelled from the spec).  Whatever the store holds
    and whatever the payload of a [PUT /:id] carries, after the request
    every Task has the identifier and the creation time it had before, and
    a Task other than the one addressed is unchanged: only the title, the
    description and the status of the addressed Task may differ. *)
Theorem put_preserves_id_and_createdAt :
  forall (ObjectId_isValid : jsstring -> bool) (NODE_ENV : JsValue)
         (generate_id : list Store.Task -> jsstring)
         (now : list Store.Task -> float)
         (ts : list Store.Task) (req : Request),
    let ts' :=
      snd (fst (run (Store.step generate_id now) ts
                  (app ObjectId_isValid NODE_ENV PUT_id req))) in
    Forall2 (update_frame (params_id req)) ts ts' /\
    map created ts' = map created ts.
Proof.
  intros isValid env generate_id now ts req ts'.
  assert (H : Forall2 (update_frame (params_id req)) ts ts').
  { subst ts'. unfold app, router. cbn [route].
    destruct (validateObjectId isValid req) as [res|req1|e|e] eqn:E1;
      try (cbn [on_outcome run fst snd]; apply update_frame_refl).
    assert (req1 = req) as ->.
    { unfold validateObjectId in E1.
      destruct (negb _); [discriminate | now injection E1]. }
    destruct (validateTaskUpdate req) as [res|req2|e|e] eqn:E2;
      try (cbn [on_outcome run fst snd]; apply update_frame_refl).
    assert (Hid : params_id req2 = params_id req).
    { unfold validateTaskUpdate in E2. cbv zeta in E2.
      cbn [body params_id] in E2.
      destruct (is_nullish _); [discriminate|].
      destruct (0 <? _); [discriminate|]. now injection E2 as <-. }
    rewrite <- Hid. apply update_task_frame. }
  split; [exact H|].
  clear -H. induction H as [|t t' ts ts' (Hid & Hat & _) _ IH]; [reflexivity|].
  simpl. unfold created at 1 3. now rewrite Hid, Hat, IH.
Qed.

(** An update does happen, and a [createdAt] in its payload goes nowhere. *)
Example put_changes_title_only :
  let t := Store.mkTask (lit "507f1f77bcf86cd799439011") (lit "Buy milk") None
             Store.pending 1700000000000 in
  let req := mkRequest (lit "507f1f77bcf86cd799439011")
               (obj [("title", str "Buy oat milk"); ("createdAt", JNum 0);
                     ("id", str "000000000000000000000000")]) in
  run (Store.step (fun _ => lit "") (fun _ => 0%float)) [t]
    (app is_hex24 (str "production") PUT_id req)
  = (Responded
       (mkResponse (JNum 200)
          (Store.task_json
             (Store.mkTask (lit "507f1f77bcf86cd799439011") (lit "Buy oat milk")
                None Store.pending 1700000000000))),
     [Store.mkTask (lit "507f1f77bcf86cd799439011") (lit "Buy oat milk") None
        Store.pending 1700000000000],
     [Task_findByIdAndUpdate (lit "507f1f77bcf86cd799439011")
        (obj [("title", str "Buy oat milk"); ("createdAt", JNum 0);
              ("id", str "000000000000000000000000")])]).
Proof. vm_compute. reflexivity. Qed.

(* ================================================================== *)
(** * Further properties of the validation layer *)

Lemma trimStart_spaces (s : jsstring) :
  forallb is_space (trimStart s) = true -> forallb is_space s = true.
Proof.
  induction s as [|c s IH]; [reflexivity|]. simpl.
  destruct (is_space c) eqn:E; [exact IH|].
  simpl. rewrite E. discriminate.
Qed.

Lemma trimStart_nil (s : jsstring) :
  trimStart s = [] -> forallb is_space s = true.
Proof. intros H. apply trimStart_spaces. now rewrite H. Qed.

(** A string that is empty after trimming holds white space only. *)
Lemma trim_nil (s : jsstring) : trim s = [] -> forallb is_space s = true.
Proof.
  unfold trim. intros H.
  apply (f_equal (@rev N)) in H. rewrite rev_involutive in H. simpl in H.
  apply trimStart_nil in H. apply trimStart_spaces.
  apply forallb_forall. intros x Hx.
  apply (proj1 (forallb_forall _ _) H). now apply in_rev in Hx.
Qed.

Lemma space_not_special (c : N) :
  is_space c = true -> N.eqb c 60 = false /\ N.eqb c 36 = false.
Proof.
  intros H. split.
  - destruct (N.eqb_spec c 60) as [->|]; [|reflexivity].
    vm_compute in H. discriminate.
  - destruct (N.eqb_spec c 36) as [->|]; [|reflexivity].
    vm_compute in H. discriminate.
Qed.

Lemma spaces_clean (s : jsstring) :
  forallb is_space s = true -> has_tag s = false /\ has_operator s = false.
Proof.
  induction s as [|c s IH]; [now split|]. simpl forallb.
  intros H. apply andb_prop in H as [Hc Hs].
  destruct (IH Hs) as [Ht Ho]. apply space_not_special in Hc as [H60 H36].
  rewrite has_tag_cons, has_operator_cons, Ht, Ho.
  unfold tag_end, operator_end. destruct s; rewrite ?H60, ?H36; now split.
Qed.

(** A title that a creation payload must not have: not a string, or a
    string that is empty after trimming. *)
Lemma bad_title_sanitized (v : JsValue) :
  match v with JStr s => trim s = [] | _ => True end ->
  match sanitize_value v with
  | JStr s => JsString.eqb (trim s) (lit "") = true
  | _ => True
  end.
Proof.
  destruct v as [| | | |s|elems|pr ps];
    cbn [sanitize_value sanitizeString]; auto.
  - intros H. destruct (spaces_clean _ (trim_nil _ H)) as [Ht Ho].
    rewrite (sanitized_text_fixed _ Ht Ho), H. reflexivity.
  - intros _. pose proof (sanitizeObject_shape (JArr elems)) as Hs.
    destruct (sanitizeObject (JArr elems)); try exact I; discriminate.
  - intros _. pose proof (sanitizeObject_shape (JObj pr ps)) as Hs.
    destruct (sanitizeObject (JObj pr ps)); try exact I; discriminate.
Qed.

Lemma find_set_prop (ps : list (jsstring * JsValue)) (key k : jsstring)
    (v : JsValue) :
  find_prop (set_prop ps key v) k
  = if JsString.eqb key k then Some v else find_prop ps k.
Proof.
  induction ps as [|[k' w] ps IH]; simpl.
  - reflexivity.
  - destruct (JsString.eqb k' key) eqn:E; simpl.
    + apply eqb_eq in E as ->. destruct (JsString.eqb key k); reflexivity.
    + rewrite IH. destruct (JsString.eqb k' k) eqn:E'; [|reflexivity].
      apply eqb_eq in E' as ->. now rewrite (proj2 (eqb_neq key k))
        by (intros ->; now rewrite eqb_refl in E).
Qed.

(** Without a key [__proto__] the sanitized payload keeps the default
    prototype, and its title is the sanitized title of the payload. *)
Lemma sanitize_props_title (bad : JsValue -> Prop)
    (ps : list (jsstring * JsValue)) :
  ~ In (lit "__proto__") (map fst ps) ->
  (forall v, In (lit "title", v) ps -> bad (sanitize_value v)) ->
  forall acc,
    (forall v, find_prop acc (lit "title") = Some v -> bad v) ->
    exists acc',
      sanitize_props ps (JObj None acc) = JObj None acc' /\
      (forall v, find_prop acc' (lit "title") = Some v -> bad v).
Proof.
  induction ps as [|[key w] ps IH]; intros Hproto Hbad acc Hacc.
  - exists acc. now split.
  - cbn [sanitize_props]. simpl in Hproto.
    assert (Hps : ~ In (lit "__proto__") (map fst ps)) by tauto.
    assert (Hbad' : forall v, In (lit "title", v) ps -> bad (sanitize_value v))
      by (intros v Hv; apply Hbad; now right).
    destruct (startsWith key (lit "$")); [now apply IH|].
    unfold js_set.
    rewrite (proj2 (eqb_neq key (lit "__proto__")))
      by (intros ->; tauto).
    apply IH; [exact Hps | exact Hbad'|].
    intros v. rewrite find_set_prop.
    destruct (JsString.eqb key (lit "title")) eqn:E; [|apply Hacc].
    apply eqb_eq in E as ->. intros H. injection H as <-.
    apply Hbad. now left.
Qed.

(** X1, beside C5. When the payload has no key [__proto__], a title that is
    absent, not a string, or empty after trimming is answered with 400 and
    a report that holds the title message; [next] is not called. *)
Theorem validateTaskInput_rejects_missing_title :
  forall (req : Request) (pr : option JsValue)
         (ps : list (jsstring * JsValue)),
    body req = JObj pr ps ->
    ~ In (lit "__proto__") (map fst ps) ->
    (forall v, In (lit "title", v) ps ->
               match v with JStr s => trim s = [] | _ => True end) ->
    exists details,
      validateTaskInput req = Responded (validation_failed details) /\
      In (lit "Title is required and must be a non-empty string") details.
Proof.
  intros req pr ps Hbody Hproto Htitle.
  rewrite validateTaskInput_outcome by (now rewrite Hbody).
  rewrite Hbody, sanitizeObject_obj.
  destruct (@sanitize_props_title
              (fun v => match v with
                        | JStr s => JsString.eqb (trim s) (lit "") = true
                        | _ => True
                        end) ps Hproto) with (acc := @nil (jsstring * JsValue))
    as (acc' & -> & Hacc').
  { intros v Hv. apply bad_title_sanitized. now apply Htitle. }
  { discriminate. }
  assert (Hv : violated (JObj None acc') TitleRule = true).
  { unfold violated. cbn [js_get].
    destruct (find_prop acc' (lit "title")) as [v|] eqn:E; [|reflexivity].
    specialize (Hacc' _ eq_refl). destruct v; auto. }
  unfold rules. cbn [filter]. rewrite Hv.
  eexists. split; [reflexivity|]. now left.
Qed.

Lemma validateTaskInput_rejects_missing_title_witness :
  exists details,
    validateTaskInput
      (mkRequest (lit "") (obj [("title", str "  "); ("description", str "x")]))
    = Responded (validation_failed details) /\
    In (lit "Title is required and must be a non-empty string") details.
Proof.
  apply (@validateTaskInput_rejects_missing_title
           (mkRequest (lit "") (obj [("title", str "  "); ("description", str "x")]))
           None
           [(lit "title", str "  "); (lit "description", str "x")]).
  - reflexivity.
  - simpl. intros [H|[H|[]]]; vm_compute in H; discriminate.
  - intros v [H|[H|[]]];
      [injection H as <-; reflexivity | vm_compute in H; discriminate].
Defined.

Lemma anywhere_suffix (at_head : jsstring -> bool) (t s : jsstring) :
  anywhere at_head s = false -> is_suffix t s -> at_head t = false.
Proof.
  intros H [pre ->]. induction pre as [|c pre IH]; simpl in H.
  - destruct t; simpl in H; now apply orb_false_elim in H as [H _].
  - apply orb_false_elim in H as [_ H]. now apply IH.
Qed.

(** X2. None of the three patterns of [sanitizeString] matches anywhere
    in the string it returns: no script block, no markup-tag-like substring
    and no dollar-prefixed token is left. *)
Theorem sanitizeString_leaves_no_match :
  forall (s t : jsstring) (prev : option N),
    is_suffix t (sanitized_text s) ->
    exec true script_re prev t = None /\
    exec false tag_re prev t = None /\
    exec false operator_re prev t = None.
Proof.
  intros s t prev Hsuf.
  pose proof (anywhere_suffix _ (sanitized_no_tag s) Hsuf) as Ht.
  pose proof (anywhere_suffix _ (sanitized_no_operator s) Hsuf) as Ho.
  simpl in Ht, Ho. split; [|split].
  - destruct (exec true script_re prev t) eqn:E; [|reflexivity].
    apply exec_script_re in E. congruence.
  - rewrite exec_tag_re. destruct (tag_end t); [discriminate | reflexivity].
  - rewrite exec_operator_re.
    destruct (operator_end t); [discriminate | reflexivity].
Qed.

Lemma sanitizeString_leaves_no_match_witness :
  exec false operator_re None (lit " x") = None.
Proof.
  refine (proj2 (proj2 (@sanitizeString_leaves_no_match (lit "a$ne x")
                          (lit " x") None _))).
  exists (lit "a"). vm_compute. reflexivity.
Defined.

Lemma sanitize_props_plain_keys (k : jsstring)
    (ps : list (jsstring * JsValue)) :
  forall acc, is_plain_object acc ->
    In k (map fst (own_props (sanitize_props ps acc))) ->
    startsWith k (lit "$") = false \/ In k (map fst (own_props acc)).
Proof.
  induction ps as [|[key v] ps IH]; intros acc Hacc H; [now right|].
  cbn [sanitize_props] in H. destruct (startsWith key (lit "$")) eqn:E.
  - now apply IH.
  - destruct (IH _ (js_set_plain key (sanitize_value v) Hacc) H) as [H'|H'];
      [now left|].
    apply js_set_keys in H' as [->|H']; [now left | now right | exact Hacc].
Qed.

(** X3. A key of a payload object that begins with [$] is not a key of
    the sanitized object. *)
Theorem sanitizeObject_drops_operator_keys :
  forall (pr : option JsValue) (ps : list (jsstring * JsValue))
         (key : jsstring),
    startsWith key (lit "$") = true ->
    existsb (JsString.eqb key)
      (map fst (own_props (sanitizeObject (JObj pr ps)))) = false.
Proof.
  intros pr ps key Hkey.
  destruct (existsb _ _) eqn:E; [|reflexivity].
  apply existsb_exists in E as (k & Hin & Hk). apply eqb_eq in Hk as <-.
  rewrite sanitizeObject_obj in Hin.
  apply sanitize_props_plain_keys in Hin as [H|[]];
    [congruence | do 2 eexists; reflexivity].
Qed.

Lemma sanitizeObject_drops_operator_keys_witness :
  existsb (JsString.eqb (lit "$where"))
    (map fst
       (own_props
          (sanitizeObject
             (obj [("title", str "x"); ("$where", str "sleep(1000)")]))))
  = false.
Proof.
  exact (sanitizeObject_drops_operator_keys None
           [(lit "title", str "x"); (lit "$where", str "sleep(1000)")]
           (lit "$where") eq_refl).
Defined.

(** X4. The error handler on a connectivity or timeout failure of the
    store (one whose code is not 11000):
    503 and [Service temporarily unavailable], with a [stack] field in
    development mode only; this is what [GET /] answers when the store
    fails so. *)
Theorem errorHandler_connectivity_failure :
  forall (ObjectId_isValid : jsstring -> bool) (NODE_ENV err : JsValue)
         (req : Request),
    is_nullish err = false ->
    strict_eq_str (js_get err (lit "name")) (lit "MongoNetworkError")
    || strict_eq_str (js_get err (lit "name")) (lit "MongoTimeoutError") = true ->
    strict_eq_num (js_get err (lit "code")) 11000 = false ->
    let unavailable := obj [("error", str "Service temporarily unavailable")] in
    let answer :=
      Responded
        (mkResponse (JNum 503)
           (if strict_eq_str NODE_ENV (lit "development")
            then js_set unavailable (lit "stack") (js_get err (lit "stack"))
            else unavailable)) in
    errorHandler NODE_ENV err = answer /\
    run (failing_store err) tt (app ObjectId_isValid NODE_ENV GET req)
    = (answer, tt, [Task_find]).
Proof.
  intros isValid env err req Hnn Hname Hcode unavailable answer.
  assert (He : errorHandler env err = answer).
  { unfold errorHandler. rewrite Hnn. cbv zeta. rewrite Hcode.
    destruct (strict_eq_str (js_get err (lit "name")) (lit "ValidationError"))
      eqn:E1.
    { destruct (js_get err (lit "name")) as [| | | |n| |]; try discriminate.
      simpl in E1, Hname. apply eqb_eq in E1 as ->.
      vm_compute in Hname. discriminate. }
    destruct (strict_eq_str (js_get err (lit "name")) (lit "CastError"))
      eqn:E2.
    { destruct (js_get err (lit "name")) as [| | | |n| |]; try discriminate.
      simpl in E2, Hname. apply eqb_eq in E2 as ->.
      vm_compute in Hname. discriminate. }
    rewrite Hname. reflexivity. }
  split; [exact He|].
  unfold app, router. cbn [route asyncHandler get_all_tasks on_outcome run
                             failing_store].
  now rewrite He.
Qed.

Lemma errorHandler_connectivity_failure_witness :
  errorHandler (str "production")
    (obj [("name", str "MongoTimeoutError"); ("message", str "timed out");
          ("stack", str "MongoTimeoutError: timed out")])
  = Responded
      (mkResponse (JNum 503)
         (obj [("error", str "Service temporarily unavailable")])).
Proof.
  exact (proj1 (errorHandler_connectivity_failure is_hex24 (str "production")
                  (obj [("name", str "MongoTimeoutError");
                        ("message", str "timed out");
                        ("stack", str "MongoTimeoutError: timed out")])
                  (mkRequest (lit "") JUndefined)
                  eq_refl eq_refl eq_refl)).
Defined.




(** X7. A response of the error handler has a [stack] field exactly when
    [NODE_ENV] is [development]. *)
Theorem errorHandler_stack_only_in_development :
  forall (NODE_ENV err : JsValue) (res : Response),
    errorHandler NODE_ENV err = Responded res ->
    has_key (json res) "stack" = strict_eq_str NODE_ENV (lit "development").
Proof.
  intros env err res. unfold errorHandler.
  destruct (is_nullish err); [discriminate|]. cbv zeta.
  assert (Hfin : forall e rest code,
            forallb (fun kv => negb (JsString.eqb (lit "stack") (lit (fst kv))))
              rest = true ->
            Responded
              (mkResponse code
                 (if strict_eq_str env (lit "development")
                  then js_set (obj (("error", e) :: rest)) (lit "stack")
                         (js_get err (lit "stack"))
                  else obj (("error", e) :: rest))) = Responded res ->
            has_key (json res) "stack"
            = strict_eq_str env (lit "development")).
  { intros e rest code Hrest H. injection H as <-. cbn [json].
    destruct (strict_eq_str env (lit "development")).
    - unfold has_key, obj, js_set. cbn [own_props]. clear Hrest.
      change (JsString.eqb (lit "stack") (lit "__proto__")) with false.
      cbn iota. cbn [map fst snd]. cbn [set_prop].
      change (JsString.eqb (lit "error") (lit "stack")) with false. cbn iota.
      cbn [own_props map fst existsb].
      change (JsString.eqb (lit "stack") (lit "error")) with false. cbn [orb].
      induction rest as [|[k w] rest IH]; cbn [map fst snd set_prop].
      + cbn [existsb]. now rewrite eqb_refl.
      + destruct (JsString.eqb (lit k) (lit "stack")) eqn:E;
          cbn [map fst existsb].
        * apply eqb_eq in E. rewrite E, eqb_refl. reflexivity.
        * rewrite IH. apply orb_true_r.
    - unfold has_key, obj. cbn [own_props map fst snd existsb].
      change (JsString.eqb (lit "stack") (lit "error")) with false. cbn [orb].
      induction rest as [|[k w] rest IH]; [reflexivity|].
      cbn [forallb fst] in Hrest. apply andb_prop in Hrest as [Hk Hrest].
      cbn [map fst snd existsb]. rewrite (IH Hrest), orb_false_r.
      now apply negb_true_iff in Hk. }
  destruct (strict_eq_str (js_get err (lit "name")) (lit "ValidationError")).
  { destruct (Object_values _) as [es|]; [|discriminate].
    destruct (existsb is_nullish es); [discriminate|].
    now apply Hfin. }
  destruct (strict_eq_str (js_get err (lit "name")) (lit "CastError"));
    [now apply Hfin|].
  destruct (strict_eq_num (js_get err (lit "code")) 11000).
  { destruct (Object_keys _) as [keys|]; [|discriminate]. now apply Hfin. }
  destruct (_ || _); [now apply Hfin|].
  destruct (truthy (js_get err (lit "statusCode"))); [now apply Hfin|].
  destruct (truthy (js_get err (lit "message"))); now apply Hfin.
Qed.

Lemma errorHandler_stack_only_in_development_witness :
  has_key
    (obj [("error", str "boom"); ("stack", str "Error: boom at handler")])
    "stack"
  = true.
Proof.
  exact (errorHandler_stack_only_in_development (str "development")
           (obj [("message", str "boom");
                 ("stack", str "Error: boom at handler")])
           eq_refl).
Defined.

(* ================================================================== *)
(** * The first pattern, run by the matcher, is [script_end] *)

Lemma rmatch_chars (ic : bool) (R : regex) (k : cont) (cs : jsstring) :
  forall p s,
    rmatch ic (fold_right RSeq R (map RChar cs)) k p s
    = match after_prefix ic cs s with
      | Some r =>
          rmatch ic R k
            (fold_left (fun _ x => Some x) (firstn (List.length cs) s) p) r
      | None => None
      end.
Proof.
  induction cs as [|a cs IH]; intros p s; [reflexivity|].
  cbn [map fold_right rmatch after_prefix]. destruct s as [|x s]; [reflexivity|].
  cbn [one]. destruct (char_match ic a x); [|reflexivity].
  rewrite IH. reflexivity.
Qed.

(** A greedy run commits when the continuation refuses every input that
    begins with a code unit of the run. *)
Lemma greedy_commit (ok : N -> bool) (k : cont) :
  (forall q x t, ok x = true -> k q (x :: t) = None) ->
  forall s p, greedy ok k p s = k (prev_run ok p s) (drop_run ok s).
Proof.
  intros Hk. induction s as [|x s IH]; intros p; [reflexivity|].
  cbn [greedy prev_run drop_run]. destruct (ok x) eqn:E; [|reflexivity].
  rewrite IH. destruct (k (prev_run ok (Some x) s) (drop_run ok s)) eqn:Ek;
    [reflexivity|]. now apply Hk.
Qed.

Lemma drop_run_length (ok : N -> bool) (s : jsstring) :
  List.length (drop_run ok s) <= List.length s.
Proof.
  induction s as [|x s IH]; simpl; [lia|]. destruct (ok x); simpl; lia.
Qed.

Lemma drop_run_head (ok : N -> bool) (s : jsstring) :
  match drop_run ok s with
  | x :: _ => ok x = false
  | [] => True
  end.
Proof.
  induction s as [|x s IH]; simpl; [exact I|].
  destruct (ok x) eqn:E; [exact IH | exact E].
Qed.

Lemma not_lt_spec (x : N) : not_lt x = negb (N.eqb x 60).
Proof.
  unfold not_lt, class_match, char_match. cbn [lit map list_ascii_of_string existsb].
  change (N_of_ascii "<") with 60%N. rewrite orb_false_r.
  destruct (N.eqb x 60) eqn:E.
  - apply N.eqb_eq in E as ->. reflexivity.
  - destruct (N.eqb (canonicalize 60) (canonicalize x)) eqn:E'; [|reflexivity].
    apply canonicalize_60 in E'. subst x. now rewrite N.eqb_refl in E.
Qed.

(** The closing tag begins with [<]. *)
Lemma after_prefix_close_lt (x : N) (t : jsstring) :
  not_lt x = true -> after_prefix true (lit "</script>") (x :: t) = None.
Proof.
  intros H. rewrite not_lt_spec in H. apply negb_true_iff in H.
  cbn [lit map list_ascii_of_string after_prefix].
  destruct (char_match true (N_of_ascii "<") x) eqn:E; [|reflexivity].
  apply canonicalize_60 in E. subst x. now rewrite N.eqb_refl in H.
Qed.

Lemma find_close_drop_run (s : jsstring) :
  find_close (drop_run not_lt s) = find_close s.
Proof.
  induction s as [|x s IH]; [reflexivity|].
  cbn [drop_run]. destruct (not_lt x) eqn:E; [|reflexivity].
  rewrite IH. cbn [find_close]. now rewrite after_prefix_close_lt.
Qed.

Lemma char_match_lt (x : N) : char_match true 60 x = negb (not_lt x).
Proof.
  unfold not_lt, class_match. cbn [lit map list_ascii_of_string existsb].
  change (N_of_ascii "<") with 60%N. rewrite orb_false_r.
  now destruct (char_match true 60 x).
Qed.

Lemma k_close_spec (p : option N) (s : jsstring) :
  k_close p s = after_prefix true (lit "</script>") s.
Proof.
  unfold k_close, rlit, rseq. cbn [rmatch]. rewrite rmatch_chars.
  destruct (after_prefix true (lit "</script>") s); reflexivity.
Qed.

Lemma lookahead_close (p : option N) (s : jsstring) :
  rmatch true (rlit "</script>") (fun _ s' => Some s') p s
  = after_prefix true (lit "</script>") s.
Proof.
  unfold rlit, rseq. rewrite rmatch_chars.
  destruct (after_prefix true (lit "</script>") s); reflexivity.
Qed.

(** One iteration of the group. *)
Lemma group_body (k : cont) (p : option N) (s : jsstring) :
  rmatch true group_re k p s
  = match after_prefix true (lit "</script>") s with
    | Some _ => None
    | None =>
        match s with
        | x :: t => if not_lt x then None else greedy not_lt k (Some x) t
        | [] => None
        end
    end.
Proof.
  unfold group_re. cbn [rseq fold_right]. cbn [rmatch].
  rewrite lookahead_close.
  destruct (after_prefix true (lit "</script>") s); [reflexivity|].
  destruct s as [|x t]; [reflexivity|]. cbn [one].
  rewrite char_match_lt. destruct (not_lt x); [reflexivity|]. cbn [negb].
  apply (@star_loop_one _ not_lt); [reflexivity | lia].
Qed.

Lemma group_loop_not_lt (n : nat) (p : option N) (x : N) (t : jsstring) :
  not_lt x = true ->
  star_loop (rmatch true group_re) k_close n p (x :: t) = None.
Proof.
  intros H. destruct n as [|n]; cbn [star_loop].
  - rewrite k_close_spec. now apply after_prefix_close_lt.
  - rewrite group_body, k_close_spec, (@after_prefix_close_lt x t H), H.
    reflexivity.
Qed.

(** The repeated group walks from one [<] to the next and stops at the
    first closing tag. *)
Lemma group_loop (n : nat) :
  forall s p,
    List.length s <= n ->
    match s with x :: _ => not_lt x = false | [] => True end ->
    star_loop (rmatch true group_re) k_close n p s = find_close s.
Proof.
  induction n as [|n IH]; intros s p Hn Hhead.
  - destruct s; [|simpl in Hn; lia]. cbn [star_loop]. now rewrite k_close_spec.
  - cbn [star_loop]. rewrite group_body, k_close_spec.
    destruct s as [|x t].
    + reflexivity.
    + cbn [find_close].
      destruct (after_prefix true (lit "</script>") (x :: t)); [reflexivity|].
      rewrite Hhead. rewrite greedy_commit.
      * pose proof (drop_run_length not_lt t) as Hlen.
        replace (List.length (drop_run not_lt t) <? List.length (x :: t))
          with true by (symmetry; apply Nat.ltb_lt; simpl; lia).
        rewrite IH;
          [| simpl in Hn; lia
           | pose proof (drop_run_head not_lt t) as Hd;
             destruct (drop_run not_lt t); [exact I | exact Hd]].
        rewrite find_close_drop_run.
        destruct (find_close t); reflexivity.
      * intros q y u Hy.
        destruct (List.length (y :: u) <? List.length (x :: t)); [|reflexivity].
        now apply group_loop_not_lt.
Qed.

Lemma after_prefix_last (ic : bool) (a : N) (pre : jsstring) :
  forall p s r,
    after_prefix ic (pre ++ [a]) s = Some r ->
    exists x,
      fold_left (fun _ y => Some y) (firstn (List.length (pre ++ [a])) s) p
      = Some x /\ char_match ic a x = true.
Proof.
  induction pre as [|b pre IH]; intros p s r H.
  - destruct s as [|x s]; simpl in H; [discriminate|].
    destruct (char_match ic a x) eqn:E; [|discriminate].
    exists x. now split.
  - destruct s as [|x s]; simpl in H; [discriminate|].
    destruct (char_match ic b x); [|discriminate].
    destruct (IH (Some x) s r H) as (y & Hy & Hc). exists y. split; [|exact Hc].
    exact Hy.
Qed.

Lemma char_match_t_word (x : N) :
  char_match true 116 x = true -> is_word_char x = true.
Proof.
  unfold char_match, canonicalize. intros H.
  destruct ((97 <=? x) && (x <=? 122))%N eqn:E.
  - apply andb_prop in E as [E1 E2]. unfold is_word_char. now rewrite E1, E2, !orb_true_r.
  - apply N.eqb_eq in H. vm_compute in H. subst x. reflexivity.
Qed.

(** X8. The three patterns of [sanitizeString], run by the matcher, match
    at the head of a string what their direct descriptions say: the first
    one [<script] in any case, not followed by a word character, with
    everything up to the first closing tag in any case; the second one a
    [<], a code unit other than [>] and everything up to the next [>]; the
    third one a dollar sign and the longest run of word characters, at
    least one. *)
Theorem patterns_match_as_described :
  forall (prev : option N) (s : jsstring),
    exec true script_re prev s = script_end s /\
    exec false tag_re prev s = tag_end s /\
    exec false operator_re prev s = operator_end s.
Proof.
  intros prev s. split; [|split; [apply exec_tag_re | apply exec_operator_re]].
  unfold exec, script_end.
  change script_re
    with (RSeq (fold_right RSeq REmpty (map RChar (lit "<script")))
            (RSeq RWordB
               (RSeq (RStar (RClass true (lit "<")))
                  (RSeq (RStar group_re) (RSeq (rlit "</script>") REmpty))))).
  cbn [rmatch]. rewrite rmatch_chars.
  destruct (after_prefix true (lit "<script") s) as [r|] eqn:E; [|reflexivity].
  cbn [rmatch].
  destruct (@after_prefix_last true 116 (lit "<scrip") prev s r E)
    as (x & Hprev & Hx).
  change (lit "<scrip" ++ [116%N]) with (lit "<script") in Hprev.
  rewrite Hprev. cbn [word_at]. rewrite (char_match_t_word _ Hx). cbn [xorb].
  destruct (word_at (hd_error r)); [reflexivity|]. cbn [negb].
  rewrite (@star_loop_one _ not_lt) by (reflexivity || lia).
  rewrite greedy_commit.
  - change (rmatch true (RSeq (rlit "</script>") REmpty)
              (fun (_ : option N) (rest : jsstring) => Some rest))
      with k_close.
    rewrite group_loop;
      [apply find_close_drop_run | lia
       | pose proof (drop_run_head not_lt r) as Hd;
         destruct (drop_run not_lt r); [exact I | exact Hd]].
  - intros q y u Hy.
    change (rmatch true (RSeq (rlit "</script>") REmpty)
              (fun (_ : option N) (rest : jsstring) => Some rest))
      with k_close.
    now apply group_loop_not_lt.
Qed.

(* ================================================================== *)
(** * The sanitizer only deletes *)

Lemma Subsequence_refl (s : jsstring) : Subsequence s s.
Proof. induction s; constructor; assumption. Qed.

Lemma Subsequence_trans (u t s : jsstring) :
  Subsequence u t -> Subsequence t s -> Subsequence u s.
Proof.
  intros Hut Hts. revert u Hut.
  induction Hts as [|x t s Hts IH|x t s Hts IH]; intros u Hut.
  - exact Hut.
  - inversion Hut as [|y u' t' Hu'|y u' t' Hu']; subst.
    + apply sub_keep. now apply IH.
    + apply sub_drop. now apply IH.
  - apply sub_drop. now apply IH.
Qed.

Lemma Subsequence_length (t s : jsstring) :
  Subsequence t s -> List.length t <= List.length s.
Proof. induction 1; simpl; lia. Qed.

Lemma Subsequence_In (x : N) (t s : jsstring) :
  Subsequence t s -> In x t -> In x s.
Proof.
  induction 1 as [|y t s _ IH|y t s _ IH]; simpl; intros Hin; tauto.
Qed.

(** Whatever the pattern, a global replacement by the empty string leaves
    a subsequence of its input. *)
Lemma replace_go_Subsequence
    (f : option N -> jsstring -> option jsstring) (s : jsstring) :
  forall k p, Subsequence (replace_go f k p s) s.
Proof.
  induction s as [|c s IH]; intros k p; cbn [replace_go].
  - constructor.
  - destruct k as [|k]; [|apply sub_drop, IH].
    destruct (f p (c :: s)) as [rest|]; [|apply sub_keep, IH].
    destruct (List.length (c :: s) - List.length rest);
      [apply sub_keep | apply sub_drop]; apply IH.
Qed.

(** X9. [sanitizeString] only deletes: the string it returns is the input
    with some code units removed, none added, changed or moved; it is
    never longer than the input. *)
Theorem sanitizeString_only_deletes :
  forall s : jsstring,
    exists out,
      sanitizeString (JStr s) = JStr out /\
      Subsequence out s /\
      List.length out <= List.length s.
Proof.
  intros s. exists (sanitized_text s).
  assert (H : Subsequence (sanitized_text s) s).
  { unfold sanitized_text, replace_all.
    eapply Subsequence_trans; [apply replace_go_Subsequence|].
    eapply Subsequence_trans; apply replace_go_Subsequence. }
  split; [reflexivity|]. split; [exact H|]. now apply Subsequence_length.
Qed.

Lemma no_lt_no_tag (s : jsstring) : ~ In 60%N s -> has_tag s = false.
Proof.
  induction s as [|c s IH]; intros Hin; [reflexivity|].
  rewrite has_tag_cons, IH by (intros H; apply Hin; now right).
  unfold tag_end. destruct s as [|x s]; [reflexivity|].
  destruct (N.eqb_spec c 60) as [->|]; [|reflexivity].
  exfalso. apply Hin. now left.
Qed.

Lemma no_dollar_no_operator (s : jsstring) :
  ~ In 36%N s -> has_operator s = false.
Proof.
  induction s as [|c s IH]; intros Hin; [reflexivity|].
  rewrite has_operator_cons, IH by (intros H; apply Hin; now right).
  unfold operator_end. destruct s as [|x s]; [reflexivity|].
  destruct (N.eqb_spec c 36) as [->|]; [|reflexivity].
  exfalso. apply Hin. now left.
Qed.

(** X10. The strings [sanitizeString] returns as they are, are exactly the
    clean ones: those without a markup-tag-like substring and without a
    dollar-prefixed token.  A string without [<] and without [$] is one. *)
Theorem sanitizeString_fixed_points :
  forall s : jsstring,
    (sanitizeString (JStr s) = JStr s <-> clean_string s = true) /\
    (~ In 60%N s -> ~ In 36%N s -> sanitizeString (JStr s) = JStr s).
Proof.
  intros s. unfold clean_string. cbn [sanitizeString]. split; [split|].
  - intros H. injection H as H.
    rewrite <- H, sanitized_no_tag, sanitized_no_operator. reflexivity.
  - intros H. apply andb_prop in H as [Ht Ho].
    apply negb_true_iff in Ht, Ho. now rewrite sanitized_text_fixed.
  - intros H60 H36.
    now rewrite sanitized_text_fixed
      by (apply no_lt_no_tag || apply no_dollar_no_operator; assumption).
Qed.

(* ================================================================== *)
(** * The sanitizer on nested values *)

(** Induction on a value, with the property at hand for every element,
    every property value and the prototype. *)
Lemma JsValue_deep_ind (P : JsValue -> Prop) :
  P JUndefined -> P JNull -> (forall b, P (JBool b)) ->
  (forall x, P (JNum x)) -> (forall s, P (JStr s)) ->
  (forall elems, Forall P elems -> P (JArr elems)) ->
  (forall proto props,
     match proto with Some p => P p | None => True end ->
     Forall (fun kv => P (snd kv)) props -> P (JObj proto props)) ->
  forall v, P v.
Proof.
  intros HU HN HB HX HS HA HO. fix IH 1.
  intros [| |b|x|s|elems|proto props].
  - exact HU.
  - exact HN.
  - apply HB.
  - apply HX.
  - apply HS.
  - apply HA. induction elems as [|e elems IHe]; constructor;
      [apply IH | exact IHe].
  - apply HO.
    + destruct proto; [apply IH | exact I].
    + induction props as [|[k e] props IHp]; constructor;
        [apply IH | exact IHp].
Qed.

(** ** The decimal keys of array indices *)

Lemma to_uint_nonnil (i : nat) : Nat.to_uint i <> Decimal.Nil.
Proof.
  rewrite <- (DecimalNat.Unsigned.of_to i) at 1.
  rewrite DecimalNat.Unsigned.to_of. apply DecimalFacts.unorm_nonnil.
Qed.

(** An index key begins with a digit. *)
Lemma index_key_head (i : nat) :
  exists c rest,
    index_key i = c :: rest /\ (48 <=? c)%N && (c <=? 57)%N = true.
Proof.
  unfold index_key. pose proof (to_uint_nonnil i) as Hnil.
  destruct (Nat.to_uint i); [congruence| ..];
    cbn [NilEmpty.string_of_uint lit list_ascii_of_string map];
    do 2 eexists; (split; [reflexivity|]); reflexivity.
Qed.

Lemma index_key_operator (i : nat) : operator_key (index_key i) = false.
Proof.
  destruct (index_key_head i) as (c & rest & -> & Hc).
  unfold operator_key. cbn [lit list_ascii_of_string map startsWith].
  destruct (N.eqb_spec (N_of_ascii "$") c) as [<-|]; [discriminate Hc|].
  reflexivity.
Qed.

Lemma index_key_proto (i : nat) : proto_key (index_key i) = false.
Proof.
  destruct (index_key_head i) as (c & rest & -> & Hc).
  unfold proto_key. cbn [lit list_ascii_of_string map JsString.eqb].
  destruct (N.eqb_spec c (N_of_ascii "_")) as [->|]; [discriminate Hc|].
  reflexivity.
Qed.

Lemma lit_inj (a b : string) : lit a = lit b -> a = b.
Proof.
  unfold lit. intros H.
  rewrite <- (string_of_list_ascii_of_string a),
          <- (string_of_list_ascii_of_string b).
  f_equal. revert H.
  generalize (list_ascii_of_string a) (list_ascii_of_string b).
  intros l. induction l as [|x l IH]; intros [|y l']; simpl;
    try discriminate; [reflexivity|].
  intros H. injection H as Hxy Hl. f_equal; [|now apply IH].
  rewrite <- (ascii_N_embedding x), <- (ascii_N_embedding y). now f_equal.
Qed.

Lemma index_key_inj (i j : nat) : index_key i = index_key j -> i = j.
Proof.
  unfold index_key. intros H. apply lit_inj in H.
  apply DecimalNat.Unsigned.to_uint_inj.
  apply (f_equal NilEmpty.uint_of_string) in H.
  rewrite !NilEmpty.usu in H. now injection H.
Qed.

(** ** No unsafe content at any depth *)

Lemma deep_clean_obj (proto : option JsValue)
    (props : list (jsstring * JsValue)) :
  deep_clean (JObj proto props)
  = match proto with Some p => deep_clean p | None => true end &&
    forallb (fun kv => negb (operator_key (fst kv)) && deep_clean (snd kv))
      props.
Proof. reflexivity. Qed.

Lemma forallb_set_prop (ok : jsstring * JsValue -> bool)
    (ps : list (jsstring * JsValue)) (key : jsstring) (v : JsValue) :
  forallb ok ps = true -> ok (key, v) = true ->
  forallb ok (set_prop ps key v) = true.
Proof.
  intros Hps Hv. induction ps as [|[k w] ps IH]; cbn [set_prop forallb].
  - now rewrite Hv.
  - cbn [forallb] in Hps. apply andb_prop in Hps as [Hk Hps].
    destruct (JsString.eqb k key) eqn:E; cbn [forallb].
    + apply eqb_eq in E as ->. now rewrite Hv, Hps.
    + now rewrite Hk, IH.
Qed.

Lemma js_set_deep_clean (o : JsValue) (key : jsstring) (v : JsValue) :
  deep_clean o = true -> operator_key key = false -> deep_clean v = true ->
  deep_clean (js_set o key v) = true.
Proof.
  intros Ho Hkey Hv. destruct o as [| | | | | |proto props]; try exact Ho.
  unfold js_set. rewrite deep_clean_obj in Ho.
  apply andb_prop in Ho as [Hproto Hprops].
  destruct (JsString.eqb key (lit "__proto__")).
  - destruct (is_object_type v).
    + now rewrite deep_clean_obj, Hv, Hprops.
    + now rewrite deep_clean_obj, Hproto, Hprops.
  - rewrite deep_clean_obj, Hproto. apply forallb_set_prop; [exact Hprops|].
    cbn [fst snd]. now rewrite Hkey, Hv.
Qed.

Lemma sanitize_props_deep_clean (ps : list (jsstring * JsValue)) :
  Forall (fun kv => deep_clean (sanitize_value (snd kv)) = true) ps ->
  forall acc, deep_clean acc = true ->
    deep_clean (sanitize_props ps acc) = true.
Proof.
  induction 1 as [|[key v] ps Hv _ IH]; intros acc Hacc; [exact Hacc|].
  cbn [sanitize_props]. destruct (startsWith key (lit "$")) eqn:E.
  - now apply IH.
  - apply IH. now apply js_set_deep_clean.
Qed.

Lemma sanitize_elems_deep_clean (vs : list JsValue) :
  Forall (fun v => deep_clean (sanitize_value v) = true) vs ->
  forall i acc, deep_clean acc = true ->
    deep_clean (sanitize_elems i vs acc) = true.
Proof.
  induction 1 as [|v vs Hv _ IH]; intros i acc Hacc; [exact Hacc|].
  cbn [sanitize_elems]. apply IH.
  apply js_set_deep_clean; [exact Hacc | apply index_key_operator | exact Hv].
Qed.

Lemma clean_sanitized_text (s : jsstring) :
  clean_string (sanitized_text s) = true.
Proof.
  unfold clean_string. now rewrite sanitized_no_tag, sanitized_no_operator.
Qed.

Lemma sanitize_value_deep_clean (v : JsValue) :
  deep_clean (sanitize_value v) = true.
Proof.
  induction v as [| |b|x|s|elems IH|proto props _ IH] using JsValue_deep_ind;
    try reflexivity.
  - apply clean_sanitized_text.
  - cbn [sanitize_value]. rewrite sanitizeObject_arr.
    now apply sanitize_elems_deep_clean.
  - cbn [sanitize_value]. rewrite sanitizeObject_obj.
    now apply sanitize_props_deep_clean.
Qed.

(** X11. Whatever the payload (anything but a bare string, which
    [sanitizeObject] returns as it is), the sanitized payload is clean at
    every depth: no string in it, however deeply nested, holds a
    markup-tag-like substring or a dollar-prefixed token, and no key in it
    begins with [$]; this includes the prototype that a key [__proto__] of
    the payload has set. *)
Theorem sanitizeObject_deep_clean :
  forall v : JsValue,
    is_string v = false -> deep_clean (sanitizeObject v) = true.
Proof.
  intros v Hv. pose proof (sanitize_value_deep_clean v) as H.
  destruct v; try exact H; try reflexivity. discriminate Hv.
Qed.

Lemma sanitizeObject_deep_clean_witness :
  deep_clean
    (sanitizeObject
       (obj [("title", str "<b>x</b>");
             ("meta", obj [("$gt", JNum 1); ("note", str "a $ne b")]);
             ("tags", JArr [str "<i>t</i>"; obj [("$where", str "1")]]);
             ("__proto__", obj [("title", str "<script>x</script>y")])]))
  = true.
Proof.
  apply (@sanitizeObject_deep_clean
           (obj [("title", str "<b>x</b>");
                 ("meta", obj [("$gt", JNum 1); ("note", str "a $ne b")]);
                 ("tags", JArr [str "<i>t</i>"; obj [("$where", str "1")]]);
                 ("__proto__", obj [("title", str "<script>x</script>y")])])).
  reflexivity.
Defined.

(** ** What the sanitizer keeps *)

Lemma existsb_eqb_In (key : jsstring) (keys : list jsstring) :
  existsb (JsString.eqb key) keys = true <-> In key keys.
Proof.
  rewrite existsb_exists. split.
  - intros (k & Hin & Hk). apply eqb_eq in Hk. now subst.
  - intros Hin. exists key. split; [exact Hin | apply eqb_refl].
Qed.

Lemma distinct_NoDup (keys : list jsstring) :
  distinct keys = true <-> NoDup keys.
Proof.
  induction keys as [|k keys IH]; cbn [distinct].
  - split; [constructor | reflexivity].
  - rewrite andb_true_iff, negb_true_iff, IH. split.
    + intros [Hk Hnd]. constructor; [|exact Hnd].
      intros Hin. apply existsb_eqb_In in Hin. congruence.
    + intros Hnd. inversion Hnd as [|k' keys' Hk Hnd']; subst. split;
        [|exact Hnd'].
      destruct (existsb (JsString.eqb k) keys) eqn:E; [|reflexivity].
      apply existsb_eqb_In in E. contradiction.
Qed.

(** A key that the object does not have yet goes last. *)
Lemma set_prop_new (ps : list (jsstring * JsValue)) (key : jsstring)
    (v : JsValue) :
  ~ In key (map fst ps) -> set_prop ps key v = ps ++ [(key, v)].
Proof.
  induction ps as [|[k w] ps IH]; intros Hin; [reflexivity|].
  cbn [set_prop]. cbn [map fst In] in Hin.
  destruct (JsString.eqb k key) eqn:E.
  - apply eqb_eq in E. tauto.
  - cbn [app]. rewrite IH by tauto. reflexivity.
Qed.

Lemma js_set_new (acc : list (jsstring * JsValue)) (key : jsstring)
    (v : JsValue) :
  proto_key key = false -> ~ In key (map fst acc) ->
  js_set (JObj None acc) key v = JObj None (acc ++ [(key, v)]).
Proof.
  unfold proto_key, js_set. intros -> Hin. now rewrite set_prop_new.
Qed.

Lemma sanitize_elems_indexed (vs : list JsValue) :
  forall i acc,
    (forall k, In k (map fst acc) -> exists j, j < i /\ k = index_key j) ->
    sanitize_elems i vs (JObj None acc)
    = JObj None (acc ++ indexed i (map sanitize_value vs)).
Proof.
  induction vs as [|v vs IH]; intros i acc Hacc; cbn [sanitize_elems].
  - cbn [map indexed]. now rewrite app_nil_r.
  - rewrite js_set_new; [|apply index_key_proto|].
    + rewrite IH.
      * cbn [map indexed]. now rewrite <- app_assoc.
      * intros k. rewrite map_app, in_app_iff. cbn [map fst In].
        intros [Hk|[<-|[]]].
        -- destruct (Hacc _ Hk) as (j & Hj & ->). exists j. split; [lia|easy].
        -- exists i. split; [lia | reflexivity].
    + intros Hin. destruct (Hacc _ Hin) as (j & Hj & E).
      apply index_key_inj in E. lia.
Qed.

Lemma indexed_keys (f : JsValue -> JsValue) (vs : list JsValue) :
  forall i, map fst (indexed i (map f vs)) = map fst (indexed i vs).
Proof.
  induction vs as [|v vs IH]; intros i; [reflexivity|].
  cbn [map indexed fst]. now rewrite IH.
Qed.

(** X12. An array goes through the loop over the keys of an object: the
    result is the plain object whose keys are the decimal indices of the
    array, in order, each with the sanitized element.  The test for a
    leading [$] never drops an element, and no element is lost or moved. *)
Theorem sanitizeObject_array_by_index :
  forall elems : list JsValue,
    sanitizeObject (JArr elems)
    = JObj None (indexed 0 (map sanitize_value elems)) /\
    Object_keys (sanitizeObject (JArr elems)) = Object_keys (JArr elems) /\
    forall key, In key (map fst (own_props (JArr elems))) ->
                startsWith key (lit "$") = false.
Proof.
  intros elems.
  assert (E : sanitizeObject (JArr elems)
              = JObj None (indexed 0 (map sanitize_value elems))).
  { rewrite sanitizeObject_arr.
    now rewrite (@sanitize_elems_indexed elems 0 []) by (intros k []). }
  split; [exact E|]. split.
  - rewrite E. unfold Object_keys. cbn [is_nullish own_props].
    now rewrite indexed_keys.
  - clear E. cbn [own_props]. generalize 0. induction elems as [|v vs IH]; intros i key;
      cbn [indexed map fst In]; [intros []|].
    intros [<-|Hin]; [apply index_key_operator | now apply (IH (S i))].
Qed.

Lemma sanitize_props_kept (ps : list (jsstring * JsValue)) :
  forall acc,
    NoDup (map fst acc ++ map fst ps) ->
    existsb proto_key (map fst ps) = false ->
    sanitize_props ps (JObj None acc) = JObj None (acc ++ kept_props ps).
Proof.
  unfold kept_props.
  induction ps as [|[key v] ps IH]; intros acc Hnd Hproto;
    cbn [sanitize_props].
  - cbn [filter map]. now rewrite app_nil_r.
  - cbn [map fst existsb] in Hnd, Hproto.
    apply orb_false_elim in Hproto as [Hkey Hproto].
    cbn [filter fst]. unfold operator_key at 1.
    destruct (startsWith key (lit "$")); cbn [negb].
    + apply IH; [|exact Hproto]. now apply NoDup_remove_1 in Hnd.
    + rewrite js_set_new; [|exact Hkey|].
      * rewrite IH; [|rewrite map_app, <- app_assoc; exact Hnd|exact Hproto].
        cbn [map fst snd]. now rewrite <- app_assoc.
      * apply NoDup_remove_2 in Hnd. rewrite in_app_iff in Hnd. tauto.
Qed.

(** X13. On an object whose keys are distinct and none of which is
    [__proto__], [sanitizeObject] is a filter and a map: it keeps exactly
    the properties whose key does not begin with [$], in their order, each
    with its sanitized value (a string through [sanitizeString], an object,
    an array or [null] through [sanitizeObject], anything else as it is),
    under the default prototype. *)
Theorem sanitizeObject_keeps_other_keys :
  forall (pr : option JsValue) (ps : list (jsstring * JsValue)),
    distinct (map fst ps) = true ->
    existsb proto_key (map fst ps) = false ->
    sanitizeObject (JObj pr ps) = JObj None (kept_props ps).
Proof.
  intros pr ps Hd Hproto. rewrite sanitizeObject_obj.
  rewrite sanitize_props_kept; [reflexivity| |exact Hproto].
  now apply distinct_NoDup.
Qed.

Lemma sanitizeObject_keeps_other_keys_witness :
  sanitizeObject
    (obj [("title", str "<b>Buy</b> milk"); ("$set", obj [("status", str "x")]);
          ("priority", JNum 2); ("description", JNull)])
  = obj [("title", str "Buy milk"); ("priority", JNum 2);
         ("description", JNull)].
Proof.
  exact (@sanitizeObject_keeps_other_keys None
           [(lit "title", str "<b>Buy</b> milk");
            (lit "$set", obj [("status", str "x")]);
            (lit "priority", JNum 2); (lit "description", JNull)]
           eq_refl eq_refl).
Defined.

(** ** A second pass changes nothing *)

Lemma sanitized_form_obj (proto : option JsValue)
    (props : list (jsstring * JsValue)) :
  sanitized_form (JObj proto props)
  = match proto with Some _ => false | None => true end &&
    distinct (map fst props) &&
    forallb (fun kv => negb (operator_key (fst kv)) &&
                       negb (proto_key (fst kv)) &&
                       sanitized_form (snd kv)) props.
Proof. reflexivity. Qed.

Lemma kept_props_fixed (ps : list (jsstring * JsValue)) :
  Forall (fun kv => sanitized_form (snd kv) = true ->
                    sanitize_value (snd kv) = snd kv) ps ->
  forallb (fun kv => negb (operator_key (fst kv)) &&
                     negb (proto_key (fst kv)) &&
                     sanitized_form (snd kv)) ps = true ->
  kept_props ps = ps.
Proof.
  unfold kept_props.
  induction 1 as [|[key v] ps Hv _ IH]; intros Hall; [reflexivity|].
  cbn [forallb fst snd] in Hall, Hv.
  apply andb_prop in Hall as [Hkv Hall]. apply andb_prop in Hkv as [Hk Hform].
  apply andb_prop in Hk as [Hop _].
  cbn [filter fst]. rewrite Hop. cbn [map fst snd].
  now rewrite (Hv Hform), (IH Hall).
Qed.

(** The sanitizer returns a value in sanitized form as it is. *)
Lemma sanitized_form_fixed (v : JsValue) :
  sanitized_form v = true -> sanitize_value v = v.
Proof.
  induction v as [| |b|x|s|elems _|proto props _ IH] using JsValue_deep_ind;
    try reflexivity.
  - cbn [sanitized_form sanitize_value sanitizeString]. unfold clean_string.
    intros H. apply andb_prop in H as [Ht Ho]. apply negb_true_iff in Ht, Ho.
    now rewrite sanitized_text_fixed.
  - discriminate.
  - rewrite sanitized_form_obj. intros H.
    apply andb_prop in H as [H Hall]. apply andb_prop in H as [Hproto Hd].
    destruct proto; [discriminate|].
    cbn [sanitize_value]. rewrite sanitizeObject_obj.
    rewrite (@sanitize_props_kept props []).
    + rewrite app_nil_l. now rewrite kept_props_fixed.
    + now apply distinct_NoDup.
    + clear -Hall. induction props as [|[k w] props IHp]; [reflexivity|].
      cbn [forallb fst] in Hall. apply andb_prop in Hall as [Hkv Hall].
      apply andb_prop in Hkv as [Hk _]. apply andb_prop in Hk as [_ Hp].
      cbn [map fst existsb]. apply negb_true_iff in Hp.
      now rewrite Hp, IHp.
Qed.

Lemma indexed_keys_from (vs : list JsValue) :
  forall i k, In k (map fst (indexed i vs)) ->
    exists j, i <= j /\ k = index_key j.
Proof.
  induction vs as [|v vs IH]; intros i k; cbn [indexed map fst In];
    [intros []|].
  intros [<-|Hin].
  - exists i. split; [lia | reflexivity].
  - destruct (IH _ _ Hin) as (j & Hj & ->). exists j. split; [lia|easy].
Qed.

Lemma indexed_form (vs : list JsValue) :
  Forall (fun v => sanitized_form v = true) vs ->
  forall i,
    distinct (map fst (indexed i vs)) = true /\
    forallb (fun kv => negb (operator_key (fst kv)) &&
                       negb (proto_key (fst kv)) &&
                       sanitized_form (snd kv)) (indexed i vs) = true.
Proof.
  induction 1 as [|v vs Hv _ IH]; intros i; [now split|].
  destruct (IH (S i)) as [Hd Hall].
  cbn [indexed map fst snd distinct forallb]. split.
  - rewrite Hd, andb_true_r. apply negb_true_iff.
    destruct (existsb _ _) eqn:E; [|reflexivity].
    apply existsb_eqb_In, indexed_keys_from in E as (j & Hj & E).
    apply index_key_inj in E. lia.
  - now rewrite index_key_operator, index_key_proto, Hv, Hall.
Qed.

Lemma set_prop_keys_eq (ps : list (jsstring * JsValue)) (key : jsstring)
    (v : JsValue) :
  In key (map fst ps) -> map fst (set_prop ps key v) = map fst ps.
Proof.
  induction ps as [|[k w] ps IH]; cbn [map fst In set_prop]; [intros []|].
  intros Hin. destruct (JsString.eqb k key) eqn:E; [reflexivity|].
  cbn [map fst]. f_equal. apply IH. destruct Hin as [->|Hin]; [|exact Hin].
  now rewrite eqb_refl in E.
Qed.

Lemma set_prop_distinct (ps : list (jsstring * JsValue)) (key : jsstring)
    (v : JsValue) :
  distinct (map fst ps) = true -> distinct (map fst (set_prop ps key v)) = true.
Proof.
  intros Hd.
  destruct (existsb (JsString.eqb key) (map fst ps)) eqn:E.
  - apply existsb_eqb_In in E. now rewrite set_prop_keys_eq.
  - assert (Hin : ~ In key (map fst ps))
      by (intros Hin; apply existsb_eqb_In in Hin; congruence).
    rewrite set_prop_new, map_app by exact Hin. cbn [map fst].
    apply distinct_NoDup. apply distinct_NoDup in Hd.
    apply NoDup_app; [exact Hd | repeat constructor; intros [] |].
    intros k Hk [<-|[]]. contradiction.
Qed.

Lemma sanitize_props_form (ps : list (jsstring * JsValue)) :
  Forall (fun kv => no_proto_key (snd kv) = true ->
                    sanitized_form (sanitize_value (snd kv)) = true) ps ->
  forallb (fun kv => negb (proto_key (fst kv)) && no_proto_key (snd kv)) ps
    = true ->
  forall acc,
    sanitized_form (JObj None acc) = true ->
    sanitized_form (sanitize_props ps (JObj None acc)) = true.
Proof.
  induction 1 as [|[key v] ps Hv _ IH]; intros Hall acc Hacc; [exact Hacc|].
  cbn [forallb fst snd] in Hall, Hv.
  apply andb_prop in Hall as [Hkv Hall]. apply andb_prop in Hkv as [Hp Hn].
  cbn [sanitize_props]. destruct (startsWith key (lit "$")) eqn:Hop.
  - now apply IH.
  - unfold js_set. apply negb_true_iff in Hp. unfold proto_key in Hp.
    rewrite Hp. apply IH; [exact Hall|].
    rewrite sanitized_form_obj in *. cbn [andb] in *.
    apply andb_prop in Hacc as [Hd Hacc].
    rewrite set_prop_distinct by exact Hd. cbn [andb].
    apply forallb_set_prop; [exact Hacc|]. cbn [fst snd].
    unfold operator_key, proto_key. now rewrite Hop, Hp, (Hv Hn).
Qed.

(** Without a key [__proto__] anywhere in it, a property value leaves the
    sanitizer in sanitized form. *)
Lemma sanitize_value_form (v : JsValue) :
  no_proto_key v = true -> sanitized_form (sanitize_value v) = true.
Proof.
  induction v as [| |b|x|s|elems IH|proto props _ IH] using JsValue_deep_ind;
    try reflexivity.
  - intros _. apply clean_sanitized_text.
  - intros Hn. cbn [sanitize_value]. rewrite sanitizeObject_arr.
    rewrite (@sanitize_elems_indexed elems 0 []) by (intros k []).
    rewrite app_nil_l, sanitized_form_obj. cbn [andb].
    assert (Hall : Forall (fun v => sanitized_form v = true)
                     (map sanitize_value elems)).
    { cbn [no_proto_key] in Hn. clear -IH Hn.
      induction IH as [|v vs Hv _ IHvs]; [constructor|].
      cbn [forallb] in Hn. apply andb_prop in Hn as [Hnv Hn].
      cbn [map]. constructor; [now apply Hv | now apply IHvs]. }
    destruct (indexed_form Hall 0) as [Hd Hf]. now rewrite Hd, Hf.
  - intros Hn. cbn [sanitize_value]. rewrite sanitizeObject_obj.
    apply sanitize_props_form; [exact IH | exact Hn | reflexivity].
Qed.

(** X14. A second pass of [sanitizeObject] changes nothing, for every
    value in which no object has an own key [__proto__]: the first pass
    leaves clean strings and plain objects with distinct keys, none
    beginning with [$], on which the sanitizer has nothing to do.  A key
    [__proto__] breaks this: the first pass turns it into the prototype
    of the result, which the second pass does not copy. *)
Theorem sanitizeObject_idempotent :
  forall v : JsValue,
    no_proto_key v = true ->
    sanitizeObject (sanitizeObject v) = sanitizeObject v.
Proof.
  intros v Hn.
  assert (H : sanitize_value (sanitize_value v) = sanitize_value v)
    by now apply sanitized_form_fixed, sanitize_value_form.
  destruct v as [| | | | |elems|pr ps]; try reflexivity.
  - cbn [sanitize_value] in H.
    pose proof (sanitizeObject_shape (JArr elems)) as Hs. cbn [isArray] in Hs.
    destruct (sanitizeObject (JArr elems)); try discriminate Hs. exact H.
  - cbn [sanitize_value] in H.
    pose proof (sanitizeObject_shape (JObj pr ps)) as Hs.
    cbn [isArray shape_of] in Hs.
    destruct (sanitizeObject (JObj pr ps)); try discriminate Hs. exact H.
Qed.

Lemma sanitizeObject_idempotent_witness :
  sanitizeObject
    (sanitizeObject
       (obj [("title", str "<<b>b>x"); ("$or", JArr []);
             ("tags", JArr [str "a$$nene"; obj [("$k", JNum 1); ("k", JNull)]])]))
  = sanitizeObject
      (obj [("title", str "<<b>b>x"); ("$or", JArr []);
            ("tags", JArr [str "a$$nene"; obj [("$k", JNum 1); ("k", JNull)]])]).
Proof.
  apply (@sanitizeObject_idempotent
           (obj [("title", str "<<b>b>x"); ("$or", JArr []);
                 ("tags",
                  JArr [str "a$$nene"; obj [("$k", JNum 1); ("k", JNull)]])])).
  reflexivity.
Defined.

Example sanitizeObject_second_pass_drops_prototype :
  let v := obj [("__proto__", obj [("title", str "Buy milk")])] in
  sanitizeObject v = JObj (Some (obj [("title", str "Buy milk")])) [] /\
  sanitizeObject (sanitizeObject v) = JObj None [].
Proof. split; reflexivity. Qed.

(* ================================================================== *)
(** * What the validators let through *)

Lemma push_nonempty (errors : list jsstring) (m : string) :
  (0 <? List.length (push errors m)) = true.
Proof.
  unfold push. rewrite length_app. cbn [List.length].
  apply Nat.ltb_lt. lia.
Qed.

Lemma validateTaskInput_Next (req req' : Request) :
  validateTaskInput req = Next req' ->
  let payload := sanitizeObject (body req) in
  req' = mkRequest (params_id req) payload /\
  title_required_fails (js_get payload (lit "title")) = false /\
  negb (is_undefined (js_get payload (lit "status")))
  && status_enum_fails (js_get payload (lit "status")) = false /\
  negb (is_undefined (js_get payload (lit "description")))
  && negb (is_string (js_get payload (lit "description"))) = false.
Proof.
  unfold validateTaskInput. cbn [body params_id]. cbv zeta. intros H.
  set (payload := sanitizeObject (body req)) in *. destruct (is_nullish payload); [discriminate H|].
  destruct (title_required_fails _), (negb _ && status_enum_fails _),
    (negb _ && negb _);
    rewrite ?push_nonempty in H; try discriminate H.
  cbn in H. injection H as <-. repeat split.
Qed.

Lemma validateTaskUpdate_Next (req req' : Request) :
  validateTaskUpdate req = Next req' ->
  let payload := sanitizeObject (body req) in
  req' = mkRequest (params_id req) payload /\
  existsb (fun field => existsb (JsString.eqb field) validFields)
    (map fst (own_props payload)) = true /\
  negb (is_undefined (js_get payload (lit "title")))
  && title_nonempty_fails (js_get payload (lit "title")) = false /\
  negb (is_undefined (js_get payload (lit "status")))
  && status_enum_fails (js_get payload (lit "status")) = false /\
  negb (is_undefined (js_get payload (lit "description")))
  && negb (is_string (js_get payload (lit "description"))) = false.
Proof.
  unfold validateTaskUpdate. cbn [body params_id]. cbv zeta. intros H.
  set (payload := sanitizeObject (body req)) in *. destruct (is_nullish payload); [discriminate H|].
  destruct (existsb _ (map fst (own_props payload))),
    (List.length (map fst (own_props payload)) =? 0),
    (negb _ && title_nonempty_fails _), (negb _ && status_enum_fails _),
    (negb _ && negb _);
    cbn [negb orb] in H; rewrite ?push_nonempty in H; try discriminate H.
  cbn in H. injection H as <-. repeat split.
Qed.

Lemma status_accepted (status : JsValue) :
  negb (is_undefined status) && status_enum_fails status = false ->
  In status [JUndefined; str "pending"; str "completed"].
Proof.
  destruct status as [| | | |s| |]; try discriminate; [now left|].
  cbn [is_undefined negb andb status_enum_fails existsb]. intros H.
  apply negb_false_iff, orb_prop in H as [H|H].
  - apply eqb_eq in H as ->. right. now left.
  - rewrite orb_false_r in H. apply eqb_eq in H as ->. right. right. now left.
Qed.

Lemma index_key_field (i : nat) :
  existsb (JsString.eqb (index_key i)) validFields = false.
Proof.
  destruct (index_key_head i) as (c & rest & -> & Hc).
  unfold validFields. cbn [existsb lit list_ascii_of_string map JsString.eqb].
  destruct (N.eqb_spec c (N_of_ascii "t")) as [->|]; [discriminate Hc|].
  destruct (N.eqb_spec c (N_of_ascii "s")) as [->|]; [discriminate Hc|].
  destruct (N.eqb_spec c (N_of_ascii "d")) as [->|]; [discriminate Hc|].
  reflexivity.
Qed.

Lemma indexed_no_field (vs : list JsValue) :
  forall i,
    existsb (fun field => existsb (JsString.eqb field) validFields)
      (map fst (indexed i vs)) = false.
Proof.
  induction vs as [|v vs IH]; intros i; [reflexivity|].
  cbn [indexed map fst existsb]. now rewrite index_key_field, IH.
Qed.

(** X15. What [validateTaskInput] hands to [next] is the request with the
    sanitized payload, and that payload is fit for the store: it is clean
    at every depth, its title is a string that is not empty after
    trimming, its status is absent or one of the two enumerated values,
    and its description is absent or a string. *)
Theorem validateTaskInput_lets_through_valid_payloads :
  forall req req' : Request,
    validateTaskInput req = Next req' ->
    params_id req' = params_id req /\
    body req' = sanitizeObject (body req) /\
    deep_clean (body req') = true /\
    (exists s, js_get (body req') (lit "title") = JStr s /\ trim s <> []) /\
    In (js_get (body req') (lit "status"))
      [JUndefined; str "pending"; str "completed"] /\
    is_undefined (js_get (body req') (lit "description"))
    || is_string (js_get (body req') (lit "description")) = true.
Proof.
  intros req req' H.
  apply validateTaskInput_Next in H as (-> & Ht & Hs & Hd). cbn [body params_id].
  split; [reflexivity|]. split; [reflexivity|]. split; [|split; [|split]].
  - pose proof (sanitize_value_deep_clean (body req)) as Hc.
    destruct (body req); try exact Hc; try reflexivity. discriminate Ht.
  - unfold title_required_fails in Ht. apply orb_false_elim in Ht as [_ Ht].
    destruct (js_get _ (lit "title")) as [| | | |s| |]; try discriminate Ht.
    exists s. split; [reflexivity|]. intros E. now rewrite E in Ht.
  - now apply status_accepted.
  - destruct (js_get _ (lit "description")); try reflexivity; discriminate Hd.
Qed.

Lemma validateTaskInput_lets_through_valid_payloads_witness :
  exists s,
    js_get (obj [("title", str "Buy milk"); ("status", str "completed")])
      (lit "title") = JStr s /\ trim s <> [].
Proof.
  exact (proj1 (proj2 (proj2 (proj2
           (@validateTaskInput_lets_through_valid_payloads
              (mkRequest (lit "")
                 (obj [("title", str "<i>Buy</i> milk");
                       ("$where", str "1"); ("status", str "completed")]))
              (mkRequest (lit "")
                 (obj [("title", str "Buy milk"); ("status", str "completed")]))
              eq_refl))))).
Defined.

(** X16. What [validateTaskUpdate] hands to [next] is the request with the
    sanitized payload; that payload is clean at every depth, has at least
    one of the keys [title], [status] and [description], a title that is
    absent or a string not empty after trimming, a status that is absent or
    one of the two enumerated values, and a description that is absent or a
    string.  Its other keys are still there: the validator removes
    nothing. *)
Theorem validateTaskUpdate_lets_through_valid_payloads :
  forall req req' : Request,
    validateTaskUpdate req = Next req' ->
    params_id req' = params_id req /\
    body req' = sanitizeObject (body req) /\
    deep_clean (body req') = true /\
    (exists key, In key (map fst (own_props (body req'))) /\
                 In key validFields) /\
    match js_get (body req') (lit "title") with
    | JUndefined => True
    | JStr s => trim s <> []
    | _ => False
    end /\
    In (js_get (body req') (lit "status"))
      [JUndefined; str "pending"; str "completed"] /\
    is_undefined (js_get (body req') (lit "description"))
    || is_string (js_get (body req') (lit "description")) = true.
Proof.
  intros req req' H.
  apply validateTaskUpdate_Next in H as (-> & Hf & Ht & Hs & Hd).
  cbn [body params_id].
  split; [reflexivity|]. split; [reflexivity|].
  split; [|split; [|split; [|split]]].
  - pose proof (sanitize_value_deep_clean (body req)) as Hc.
    destruct (body req) as [| | | |s| |]; try exact Hc; try reflexivity.
    cbn [sanitizeObject own_props] in Hf.
    now rewrite indexed_no_field in Hf.
  - apply existsb_exists in Hf as (key & Hin & Hkey).
    exists key. split; [exact Hin|]. now apply existsb_eqb_In.
  - destruct (js_get _ (lit "title")) as [| | | |s| |]; try discriminate Ht;
      [exact I|].
    cbn [is_undefined negb andb title_nonempty_fails] in Ht.
    intros E. now rewrite E in Ht.
  - now apply status_accepted.
  - destruct (js_get _ (lit "description")); try reflexivity; discriminate Hd.
Qed.

Lemma validateTaskUpdate_lets_through_valid_payloads_witness :
  body (mkRequest (lit "507f1f77bcf86cd799439011")
          (obj [("status", str "completed"); ("createdAt", JNum 0)]))
  = sanitizeObject (obj [("status", str "completed"); ("$set", JNull);
                         ("createdAt", JNum 0)]).
Proof.
  exact (proj1 (proj2
           (@validateTaskUpdate_lets_through_valid_payloads
              (mkRequest (lit "507f1f77bcf86cd799439011")
                 (obj [("status", str "completed"); ("$set", JNull);
                       ("createdAt", JNum 0)]))
              (mkRequest (lit "507f1f77bcf86cd799439011")
                 (obj [("status", str "completed"); ("createdAt", JNum 0)]))
              eq_refl))).
Defined.

(* ================================================================== *)
(** * The routes and the Task model *)

(** Mapping the outcome of a handler changes neither its calls of the
    model nor the state they leave. *)
Lemma run_on_outcome (S : Type) (step : StoreCall -> S -> Settled * S)
    (f : Outcome -> Outcome) (h : Handler) :
  forall st,
    run step st (on_outcome f h)
    = (f (fst (fst (run step st h))), snd (fst (run step st h)),
       snd (run step st h)).
Proof.
  induction h as [o|call k IH]; intros st; cbn [on_outcome run].
  - reflexivity.
  - destruct (step call st) as [r st']. rewrite IH.
    destruct (run step st' (k r)) as [[o st''] calls]. reflexivity.
Qed.

Lemma run_catch_400 (S : Type) (step : StoreCall -> S -> Settled * S)
    (st : S) (err : JsValue) :
  snd (run step st (catch_400 err)) = [] /\
  snd (fst (run step st (catch_400 err))) = st.
Proof. unfold catch_400. destruct (is_nullish err); now split. Qed.

(** Each handler calls the model once, with the identifier and the payload
    of the request it is given. *)
Lemma handler_calls (S : Type) (step : StoreCall -> S -> Settled * S) (st : S)
    (req : Request) :
  snd (run step st (create_task req)) = [Task_create (body req)] /\
  snd (run step st (asyncHandler get_all_tasks req)) = [Task_find] /\
  snd (run step st (get_one_task req)) = [Task_findById (params_id req)] /\
  snd (run step st (update_task req))
  = [Task_findByIdAndUpdate (params_id req) (body req)] /\
  snd (run step st (delete_task req))
  = [Task_findByIdAndDelete (params_id req)].
Proof.
  unfold asyncHandler. rewrite run_on_outcome. cbn [snd].
  unfold create_task, get_all_tasks, get_one_task, update_task, delete_task.
  cbn [run].
  assert (Hcatch : forall st' err call,
            snd (let '(o, st'', calls) := run step st' (catch_400 err) in
                 (o, st'', call :: calls)) = [call]).
  { intros st' err call. destruct (run_catch_400 step st' err) as [Hc _].
    destruct (run step st' (catch_400 err)) as [[o st''] calls].
    cbn [snd] in Hc |- *. now rewrite Hc. }
  repeat split.
  - destruct (step (Task_create (body req)) st) as [[task|err] st'];
      [reflexivity | apply Hcatch].
  - destruct (step Task_find st) as [[task|err] st']; reflexivity.
  - destruct (step (Task_findById (params_id req)) st) as [[task|err] st'];
      [destruct (negb (truthy task)); reflexivity | apply Hcatch].
  - destruct (step (Task_findByIdAndUpdate (params_id req) (body req)) st)
      as [[task|err] st'];
      [destruct (negb (truthy task)); reflexivity | apply Hcatch].
  - destruct (step (Task_findByIdAndDelete (params_id req)) st)
      as [[task|err] st'];
      [destruct (negb (truthy task)); reflexivity | apply Hcatch].
Qed.

(** X17. Through every route, a request leads to at most one call of the
    Task model: exactly one when the middleware of the route lets the
    request through, none when the identifier or the payload is refused.
    The payload that [POST /] and [PUT /:id] hand to the model is the
    sanitized one, and the identifier is the one of the request. *)
Theorem routes_call_the_model_once :
  forall (ObjectId_isValid : jsstring -> bool) (NODE_ENV : JsValue)
         (m : Method) (req : Request) (S : Type)
         (step : StoreCall -> S -> Settled * S) (st : S),
    snd (run step st (app ObjectId_isValid NODE_ENV m req))
    = store_calls ObjectId_isValid m req /\
    List.length (store_calls ObjectId_isValid m req) <= 1.
Proof.
  intros isValid env m req S step st. split.
  - unfold app. rewrite run_on_outcome. cbn [snd].
    destruct (handler_calls step st req) as (Hc & Hg & Ho & Hu & Hd).
    destruct m; unfold router, store_calls, accepted; cbn [route].
    + destruct (validateTaskInput req) as [res|req'|err|err] eqn:E;
        try reflexivity.
      apply validateTaskInput_Next in E as (-> & _).
      destruct (handler_calls step st
                  (mkRequest (params_id req) (sanitizeObject (body req))))
        as (Hc' & _).
      exact Hc'.
    + exact Hg.
    + unfold validateObjectId.
      destruct (isValid (params_id req)); cbn [negb]; [exact Ho | reflexivity].
    + unfold validateObjectId.
      destruct (isValid (params_id req)); cbn [negb andb]; [|reflexivity].
      destruct (validateTaskUpdate req) as [res|req'|err|err] eqn:E;
        try reflexivity.
      apply validateTaskUpdate_Next in E as (-> & _).
      destruct (handler_calls step st
                  (mkRequest (params_id req) (sanitizeObject (body req))))
        as (_ & _ & _ & Hu' & _).
      exact Hu'.
    + unfold validateObjectId.
      destruct (isValid (params_id req)); cbn [negb]; [exact Hd | reflexivity].
  - destruct m; unfold store_calls;
      repeat match goal with
             | |- context [if ?c then _ else _] => destruct c
             end; cbn [List.length]; lia.
Qed.

(** A request that the middleware of its route lets through reaches the
    handler of the route, with the sanitized payload where the route has
    a validator of the payload. *)
Lemma router_accepted (ObjectId_isValid : jsstring -> bool) (m : Method)
    (req : Request) (call : StoreCall) :
  store_calls ObjectId_isValid m req = [call] ->
  let sanitized := mkRequest (params_id req) (sanitizeObject (body req)) in
  router ObjectId_isValid m req
  = match m with
    | POST => create_task sanitized
    | GET => asyncHandler get_all_tasks req
    | GET_id => get_one_task req
    | PUT_id => update_task sanitized
    | DELETE_id => delete_task req
    end /\
  call = match m with
         | POST => Task_create (sanitizeObject (body req))
         | GET => Task_find
         | GET_id => Task_findById (params_id req)
         | PUT_id =>
             Task_findByIdAndUpdate (params_id req) (sanitizeObject (body req))
         | DELETE_id => Task_findByIdAndDelete (params_id req)
         end.
Proof.
  cbv zeta. destruct m; unfold store_calls, accepted, router; cbn [route];
    unfold validateObjectId.
  - destruct (validateTaskInput req) as [res|req'|err|err] eqn:E;
      try discriminate.
    apply validateTaskInput_Next in E as (-> & _).
    intros H. injection H as <-. now split.
  - intros H. injection H as <-. now split.
  - destruct (ObjectId_isValid (params_id req)); [|discriminate].
    intros H. injection H as <-. now split.
  - destruct (ObjectId_isValid (params_id req)); [|discriminate].
    cbn [negb andb].
    destruct (validateTaskUpdate req) as [res|req'|err|err] eqn:E;
      try discriminate.
    apply validateTaskUpdate_Next in E as (-> & _).
    intros H. injection H as <-. now split.
  - destruct (ObjectId_isValid (params_id req)); [|discriminate].
    intros H. injection H as <-. now split.
Qed.

(** X18. When the call of the Task model fails, whatever the failure:
    [POST /], [GET /:id], [PUT /:id] and [DELETE /:id] catch it themselves
    and answer 400 with the message of the failure, in every mode and
    without a [stack] field; only [GET /], the route wrapped in
    [asyncHandler], hands the failure to [errorHandler] and answers what
    that answers. *)
Theorem rejected_call_answers :
  forall (ObjectId_isValid : jsstring -> bool) (NODE_ENV : JsValue)
         (m : Method) (req : Request) (S : Type)
         (step : StoreCall -> S -> Settled * S) (st st' : S)
         (call : StoreCall) (err : JsValue),
    store_calls ObjectId_isValid m req = [call] ->
    step call st = (Rejected err, st') ->
    is_nullish err = false ->
    run step st (app ObjectId_isValid NODE_ENV m req)
    = (match m with
       | GET => errorHandler NODE_ENV err
       | _ => Responded
                (mkResponse (JNum 400)
                   (obj [("error", js_get err (lit "message"))]))
       end, st', [call]).
Proof.
  intros isValid env m req S step st st' call err Hcalls Hstep Herr.
  apply router_accepted in Hcalls as [Hr ->]. unfold app. rewrite Hr.
  destruct m;
    unfold asyncHandler, create_task, get_all_tasks, get_one_task,
      update_task, delete_task;
    cbn [on_outcome run body params_id]; rewrite Hstep;
    unfold catch_400; rewrite ?Herr; reflexivity.
Qed.

Lemma rejected_call_answers_witness :
  run (failing_store
         (obj [("name", str "ValidationError");
               ("message", str "Task validation failed");
               ("errors", obj [("title", obj [("message", str "too long")])])]))
    tt
    (app is_hex24 (str "development") POST
       (mkRequest (lit "") (obj [("title", str "Buy milk")])))
  = (Responded
       (mkResponse (JNum 400) (obj [("error", str "Task validation failed")])),
     tt, [Task_create (obj [("title", str "Buy milk")])]).
Proof.
  exact (@rejected_call_answers is_hex24 (str "development") POST
           (mkRequest (lit "") (obj [("title", str "Buy milk")]))
           unit
           (failing_store
              (obj [("name", str "ValidationError");
                    ("message", str "Task validation failed");
                    ("errors",
                     obj [("title", obj [("message", str "too long")])])]))
           tt tt (Task_create (obj [("title", str "Buy milk")])) _
           eq_refl eq_refl eq_refl).
Defined.

(** X19. When the call of the Task model is fulfilled: [POST /] answers
    201 with the task created and [GET /] 200 with what the model found;
    given a task that is not falsy, [GET /:id] and [PUT /:id] answer 200
    with it and [DELETE /:id] answers 200 with the message [Task deleted]
    and not with the task. *)
Theorem fulfilled_call_answers :
  forall (ObjectId_isValid : jsstring -> bool) (NODE_ENV : JsValue)
         (m : Method) (req : Request) (S : Type)
         (step : StoreCall -> S -> Settled * S) (st st' : S)
         (call : StoreCall) (task : JsValue),
    store_calls ObjectId_isValid m req = [call] ->
    step call st = (Fulfilled task, st') ->
    m = POST \/ m = GET \/ truthy task = true ->
    run step st (app ObjectId_isValid NODE_ENV m req)
    = (Responded (success m task), st', [call]).
Proof.
  intros isValid env m req S step st st' call task Hcalls Hstep Htask.
  apply router_accepted in Hcalls as [Hr ->]. unfold app. rewrite Hr.
  destruct m;
    unfold asyncHandler, create_task, get_all_tasks, get_one_task,
      update_task, delete_task;
    cbn [on_outcome run body params_id]; rewrite Hstep;
    try reflexivity;
    destruct Htask as [Hm|[Hm|Htask]]; try discriminate Hm;
    rewrite Htask; reflexivity.
Qed.

Lemma fulfilled_call_answers_witness :
  run (fun (_ : StoreCall) (st : unit) =>
         (Fulfilled (obj [("_id", str "507f1f77bcf86cd799439011");
                          ("title", str "Buy milk")]), st))
    tt
    (app is_hex24 (str "production") DELETE_id
       (mkRequest (lit "507f1f77bcf86cd799439011") JUndefined))
  = (Responded
       (mkResponse (JNum 200) (obj [("message", str "Task deleted")])),
     tt, [Task_findByIdAndDelete (lit "507f1f77bcf86cd799439011")]).
Proof.
  exact (@fulfilled_call_answers is_hex24 (str "production") DELETE_id
           (mkRequest (lit "507f1f77bcf86cd799439011") JUndefined)
           unit
           (fun (_ : StoreCall) (st : unit) =>
              (Fulfilled (obj [("_id", str "507f1f77bcf86cd799439011");
                               ("title", str "Buy milk")]), st))
           tt tt (Task_findByIdAndDelete (lit "507f1f77bcf86cd799439011")) _
           eq_refl eq_refl (or_intror (or_intror eq_refl))).
Defined.

(** X20. A request without a payload ([req.body] is [undefined] or
    [null]): both validators throw when they read the fields of the
    sanitized payload, no call of the Task model is made, and through
    [errorHandler] the answer of [POST /] and of [PUT /:id] (with an
    identifier of the store's format) is 500, not 400. *)
Theorem missing_body_answers_500 :
  forall (ObjectId_isValid : jsstring -> bool) (NODE_ENV : JsValue)
         (req : Request) (S : Type)
         (step : StoreCall -> S -> Settled * S) (st : S),
    is_nullish (body req) = true ->
    validateTaskInput req = Threw TypeError /\
    validateTaskUpdate req = Threw TypeError /\
    exists res,
      statusCode res = JNum 500 /\
      run step st (app ObjectId_isValid NODE_ENV POST req)
      = (Responded res, st, []) /\
      (ObjectId_isValid (params_id req) = true ->
       run step st (app ObjectId_isValid NODE_ENV PUT_id req)
       = (Responded res, st, [])).
Proof.
  intros isValid env req S step st Hbody.
  assert (Hi : validateTaskInput req = Threw TypeError).
  { unfold validateTaskInput. cbn [body]. cbv zeta.
    now rewrite sanitizeObject_nullish, Hbody. }
  assert (Hu : validateTaskUpdate req = Threw TypeError).
  { unfold validateTaskUpdate. cbn [body]. cbv zeta.
    now rewrite sanitizeObject_nullish, Hbody. }
  split; [exact Hi|]. split; [exact Hu|].
  assert (He : exists res, errorHandler env TypeError = Responded res /\
                           statusCode res = JNum 500).
  { unfold errorHandler.
    destruct (strict_eq_str env (lit "development")); eexists;
      (split; [reflexivity|]); reflexivity. }
  destruct He as (res & He & Hs). exists res. split; [exact Hs|]. split.
  - unfold app, router. cbn [route]. rewrite Hi. cbn [on_outcome run].
    now rewrite He.
  - intros Hid. unfold app, router. cbn [route]. unfold validateObjectId.
    rewrite Hid. cbn [negb]. rewrite Hu. cbn [on_outcome run].
    now rewrite He.
Qed.

Lemma missing_body_answers_500_witness :
  validateTaskInput (mkRequest (lit "") JUndefined) = Threw TypeError.
Proof.
  exact (proj1 (@missing_body_answers_500 is_hex24 (str "production")
                  (mkRequest (lit "") JUndefined) unit
                  (failing_store JNull) tt eq_refl)).
Defined.

(* ================================================================== *)
(** * The answers of the error handler *)

(** X22. Every response of [errorHandler] has a body with the key
    [error], then [details] exactly when the failure is a
    [ValidationError], then [stack] exactly in development mode, and no
    other key: no other field of the failure is ever copied.  Its status
    is 400, 503 or 500, or the [statusCode] of the failure when that is
    not falsy. *)
Theorem errorHandler_response_shape :
  forall (NODE_ENV err : JsValue) (res : Response),
    errorHandler NODE_ENV err = Responded res ->
    map fst (own_props (json res))
    = [lit "error"]
      ++ (if named err "ValidationError" then [lit "details"] else [])
      ++ (if strict_eq_str NODE_ENV (lit "development")
          then [lit "stack"] else []) /\
    (In (statusCode res) [JNum 400; JNum 503; JNum 500] \/
     truthy (js_get err (lit "statusCode")) = true /\
     statusCode res = js_get err (lit "statusCode")).
Proof.
  intros env err res. unfold errorHandler, named.
  destruct (is_nullish err); [discriminate|]. cbv zeta.
  destruct (strict_eq_str (js_get err (lit "name")) (lit "ValidationError")).
  { destruct (Object_values _) as [es|]; [|discriminate].
    destruct (existsb is_nullish es); [discriminate|].
    intros H. injection H as <-. cbn [json statusCode].
    split; [destruct (strict_eq_str env _); reflexivity|]. left. now left. }
  destruct (strict_eq_str (js_get err (lit "name")) (lit "CastError")).
  { intros H. injection H as <-. cbn [json statusCode].
    split; [destruct (strict_eq_str env _); reflexivity|]. left. now left. }
  destruct (strict_eq_num (js_get err (lit "code")) 11000).
  { destruct (Object_keys _) as [keys|]; [|discriminate].
    intros H. injection H as <-. cbn [json statusCode].
    split; [destruct (strict_eq_str env _); reflexivity|]. left. now left. }
  destruct (_ || _).
  { intros H. injection H as <-. cbn [json statusCode].
    split; [destruct (strict_eq_str env _); reflexivity|]. left. right. now left. }
  destruct (truthy (js_get err (lit "statusCode"))) eqn:Hs.
  { intros H. injection H as <-. cbn [json statusCode].
    split; [destruct (strict_eq_str env _); reflexivity|]. right. now split. }
  destruct (truthy (js_get err (lit "message")));
    intros H; injection H as <-; cbn [json statusCode];
    (split; [destruct (strict_eq_str env _); reflexivity|]);
    left; right; right; now left.
Qed.

Lemma errorHandler_response_shape_witness :
  map fst
    (own_props
       (obj [("error", str "Duplicate value for field: title");
             ("stack", JUndefined)]))
  = [lit "error"; lit "stack"].
Proof.
  exact (proj1 (@errorHandler_response_shape (str "development")
                  (obj [("code", JNum 11000); ("message", str "E11000");
                        ("keyPattern", obj [("title", JNum 1)]);
                        ("keyValue", obj [("title", str "Buy milk")])])
                  _ eq_refl)).
Defined.

(** X23. The order in which [errorHandler] classifies a failure, and what
    it answers in each case, in every mode.  A [ValidationError] is
    answered 400 with the message of every entry of [err.errors], in the
    order of its keys, whatever its code and [statusCode]; then a
    [CastError] 400; then a failure with code 11000 is answered 400 with
    the first key of its [keyPattern] (the word [undefined] when it has
    none), whatever its name; a [statusCode] of the failure counts only
    after these and after the connectivity names; the message of the
    failure is copied only in the last two cases. *)
Theorem errorHandler_classifies_in_order :
  forall (NODE_ENV err : JsValue),
    is_nullish err = false ->
    let answers (status error : JsValue) :=
      exists res,
        errorHandler NODE_ENV err = Responded res /\
        statusCode res = status /\
        js_get (json res) (lit "error") = error in
    let code_11000 := strict_eq_num (js_get err (lit "code")) 11000 in
    let connectivity :=
      named err "MongoNetworkError" || named err "MongoTimeoutError" in
    (named err "ValidationError" = true ->
     forall es,
       Object_values (js_get err (lit "errors")) = Some es ->
       existsb is_nullish es = false ->
       exists res,
         errorHandler NODE_ENV err = Responded res /\
         statusCode res = JNum 400 /\
         js_get (json res) (lit "error") = str "Validation failed" /\
         js_get (json res) (lit "details")
         = JArr (map (fun e => js_get e (lit "message")) es)) /\
    (named err "ValidationError" = false -> named err "CastError" = true ->
     answers (JNum 400) (str "Invalid ID format")) /\
    (named err "ValidationError" = false -> named err "CastError" = false ->
     code_11000 = true ->
     forall keys,
       Object_keys (js_get err (lit "keyPattern")) = Some keys ->
       answers (JNum 400)
         (JStr (lit "Duplicate value for field: "
                ++ key_to_string (hd_error keys)))) /\
    (named err "ValidationError" = false -> named err "CastError" = false ->
     code_11000 = false -> connectivity = false ->
     (truthy (js_get err (lit "statusCode")) = true ->
      answers (js_get err (lit "statusCode")) (js_get err (lit "message"))) /\
     (truthy (js_get err (lit "statusCode")) = false ->
      truthy (js_get err (lit "message")) = true ->
      answers (JNum 500) (js_get err (lit "message"))) /\
     (truthy (js_get err (lit "statusCode")) = false ->
      truthy (js_get err (lit "message")) = false ->
      answers (JNum 500) (str "Internal server error"))).
Proof.
  intros env err Herr answers code_11000 connectivity.
  subst answers code_11000 connectivity. unfold named, errorHandler.
  rewrite Herr. cbv zeta.
  assert (Hdetails : forall (dev : bool) e d stack,
            js_get
              (if dev
               then js_set (obj [("error", e); ("details", d)]) (lit "stack")
                      stack
               else obj [("error", e); ("details", d)])
              (lit "details") = d)
    by (intros [] e d stack; reflexivity).
  split; [|split; [|split]].
  - intros -> es -> ->. eexists. split; [reflexivity|]. cbn [statusCode json].
    split; [reflexivity|]. split; [apply finish_error | apply Hdetails].
  - intros -> ->. eexists. split; [reflexivity|]. cbn [statusCode json].
    split; [reflexivity | apply finish_error].
  - intros -> -> -> keys ->. eexists. split; [reflexivity|].
    cbn [statusCode json]. split; [reflexivity | apply finish_error].
  - intros -> -> -> ->. split; [|split].
    + intros ->. eexists. split; [reflexivity|]. cbn [statusCode json].
      split; [reflexivity | apply finish_error].
    + intros -> ->. eexists. split; [reflexivity|]. cbn [statusCode json].
      split; [reflexivity | apply finish_error].
    + intros -> ->. eexists. split; [reflexivity|]. cbn [statusCode json].
      split; [reflexivity | apply finish_error].
Qed.

Lemma errorHandler_classifies_in_order_witness :
  exists res,
    errorHandler (str "production")
      (obj [("name", str "ValidationError"); ("code", JNum 11000);
            ("statusCode", JNum 418); ("message", str "Task validation failed");
            ("errors",
             obj [("title", obj [("message", str "Path `title` is required.")]);
                  ("status",
                   obj [("message", str "`done` is not a valid enum value.")])])])
    = Responded res /\
    statusCode res = JNum 400 /\
    js_get (json res) (lit "error") = str "Validation failed" /\
    js_get (json res) (lit "details")
    = JArr [str "Path `title` is required.";
            str "`done` is not a valid enum value."].
Proof.
  exact (proj1 (@errorHandler_classifies_in_order (str "production")
                  (obj [("name", str "ValidationError"); ("code", JNum 11000);
                        ("statusCode", JNum 418);
                        ("message", str "Task validation failed");
                        ("errors",
                         obj [("title",
                               obj [("message",
                                     str "Path `title` is required.")]);
                              ("status",
                               obj [("message",
                                     str "`done` is not a valid enum value.")])])])
                  eq_refl)
           eq_refl _ eq_refl eq_refl).
Defined.

(* ================================================================== *)
(** * A script block goes with its content *)

Lemma exec_script_end (prev : option N) (s : jsstring) :
  exec true script_re prev s = script_end s.
Proof.
  unfold exec, script_end.
  change script_re
    with (RSeq (fold_right RSeq REmpty (map RChar (lit "<script")))
            (RSeq RWordB
               (RSeq (RStar (RClass true (lit "<")))
                  (RSeq (RStar group_re) (RSeq (rlit "</script>") REmpty))))).
  cbn [rmatch]. rewrite rmatch_chars.
  destruct (after_prefix true (lit "<script") s) as [r|] eqn:E; [|reflexivity].
  cbn [rmatch].
  destruct (@after_prefix_last true 116 (lit "<scrip") prev s r E)
    as (x & Hprev & Hx).
  change (lit "<scrip" ++ [116%N]) with (lit "<script") in Hprev.
  rewrite Hprev. cbn [word_at]. rewrite (char_match_t_word _ Hx). cbn [xorb].
  destruct (word_at (hd_error r)); [reflexivity|]. cbn [negb].
  rewrite (@star_loop_one _ not_lt) by (reflexivity || lia).
  rewrite greedy_commit.
  - change (rmatch true (RSeq (rlit "</script>") REmpty)
              (fun (_ : option N) (rest : jsstring) => Some rest))
      with k_close.
    rewrite group_loop;
      [apply find_close_drop_run | lia
       | pose proof (drop_run_head not_lt r) as Hd;
         destruct (drop_run not_lt r); [exact I | exact Hd]].
  - intros q y u Hy.
    change (rmatch true (RSeq (rlit "</script>") REmpty)
              (fun (_ : option N) (rest : jsstring) => Some rest))
      with k_close.
    now apply group_loop_not_lt.
Qed.

Lemma script_end_not_lt (c : N) (s : jsstring) :
  c <> 60%N -> script_end (c :: s) = None.
Proof.
  intros Hc. unfold script_end.
  cbn [lit map list_ascii_of_string after_prefix].
  destruct (char_match true (N_of_ascii "<") c) eqn:E; [|reflexivity].
  apply canonicalize_60 in E. contradiction.
Qed.

(** Text without [<] is copied, and the search goes on behind it. *)
Lemma replace_script_text (pre s : jsstring) :
  ~ In 60%N pre ->
  forall p,
    replace_go (exec true script_re) 0 p (pre ++ s)
    = pre ++ replace_go (exec true script_re) 0 None s.
Proof.
  induction pre as [|c pre IH]; intros Hin p.
  - apply (@replace_go_prev _ _ exec_script_end).
  - rewrite <- !app_comm_cons.
    rewrite (@replace_go_head _ _ exec_script_end p c (pre ++ s))
      by (apply script_end_not_lt; intros ->; apply Hin; now left).
    rewrite IH by (intros H; apply Hin; now right). reflexivity.
Qed.

Lemma after_prefix_app (ic : bool) (pre : jsstring) :
  forall o rest,
    after_prefix ic pre o = Some [] ->
    after_prefix ic pre (o ++ rest) = Some rest /\
    List.length o = List.length pre.
Proof.
  induction pre as [|a pre IH]; intros o rest H; cbn [after_prefix] in H |- *.
  - injection H as ->. now split.
  - destruct o as [|x o]; [discriminate H|]. rewrite <- app_comm_cons.
    destruct (char_match ic a x); [|discriminate H].
    destruct (IH _ rest H) as [E L]. split; [exact E|]. simpl. now rewrite L.
Qed.

Lemma find_close_text (inner close post : jsstring) :
  ~ In 60%N inner ->
  after_prefix true (lit "</script>") close = Some [] ->
  find_close (inner ++ close ++ post) = Some post.
Proof.
  intros Hin Hclose. induction inner as [|x inner IH].
  - rewrite app_nil_l. destruct (@after_prefix_app _ _ _ post Hclose) as [E _].
    destruct (close ++ post); cbn [find_close]; now rewrite E.
  - rewrite <- app_comm_cons. cbn [find_close].
    rewrite after_prefix_close_lt.
    + apply IH. intros H. apply Hin. now right.
    + rewrite not_lt_spec. apply negb_true_iff, N.eqb_neq.
      intros ->. apply Hin. now left.
Qed.

Lemma script_end_block (open inner close post : jsstring) :
  after_prefix true (lit "<script") open = Some [] ->
  starts_word inner = false -> ~ In 60%N inner ->
  after_prefix true (lit "</script>") close = Some [] ->
  script_end (open ++ inner ++ close ++ post) = Some post.
Proof.
  intros Hopen Hword Hin Hclose. unfold script_end.
  destruct (@after_prefix_app _ _ _ (inner ++ close ++ post) Hopen) as [-> _].
  assert (Hw : word_at (hd_error (inner ++ close ++ post)) = false).
  { destruct inner as [|x inner]; [|exact Hword]. rewrite app_nil_l.
    destruct close as [|y close]; [discriminate Hclose|].
    cbn [lit map list_ascii_of_string after_prefix] in Hclose.
    destruct (char_match true (N_of_ascii "<") y) eqn:E; [|discriminate Hclose].
    apply canonicalize_60 in E. subst y. reflexivity. }
  rewrite Hw. now apply find_close_text.
Qed.

(** X24. A script block and everything in it are removed together.  For
    a block that stands behind text without [<], opens with [<script] in
    any case, not followed by a word character, holds no [<] between the
    opening and the closing tag, and closes with the closing tag in any
    case, [sanitizeString] returns what it returns for the string without
    the block: nothing of the content of the block is left. *)
Theorem sanitizeString_drops_script_content :
  forall pre open inner close post : jsstring,
    ~ In 60%N pre ->
    after_prefix true (lit "<script") open = Some [] ->
    starts_word inner = false ->
    ~ In 60%N inner ->
    after_prefix true (lit "</script>") close = Some [] ->
    sanitizeString (JStr (pre ++ open ++ inner ++ close ++ post))
    = sanitizeString (JStr (pre ++ post)).
Proof.
  intros pre open inner close post Hpre Hopen Hword Hin Hclose.
  cbn [sanitizeString]. unfold sanitized_text. do 3 f_equal.
  unfold replace_all.
  rewrite (@replace_script_text pre (open ++ inner ++ close ++ post) Hpre None),
    (@replace_script_text pre post Hpre None).
  f_equal.
  apply (@replace_go_match _ _ exec_script_end).
  - now apply script_end_block.
  - exists (open ++ inner ++ close). now rewrite <- !app_assoc.
  - destruct (@after_prefix_app _ _ _ [] Hopen) as [_ L].
    rewrite !length_app, L. simpl. lia.
Qed.

Lemma sanitizeString_drops_script_content_witness :
  sanitizeString
    (JStr (lit "Buy " ++ lit "<SCRIPT" ++ lit " src=x>alert('xss')"
           ++ lit "</Script>" ++ lit "milk <b>now</b>"))
  = sanitizeString (JStr (lit "Buy " ++ lit "milk <b>now</b>")).
Proof.
  apply (@sanitizeString_drops_script_content (lit "Buy ") (lit "<SCRIPT")
           (lit " src=x>alert('xss')") (lit "</Script>")
           (lit "milk <b>now</b>")).
  - intros H. vm_compute in H. repeat destruct H as [H|H]; try discriminate H.
    exact H.
  - reflexivity.
  - reflexivity.
  - intros H. vm_compute in H. repeat destruct H as [H|H]; try discriminate H.
    exact H.
  - reflexivity.
Defined.

(* ================================================================== *)
(** * The shape of a sanitized value *)

Lemma some_prop_In (P : JsValue -> Prop) (key : jsstring)
    (props : list (jsstring * JsValue)) :
  some_prop P key props <-> exists v, In (key, v) props /\ P v.
Proof.
  induction props as [|[k v] props IH]; cbn [some_prop In].
  - split; [intros [] | intros (v & [] & _)].
  - rewrite IH. split.
    + intros [[-> Hv]|(v' & Hin & Hv)];
        [exists v; split; [now left | exact Hv]
        |exists v'; split; [now right | exact Hv]].
    + intros (v' & [E|Hin] & Hv).
      * injection E as -> ->. left. now split.
      * right. exists v'. now split.
Qed.

Lemma set_prop_In (ps : list (jsstring * JsValue)) (key k : jsstring)
    (v w : JsValue) :
  In (k, w) (set_prop ps key v) -> (k, w) = (key, v) \/ In (k, w) ps.
Proof.
  induction ps as [|[k' v'] ps IH]; cbn [set_prop In].
  - intros [E|[]]. left. now symmetry.
  - destruct (JsString.eqb k' key) eqn:E; cbn [In].
    + apply eqb_eq in E as ->. intros [E'|Hin]; [left; now symmetry|].
      right. now right.
    + intros [E'|Hin]; [right; now left|].
      destruct (IH Hin) as [H|H]; [now left | right; now right].
Qed.

Lemma set_prop_has_key (ps : list (jsstring * JsValue)) (key k : jsstring)
    (v : JsValue) :
  k = key \/ In k (map fst ps) -> In k (map fst (set_prop ps key v)).
Proof.
  destruct (existsb (JsString.eqb key) (map fst ps)) eqn:E.
  - apply existsb_eqb_In in E. rewrite set_prop_keys_eq by exact E.
    intros [->|H]; assumption.
  - rewrite set_prop_new, map_app, in_app_iff.
    + cbn [map fst In]. intros [->|H]; [right; now left | now left].
    + intros Hin. apply existsb_eqb_In in Hin. congruence.
Qed.

Lemma same_shape_obj (pr : option JsValue)
    (props qs : list (jsstring * JsValue)) :
  same_shape (JObj pr props) (JObj None qs)
  = ((forall key w', In (key, w') qs ->
                     some_prop (fun v' => same_shape v' w') key props) /\
     (forall key, In key (map fst props) -> operator_key key = false ->
                  In key (map fst qs))).
Proof. reflexivity. Qed.

(** The loop over the properties of an object that holds no array and no
    key [__proto__]: every property of the result is one of the start or
    comes from a property of the object, with a value of the same shape,
    and no key is lost but those that begin with [$]. *)
Lemma sanitize_props_shape (ps : list (jsstring * JsValue)) :
  Forall (fun kv => no_array (snd kv) = true -> no_proto_key (snd kv) = true ->
                    same_shape (snd kv) (sanitize_value (snd kv))) ps ->
  forallb (fun kv => no_array (snd kv)) ps = true ->
  forallb (fun kv => negb (proto_key (fst kv)) && no_proto_key (snd kv)) ps
    = true ->
  forall acc, exists acc',
    sanitize_props ps (JObj None acc) = JObj None acc' /\
    (forall key w', In (key, w') acc' ->
       In (key, w') acc \/ some_prop (fun v' => same_shape v' w') key ps) /\
    (forall key,
       In key (map fst acc) \/
       (In key (map fst ps) /\ operator_key key = false) ->
       In key (map fst acc')).
Proof.
  induction 1 as [|[key0 v0] ps Hv _ IH]; intros Harr Hproto acc.
  - exists acc. split; [reflexivity|]. split; [now left|].
    intros key [H|[[] _]]. exact H.
  - cbn [forallb fst snd] in Harr, Hproto, Hv.
    apply andb_prop in Harr as [Ha Harr].
    apply andb_prop in Hproto as [Hkv Hproto].
    apply andb_prop in Hkv as [Hk Hn]. apply negb_true_iff in Hk.
    specialize (IH Harr Hproto). cbn [sanitize_props].
    destruct (startsWith key0 (lit "$")) eqn:Hop.
    + destruct (IH acc) as (acc' & E & Hfrom & Hkeys).
      exists acc'. split; [exact E|]. split.
      * intros key w' Hin. destruct (Hfrom _ _ Hin) as [H|H];
          [now left | right; cbn [some_prop]; now right].
      * intros key [H|[[<-|H] Hkey]].
        -- apply Hkeys. now left.
        -- unfold operator_key in Hkey. cbn [fst] in Hkey. congruence.
        -- apply Hkeys. right. now split.
    + unfold js_set. unfold proto_key in Hk. rewrite Hk.
      destruct (IH (set_prop acc key0 (sanitize_value v0)))
        as (acc' & E & Hfrom & Hkeys).
      exists acc'. split; [exact E|]. split.
      * intros key w' Hin. destruct (Hfrom _ _ Hin) as [H|H].
        -- apply set_prop_In in H as [H|H]; [|now left].
           injection H as -> ->. right. cbn [some_prop]. left.
           split; [reflexivity | now apply Hv].
        -- right. cbn [some_prop]. now right.
      * intros key [H|[[<-|H] Hkey]]; cbn [fst]; apply Hkeys.
        -- left. apply set_prop_has_key. now right.
        -- left. apply set_prop_has_key. now left.
        -- right. now split.
Qed.

Lemma sanitize_value_same_shape (v : JsValue) :
  no_array v = true -> no_proto_key v = true ->
  same_shape v (sanitize_value v).
Proof.
  induction v as [| |b|x|s|elems _|proto props _ IH] using JsValue_deep_ind;
    try reflexivity.
  - discriminate.
  - intros Harr Hproto. cbn [sanitize_value]. rewrite sanitizeObject_obj.
    destruct (sanitize_props_shape IH Harr Hproto [])
      as (acc' & -> & Hfrom & Hkeys).
    rewrite same_shape_obj. split.
    + intros key w' Hin. destruct (Hfrom _ _ Hin) as [[]|H]. exact H.
    + intros key Hin Hkey. apply Hkeys. right. now split.
Qed.

(** A nested array does not keep its shape either. *)
Example sanitizeObject_nested_array_not_array :
  sanitizeObject (obj [("tags", JArr [str "a"; str "<b>c"])])
  = obj [("tags", obj [("0", str "a"); ("1", str "c")])].
Proof. reflexivity. Qed.

(** C3, amended. For every input value that is not an array, the
    sanitizer ([sanitizeString] for a string, [sanitizeObject] for any
    other value) returns a value of the same kind with unsafe content
    removed: a string for a string and an object for an object; every value
    that is not an object unchanged from [sanitizeObject] and every value
    that is not a string unchanged from [sanitizeString]; and in the result
    no string, at any depth, holds a markup-tag-like substring or a
    dollar-prefixed token and no key begins with [$].  When the input
    holds no array and no key [__proto__] at any depth, the result has the
    shape of the input at every depth: an object comes back as a plain
    object that gains no key, keeps every key that does not begin with [$]
    and holds under each key a value of the shape of the input's. *)
Theorem sanitizer_preserves_shape :
  forall v : JsValue,
    isArray v = false ->
    let sanitized := if is_string v then sanitizeString v else sanitizeObject v in
    shape_of (sanitizeObject v) = shape_of v /\
    shape_of (sanitizeString v) = shape_of v /\
    (is_object_type v = false -> sanitizeObject v = v) /\
    (is_string v = false -> sanitizeString v = v) /\
    deep_clean sanitized = true /\
    (no_array v = true -> no_proto_key v = true -> same_shape v sanitized).
Proof.
  intros v Harr sanitized.
  assert (E : sanitized = sanitize_value v)
    by (subst sanitized; destruct v; reflexivity).
  split; [|split; [|split; [|split; [|split]]]].
  - rewrite sanitizeObject_shape, Harr. reflexivity.
  - destruct v; reflexivity.
  - destruct v; simpl; intros H; try reflexivity; discriminate.
  - destruct v; simpl; intros H; try reflexivity; discriminate.
  - rewrite E. apply sanitize_value_deep_clean.
  - rewrite E. apply sanitize_value_same_shape.
Qed.

Lemma sanitizer_preserves_shape_witness :
  deep_clean
    (sanitizeObject
       (obj [("title", str "<b>x"); ("n", JNum 1);
             ("meta", obj [("$gt", JNum 1); ("note", str "a $ne b")])]))
  = true /\
  same_shape
    (obj [("title", str "<b>x"); ("n", JNum 1);
          ("meta", obj [("$gt", JNum 1); ("note", str "a $ne b")])])
    (obj [("title", str "x"); ("n", JNum 1);
          ("meta", obj [("note", str "a  b")])]).
Proof.
  pose proof (@sanitizer_preserves_shape
                (obj [("title", str "<b>x"); ("n", JNum 1);
                      ("meta", obj [("$gt", JNum 1); ("note", str "a $ne b")])])
                eq_refl) as H.
  split.
  - exact (proj1 (proj2 (proj2 (proj2 (proj2 H))))).
  - exact (proj2 (proj2 (proj2 (proj2 (proj2 H)))) eq_refl eq_refl).
Defined.

(* ================================================================== *)
(** * The report of the creation validator and the own fields *)

Lemma sanitize_props_default_proto (ps : list (jsstring * JsValue)) :
  existsb proto_key (map fst ps) = false ->
  forall acc, exists acc', sanitize_props ps (JObj None acc) = JObj None acc'.
Proof.
  induction ps as [|[key v] ps IH]; intros Hproto acc; [now exists acc|].
  cbn [map fst existsb] in Hproto.
  apply orb_false_elim in Hproto as [Hkey Hproto]. cbn [sanitize_props].
  destruct (startsWith key (lit "$")); [now apply IH|].
  unfold js_set. unfold proto_key in Hkey. rewrite Hkey. now apply IH.
Qed.

(** Without an own key [__proto__] in the payload nothing is inherited in
    the sanitized payload: what the validator reads is an own field. *)
Lemma js_get_own_field (v : JsValue) (key : jsstring) :
  has_proto_key v = false ->
  js_get (sanitizeObject v) key = own_field (sanitizeObject v) key.
Proof.
  intros Hproto. destruct v as [| | | | |elems|pr ps]; try reflexivity.
  - rewrite sanitizeObject_arr.
    rewrite (@sanitize_elems_indexed elems 0 []) by (intros k []).
    reflexivity.
  - rewrite sanitizeObject_obj.
    destruct (sanitize_props_default_proto ps Hproto []) as (acc' & ->).
    reflexivity.
Qed.

Lemma violated_own (v : JsValue) (r : Rule) :
  has_proto_key v = false ->
  violated (sanitizeObject v) r = own_violated (sanitizeObject v) r.
Proof.
  intros Hproto. unfold violated, own_violated.
  now rewrite !js_get_own_field by exact Hproto.
Qed.

(** C6. The payload
    [{"__proto__": {"title": "Buy milk"}, "status": "invalid", "description": 5}]
    has no title of its own, before and after sanitizing; it violates the
    three field rules, and the details hold two messages only: the title
    message is missing, because the sanitizer has made the value under
    [__proto__] the prototype of the sanitized payload and the validator
    reads the inherited title. *)
Theorem validateTaskInput_omits_title_message :
  let payload :=
    obj [("__proto__", obj [("title", str "Buy milk")]);
         ("status", str "invalid"); ("description", JNum 5)] in
  own_field payload (lit "title") = JUndefined /\
  own_field (sanitizeObject payload) (lit "title") = JUndefined /\
  filter (own_violated (sanitizeObject payload)) rules
  = [TitleRule; StatusRule; DescriptionRule] /\
  validateTaskInput (mkRequest (lit "") payload)
  = Responded
      (validation_failed [message StatusRule; message DescriptionRule]).
Proof. repeat split; vm_compute; reflexivity. Qed.

(** X25, beside C6. For a payload without an own key [__proto__], with the
    rules judged on the own fields of the sanitized payload: the details
    are the messages of the violated rules, one for each and in the order
    of the rules, and they are sent together: with any violated rule the
    answer is 400 with all of them, and [next] is called only when there
    is none.  For the payload with an empty title and the status [invalid]
    the details are the title message and the status message. *)
Theorem validateTaskInput_reports_every_violation :
  forall req : Request,
    is_nullish (body req) = false ->
    has_proto_key (body req) = false ->
    let payload := sanitizeObject (body req) in
    let details := map message (filter (own_violated payload) rules) in
    validateTaskInput req
    = (if 0 <? List.length details
       then Responded
              (mkResponse (JNum 400)
                 (obj [("error", str "Validation failed");
                       ("details", JArr (map JStr details))]))
       else Next (mkRequest (params_id req) payload))
    /\ List.length details = List.length (filter (own_violated payload) rules)
    /\ (forall r, In (message r) details <-> own_violated payload r = true)
    /\ validateTaskInput
         (mkRequest (lit "") (obj [("title", str ""); ("status", str "invalid")]))
       = Responded
           (mkResponse (JNum 400)
              (obj [("error", str "Validation failed");
                    ("details", JArr [JStr (message TitleRule);
                                      JStr (message StatusRule)])])).
Proof.
  intros req Hbody Hproto payload details. split; [|split; [|split]].
  - rewrite (validateTaskInput_outcome req Hbody). subst details payload.
    rewrite length_map.
    rewrite (filter_ext _ _ (fun r => @violated_own (body req) r Hproto)).
    reflexivity.
  - subst details. apply length_map.
  - intros r. subst details. split.
    + intros H. apply in_map_iff in H as (r' & Hm & H).
      apply filter_In in H as [_ H].
      destruct r, r'; try exact H; vm_compute in Hm; discriminate.
    + intros H. apply in_map. apply filter_In. split; [|exact H].
      destruct r; simpl; tauto.
  - vm_compute. reflexivity.
Qed.

Lemma validateTaskInput_reports_every_violation_witness :
  validateTaskInput
    (mkRequest (lit "")
       (obj [("title", str "   "); ("status", str "done");
             ("description", JNum 5)]))
  = Responded
      (mkResponse (JNum 400)
         (obj [("error", str "Validation failed");
               ("details", JArr [JStr (message TitleRule);
                                 JStr (message StatusRule);
                                 JStr (message DescriptionRule)])])).
Proof.
  exact (proj1 (validateTaskInput_reports_every_violation
                  (mkRequest (lit "")
                     (obj [("title", str "   "); ("status", str "done");
                           ("description", JNum 5)]))
                  eq_refl eq_refl)).
Defined.

(* ================================================================== *)
(** * What the error handler sends *)

(** C10, as stated, fails on failure objects that have nothing to do with
    the code 11000: a [ValidationError] without [errors] makes the handler
    throw; a [statusCode] that [res.status] refuses makes its last line
    throw; and a [statusCode] without a message is answered with a body
    whose [error] is [undefined].  In the first two cases nothing is
    sent. *)
Lemma errorHandler_fails_on_failure_objects :
  errorHandler_sends status_code_ok (str "production")
    (obj [("name", str "ValidationError");
          ("message", str "Task validation failed")])
  = Threw TypeError /\
  errorHandler_sends status_code_ok (str "production")
    (obj [("statusCode", JNum 42); ("message", str "custom")])
  = Threw InvalidStatusCode /\
  errorHandler_sends status_code_ok (str "production")
    (obj [("statusCode", JNum 404)])
  = Responded (mkResponse (JNum 404) (obj [("error", JUndefined)])).
Proof. repeat split; vm_compute; reflexivity. Qed.

(** C10, amended. The handler sends one response, whose body has a string
    [error] field, and does not throw, for every failure that is not
    [undefined] or [null] and is well formed for the branch that handles
    it: the [errors] of a [ValidationError] is an object without
    [undefined] or [null] entries; a failure with the code 11000 that is
    neither a [ValidationError] nor a [CastError] carries a [keyPattern],
    which may be empty; and when the failure is known by no name and no
    code, its [statusCode], if not falsy, is one that [res.status]
    accepts, and its [message], if that or the [statusCode] is not falsy,
    is a string.  [res.status] accepts 400, 503 and 500. *)
Theorem errorHandler_total_on_well_formed_failures :
  forall (status_accepted : JsValue -> bool) (NODE_ENV err : JsValue),
    status_accepted (JNum 400) = true ->
    status_accepted (JNum 503) = true ->
    status_accepted (JNum 500) = true ->
    is_nullish err = false ->
    (named err "ValidationError" = true ->
     exists es, Object_values (js_get err (lit "errors")) = Some es /\
                existsb is_nullish es = false) ->
    (named err "ValidationError" = false -> named err "CastError" = false ->
     strict_eq_num (js_get err (lit "code")) 11000 = true ->
     is_nullish (js_get err (lit "keyPattern")) = false) ->
    (unclassified err = true ->
     truthy (js_get err (lit "statusCode")) = true ->
     status_accepted (js_get err (lit "statusCode")) = true) ->
    (unclassified err = true ->
     truthy (js_get err (lit "statusCode"))
     || truthy (js_get err (lit "message")) = true ->
     is_string (js_get err (lit "message")) = true) ->
    exists res,
      errorHandler_sends status_accepted NODE_ENV err = Responded res /\
      exists s, js_get (json res) (lit "error") = JStr s.
Proof.
  intros accepts env err H400 H503 H500 Hnn Hval Hdup Hcode Hmsg.
  unfold errorHandler_sends, errorHandler, res_status. rewrite Hnn.
  unfold unclassified, named in *. cbv zeta.
  destruct (strict_eq_str (js_get err (lit "name")) (lit "ValidationError")).
  { destruct (Hval eq_refl) as (es & -> & ->). cbv beta iota.
    cbn [statusCode]. rewrite H400. sends_error. }
  destruct (strict_eq_str (js_get err (lit "name")) (lit "CastError")).
  { cbv beta iota. cbn [statusCode]. rewrite H400. sends_error. }
  destruct (strict_eq_num (js_get err (lit "code")) 11000).
  { unfold Object_keys. rewrite (Hdup eq_refl eq_refl eq_refl).
    cbv beta iota. cbn [statusCode]. rewrite H400. sends_error. }
  destruct (_ || _).
  { cbv beta iota. cbn [statusCode]. rewrite H503. sends_error. }
  cbn [negb andb] in Hcode, Hmsg.
  destruct (truthy (js_get err (lit "statusCode"))) eqn:Hs.
  { cbv beta iota. cbn [statusCode]. rewrite (Hcode eq_refl eq_refl).
    specialize (Hmsg eq_refl eq_refl).
    destruct (js_get err (lit "message")) as [| | | |msg| |];
      try discriminate Hmsg.
    sends_error. }
  destruct (truthy (js_get err (lit "message"))) eqn:Hm.
  { cbv beta iota. cbn [statusCode]. rewrite H500.
    specialize (Hmsg eq_refl eq_refl).
    destruct (js_get err (lit "message")) as [| | | |msg| |];
      try discriminate Hmsg.
    sends_error. }
  cbv beta iota. cbn [statusCode]. rewrite H500. sends_error.
Qed.

Lemma errorHandler_total_on_well_formed_failures_witness :
  exists res,
    errorHandler_sends status_code_ok (str "development")
      (obj [("statusCode", JNum 404); ("message", str "Task not found");
            ("stack", str "Error: Task not found")])
    = Responded res /\
    exists s, js_get (json res) (lit "error") = JStr s.
Proof.
  apply (@errorHandler_total_on_well_formed_failures status_code_ok
           (str "development")
           (obj [("statusCode", JNum 404); ("message", str "Task not found");
                 ("stack", str "Error: Task not found")])).
  - reflexivity.
  - reflexivity.
  - reflexivity.
  - reflexivity.
  - intros H. vm_compute in H. discriminate H.
  - intros _ _ H. vm_compute in H. discriminate H.
  - intros _ _. reflexivity.
  - intros _ _. reflexivity.
Defined.

(* ================================================================== *)
(** * A task that the store does not have *)

(** X6. On the routes with an identifier, when the request passes the
    middleware of its route and the one call of the Task model that the
    route makes is fulfilled with [null] (or another falsy value), the
    answer is 404 and [Task not found]; nothing is asked of the other
    calls, so the store may hold other tasks. *)
Theorem missing_task_answers_404 :
  forall (ObjectId_isValid : jsstring -> bool) (NODE_ENV : JsValue)
         (m : Method) (req : Request) (S : Type)
         (step : StoreCall -> S -> Settled * S) (st st' : S)
         (call : StoreCall) (task : JsValue),
    In m [GET_id; PUT_id; DELETE_id] ->
    store_calls ObjectId_isValid m req = [call] ->
    step call st = (Fulfilled task, st') ->
    truthy task = false ->
    run step st (app ObjectId_isValid NODE_ENV m req)
    = (Responded
         (mkResponse (JNum 404) (obj [("error", str "Task not found")])),
       st', [call]).
Proof.
  intros isValid env m req S step st st' call task Hm Hcalls Hstep Htask.
  apply router_accepted in Hcalls as [Hr ->]. unfold app. rewrite Hr.
  destruct Hm as [<-|[<-|[<-|[]]]];
    unfold get_one_task, update_task, delete_task;
    cbn [on_outcome run body params_id]; rewrite Hstep, Htask; reflexivity.
Qed.

Lemma missing_task_answers_404_witness :
  run (Store.step (fun _ => lit "") (fun _ => 0%float))
    [Store.mkTask (lit "507f1f77bcf86cd799439011") (lit "Buy milk") None
       Store.pending 1700000000000]
    (app is_hex24 (str "production") PUT_id
       (mkRequest (lit "507f191e810c19729de860ea") (obj [("title", str "x")])))
  = (Responded
       (mkResponse (JNum 404) (obj [("error", str "Task not found")])),
     [Store.mkTask (lit "507f1f77bcf86cd799439011") (lit "Buy milk") None
        Store.pending 1700000000000],
     [Task_findByIdAndUpdate (lit "507f191e810c19729de860ea")
        (obj [("title", str "x")])]).
Proof.
  exact (@missing_task_answers_404 is_hex24 (str "production") PUT_id
           (mkRequest (lit "507f191e810c19729de860ea")
              (obj [("title", str "x")]))
           (list Store.Task)
           (Store.step (fun _ => lit "") (fun _ => 0%float))
           [Store.mkTask (lit "507f1f77bcf86cd799439011") (lit "Buy milk") None
              Store.pending 1700000000000]
           _ (Task_findByIdAndUpdate (lit "507f191e810c19729de860ea")
                (obj [("title", str "x")]))
           JNull (or_intror (or_introl eq_refl)) eq_refl eq_refl eq_refl).
Defined.
